(** * ml-inference-sim: a discrete-event simulator of an inference cluster

    Shallow embedding of [simulator.py] (Request, Event, Device, Cluster,
    Simulator), of the parts of CPython's [heapq] the simulator calls, and of
    [capacity.py] (CapacityFinder).

    Modelling conventions.
    - Python [int] values are [Z].  In the model of the simulator and of
      the capacity finder a Python [float] is an exact rational ([Q]):
      this is what the order of events, the comparisons and the control
      flow need; rounding, infinities and NaN are outside that model, and
      so is the OverflowError of converting an int beyond the range of a
      float.  Statements about the value of a float computation are made in
      the module [binary64], on IEEE 754 binary64 numbers; statements that
      the model proves for all integers carry the range of a float as a
      hypothesis where the code converts the integer.
    - A raised exception is the [Raise] constructor of [result]; the
      exception classes that the modelled code can raise are listed in [exn].
    - Request objects are shared between the identity map, the waiting
      queue, the completed ledger and the devices.  They live in an object
      store ([objs], a list), and the other structures hold references
      (positions in the store).
    - A Device object is referred to by its position in [devices]. *)

From Stdlib Require Import QArith Lqa String.
From Stdlib Require SpecFloat.
From Equations Require Import Equations.
From stdpp Require Import gmap list strings sorting.

(** ** Exceptions *)

Inductive exn : Type :=
| KeyError
| IndexError
| ZeroDivisionError
| TypeError
| OverflowError.

Inductive result (A : Type) : Type :=
| Ok (a : A)
| Raise (e : exn).
Arguments Ok {A} a.
Arguments Raise {A} e.

#[export] Instance result_ret : MRet result := @Ok.
#[export] Instance result_bind : MBind result :=
  fun A B f r => match r with Ok a => f a | Raise e => Raise e end.

(** [l[i]] for a non-negative index: IndexError out of range. *)
Definition getitem {A : Type} (l : list A) (i : nat) : result A :=
  match l !! i with
  | Some x => Ok x
  | None => Raise IndexError
  end.

(** ** heapq

    [heappush] and [heappop] with their helpers [_siftdown] and [_siftup],
    over any item type with a [<] (Python's [__lt__]). *)

Section heapq.
Context {A : Type} (item_lt : A → A → bool).

(** The [while pos > startpos] loop of [_siftdown]; returns the list and
    the final [pos]. *)
Equations? siftdown_loop (newitem : A) (startpos : nat) (heap : list A)
    (pos : nat) : result (list A * nat) by wf pos lt :=
  siftdown_loop newitem startpos heap pos with decide (startpos < pos) := {
    | right _ := Ok (heap, pos)
    | left _ with heap !! Nat.div2 (pos - 1) := {
      | None := Raise IndexError
      | Some parent with item_lt newitem parent := {
        | true := siftdown_loop newitem startpos (<[pos := parent]> heap)
                    (Nat.div2 (pos - 1))
        | false := Ok (heap, pos) } } }.
Proof.
  destruct pos as [|p]; [lia|].
  replace (S p - 1) with p by lia.
  pose proof (Nat.div2_decr p p). lia.
Qed.

Definition _siftdown (heap : list A) (startpos pos : nat) : result (list A) :=
  newitem ← getitem heap pos;
  '(heap, pos) ← siftdown_loop newitem startpos heap pos;
  Ok (<[pos := newitem]> heap).

(** The child that [_siftup] moves up: the left one, or the right one when
    it exists and the left one is not smaller. *)
Definition smaller_child (heap : list A) (pos : nat) : nat :=
  let childpos := 2 * pos + 1 in
  let rightpos := childpos + 1 in
  match heap !! childpos, heap !! rightpos with
  | Some l, Some r => if item_lt l r then childpos else rightpos
  | _, _ => childpos
  end.

(** The [while childpos < endpos] loop of [_siftup]. *)
Equations? siftup_loop (heap : list A) (pos : nat) : result (list A * nat)
    by wf (length heap - pos) lt :=
  siftup_loop heap pos with decide (2 * pos + 1 < length heap) := {
    | right _ := Ok (heap, pos)
    | left _ with heap !! smaller_child heap pos := {
      | None := Raise IndexError
      | Some x :=
          siftup_loop (<[pos := x]> heap) (smaller_child heap pos) } }.
Proof.
  rewrite length_insert.
  assert (pos < smaller_child heap pos); [|lia].
  unfold smaller_child.
  destruct (heap !! (2 * pos + 1)); [|lia].
  destruct (heap !! (2 * pos + 1 + 1)); [|lia].
  destruct (item_lt a a0); lia.
Qed.

Definition _siftup (heap : list A) (pos : nat) : result (list A) :=
  let startpos := pos in
  newitem ← getitem heap pos;
  '(heap, pos) ← siftup_loop heap pos;
  _siftdown (<[pos := newitem]> heap) startpos pos.

Definition heappush (heap : list A) (item : A) : result (list A) :=
  let heap := heap ++ [item] in
  _siftdown heap 0 (length heap - 1).

(** [heappop] returns the popped item and the remaining heap;
    [heap.pop()] raises IndexError on the empty list. *)
Definition heappop (heap : list A) : result (A * list A) :=
  match last heap with
  | None => Raise IndexError
  | Some lastelt =>
      let heap := removelast heap in
      match heap with
      | [] => Ok (lastelt, heap)
      | returnitem :: _ =>
          heap ← _siftup (<[0 := lastelt]> heap) 0;
          Ok (returnitem, heap)
      end
  end.
End heapq.

(** ** Numbers *)

(** [x < y] on floats. *)
Definition Qltb (x y : Q) : bool := negb (Qle_bool y x).

(** [int(x)]: truncation towards zero. *)
Definition int_of_float (x : Q) : Z := Z.quot (Qnum x) (Z.pos (Qden x)).

(** [l[i]] for a Python integer index: negative indices count from the
    end. *)
Definition getitem_int {A : Type} (l : list A) (i : Z) : result (nat * A) :=
  let i := if (i <? 0)%Z then (i + Z.of_nat (length l))%Z else i in
  if (i <? 0)%Z then Raise IndexError
  else
    match l !! Z.to_nat i with
    | Some x => Ok (Z.to_nat i, x)
    | None => Raise IndexError
    end.

(** ** Request *)

Record Request : Type := mkRequest {
  req_id : Z;
  arrival_time : Q;
  input_tokens : Z;
  output_tokens : Z;
  start_time : Q;
  completion_time : Q }.

(** The dataclass constructor with the default timing fields. *)
Definition Request_init (id : Z) (arrival : Q) (inp out : Z) : Request :=
  {| req_id := id; arrival_time := arrival; input_tokens := inp;
     output_tokens := out; start_time := -1; completion_time := -1 |}.

Definition latency (r : Request) : Q :=
  if Qltb (completion_time r) 0 || Qltb (arrival_time r) 0 then 0
  else completion_time r - arrival_time r.

Definition set_start_time (t : Q) (r : Request) : Request :=
  {| req_id := req_id r; arrival_time := arrival_time r;
     input_tokens := input_tokens r; output_tokens := output_tokens r;
     start_time := t; completion_time := completion_time r |}.

Definition set_completion_time (t : Q) (r : Request) : Request :=
  {| req_id := req_id r; arrival_time := arrival_time r;
     input_tokens := input_tokens r; output_tokens := output_tokens r;
     start_time := start_time r; completion_time := t |}.

(** ** Event

    [@dataclass(order=True)] with [compare=False] on every field but
    [timestamp]: events are compared by timestamp alone. *)

Record Event : Type := mkEvent {
  timestamp : Q;
  ev_type : string;
  request_id : Z;
  device_id : option Z }.

Definition event_lt (a b : Event) : bool := Qltb (timestamp a) (timestamp b).

(** ** Device *)

Record Device : Type := mkDevice {
  dev_id : Z;
  ttft_ms : Q;
  output_tokens_per_sec : Q;
  is_busy : bool;
  current_request : option nat;
  total_busy_time : Q }.

Definition Device_init (id : Z) (ttft_ms output_tokens_per_sec : Q)
    : result Device :=
  Ok {| dev_id := id; ttft_ms := ttft_ms;
        output_tokens_per_sec := output_tokens_per_sec;
        is_busy := false; current_request := None; total_busy_time := 0 |}.

(** Float division raises ZeroDivisionError on a zero divisor. *)
Definition float_div (x y : Q) : result Q :=
  if Qeq_bool y 0 then Raise ZeroDivisionError else Ok (x / y)%Q.

Definition calculate_duration (d : Device) (req : Request) : result Q :=
  ttft_sec ← float_div (ttft_ms d) 1000;
  decode_sec ← float_div (inject_Z (output_tokens req))
                         (output_tokens_per_sec d);
  Ok (ttft_sec + decode_sec)%Q.

(** ** Cluster *)

Record Cluster : Type := mkCluster {
  devices : list Device;
  _rr_index : Z }.

(** [range(n)] as the list of its integers; empty for [n <= 0]. *)
Definition range (n : Z) : list Z := Z.of_nat <$> seq 0 (Z.to_nat n).

Definition Cluster_init (num_devices : Z) (ttft_ms output_tokens_per_sec : Q)
    : result Cluster :=
  devices ← mapM (fun i => Device_init i ttft_ms output_tokens_per_sec)
                 (range num_devices);
  Ok {| devices := devices; _rr_index := 0 |}.

(** The [for d in self.devices] scan, from position [i] on. *)
Fixpoint scan_devices (ds : list Device) (i : nat) : option nat :=
  match ds with
  | [] => None
  | d :: ds => if negb (is_busy d) then Some i else scan_devices ds (S i)
  end.

Definition get_next_device (c : Cluster) : option nat :=
  scan_devices (devices c) 0.

(** ** Simulator

    [objs] is the store of Request objects; [waiting_queue],
    [completed_requests], [requests_map] and [current_request] hold
    positions in it. *)

Record Simulator : Type := mkSimulator {
  cluster : Cluster;
  events : list Event;
  current_time : Q;
  waiting_queue : list nat;
  completed_requests : list nat;
  requests_map : gmap Z nat;
  objs : list Request }.

Definition Simulator_init (cluster : Cluster) (objs : list Request)
    : Simulator :=
  {| cluster := cluster; events := []; current_time := 0;
     waiting_queue := []; completed_requests := []; requests_map := ∅;
     objs := objs |}.

Definition set_cluster (c : Cluster) (s : Simulator) : Simulator :=
  {| cluster := c; events := events s; current_time := current_time s;
     waiting_queue := waiting_queue s;
     completed_requests := completed_requests s;
     requests_map := requests_map s; objs := objs s |}.

Definition set_events (h : list Event) (s : Simulator) : Simulator :=
  {| cluster := cluster s; events := h; current_time := current_time s;
     waiting_queue := waiting_queue s;
     completed_requests := completed_requests s;
     requests_map := requests_map s; objs := objs s |}.

Definition set_current_time (t : Q) (s : Simulator) : Simulator :=
  {| cluster := cluster s; events := events s; current_time := t;
     waiting_queue := waiting_queue s;
     completed_requests := completed_requests s;
     requests_map := requests_map s; objs := objs s |}.

Definition set_waiting_queue (q : list nat) (s : Simulator) : Simulator :=
  {| cluster := cluster s; events := events s; current_time := current_time s;
     waiting_queue := q; completed_requests := completed_requests s;
     requests_map := requests_map s; objs := objs s |}.

Definition set_completed_requests (l : list nat) (s : Simulator)
    : Simulator :=
  {| cluster := cluster s; events := events s; current_time := current_time s;
     waiting_queue := waiting_queue s; completed_requests := l;
     requests_map := requests_map s; objs := objs s |}.

Definition set_requests_map (m : gmap Z nat) (s : Simulator) : Simulator :=
  {| cluster := cluster s; events := events s; current_time := current_time s;
     waiting_queue := waiting_queue s;
     completed_requests := completed_requests s;
     requests_map := m; objs := objs s |}.

Definition set_objs (o : list Request) (s : Simulator) : Simulator :=
  {| cluster := cluster s; events := events s; current_time := current_time s;
     waiting_queue := waiting_queue s;
     completed_requests := completed_requests s;
     requests_map := requests_map s; objs := o |}.

(** The Request object behind a reference.  References are made by [run]
    from the requests it is given and are never dropped, so every one
    points into the store; the default is never read. *)
Definition deref (s : Simulator) (req : nat) : Request :=
  default (Request_init 0 0 0 0) (objs s !! req).

(** In-place update of the Request object [req]. *)
Definition update_request (f : Request → Request) (req : nat)
    (s : Simulator) : Simulator :=
  set_objs (alter f req (objs s)) s.

(** In-place update of the Device object at position [device]. *)
Definition update_device (f : Device → Device) (device : nat)
    (s : Simulator) : Simulator :=
  set_cluster {| devices := alter f device (devices (cluster s));
                 _rr_index := _rr_index (cluster s) |} s.

Definition start_device (req : nat) (d : Device) : Device :=
  {| dev_id := dev_id d; ttft_ms := ttft_ms d;
     output_tokens_per_sec := output_tokens_per_sec d;
     is_busy := true; current_request := Some req;
     total_busy_time := total_busy_time d |}.

Definition add_busy_time (duration : Q) (d : Device) : Device :=
  {| dev_id := dev_id d; ttft_ms := ttft_ms d;
     output_tokens_per_sec := output_tokens_per_sec d;
     is_busy := is_busy d; current_request := current_request d;
     total_busy_time := (total_busy_time d + duration)%Q |}.

Definition free_device (d : Device) : Device :=
  {| dev_id := dev_id d; ttft_ms := ttft_ms d;
     output_tokens_per_sec := output_tokens_per_sec d;
     is_busy := false; current_request := None;
     total_busy_time := total_busy_time d |}.

Definition REQUEST_ARRIVAL : string := "REQUEST_ARRIVAL".
Definition DEVICE_FREE : string := "DEVICE_FREE".

Definition schedule_event (s : Simulator) (timestamp : Q) (type : string)
    (request_id : Z) (device_id : option Z) : result Simulator :=
  h ← heappush event_lt (events s)
        {| timestamp := timestamp; ev_type := type;
           request_id := request_id; device_id := device_id |};
  Ok (set_events h s).

(** [self.requests_map[request_id]]. *)
Definition lookup_request (s : Simulator) (request_id : Z) : result nat :=
  match requests_map s !! request_id with
  | Some req => Ok req
  | None => Raise KeyError
  end.

(** [device] is a position in [devices] that came from [get_next_device]
    or from [devices[device_id]], hence in range. *)
Definition _start_job (s : Simulator) (device : nat) (req : nat)
    : result Simulator :=
  let s := update_device (start_device req) device s in
  let s := update_request (set_start_time (current_time s)) req s in
  d ← getitem (devices (cluster s)) device;
  duration ← calculate_duration d (deref s req);
  let s := update_device (add_busy_time duration) device s in
  let completion_time := (current_time s + duration)%Q in
  schedule_event s completion_time DEVICE_FREE (req_id (deref s req))
                 (Some (dev_id d)).

Definition handle_arrival (s : Simulator) (request_id : Z)
    : result Simulator :=
  req ← lookup_request s request_id;
  match get_next_device (cluster s) with
  | Some device => _start_job s device req
  | None => Ok (set_waiting_queue (waiting_queue s ++ [req]) s)
  end.

Definition handle_completion (s : Simulator) (request_id : Z)
    (device_id : option Z) : result Simulator :=
  req ← lookup_request s request_id;
  '(device, _) ← match device_id with
                 | Some i => getitem_int (devices (cluster s)) i
                 | None => Raise TypeError
                 end;
  let s := update_request (set_completion_time (current_time s)) req s in
  let s := set_completed_requests (completed_requests s ++ [req]) s in
  let s := update_device free_device device s in
  match waiting_queue s with
  | next_req :: rest => _start_job (set_waiting_queue rest s) device next_req
  | [] => Ok s
  end.

(** One iteration of the [while self.events] loop. *)
Definition loop_body (s : Simulator) : result Simulator :=
  '(event, h) ← heappop event_lt (events s);
  let s := set_current_time (timestamp event) (set_events h s) in
  if String.eqb (ev_type event) REQUEST_ARRIVAL then
    handle_arrival s (request_id event)
  else if String.eqb (ev_type event) DEVICE_FREE then
    handle_completion s (request_id event) (device_id event)
  else Ok s.

(** At most [n] iterations of the loop.  [run] gives it [run_bound]
    iterations, which is enough for the queue to drain (proved below as
    [run_loop_drains]). *)
Fixpoint run_loop (n : nat) (s : Simulator) : result Simulator :=
  match n with
  | O => Ok s
  | S n =>
      match events s with
      | [] => Ok s
      | _ :: _ => s ← loop_body s; run_loop n s
      end
  end.

Definition event_weight (e : Event) : nat :=
  if String.eqb (ev_type e) REQUEST_ARRIVAL then 2 else 1.

Definition run_bound (s : Simulator) : nat :=
  sum_list (event_weight <$> events s) + length (waiting_queue s).

(** The [for req in requests] loop that registers and schedules. *)
Fixpoint load_requests (s : Simulator) (requests : list nat)
    : result Simulator :=
  match requests with
  | [] => Ok s
  | req :: requests =>
      let r := deref s req in
      let s := set_requests_map (<[req_id r := req]> (requests_map s)) s in
      s ← schedule_event s (arrival_time r) REQUEST_ARRIVAL (req_id r) None;
      load_requests s requests
  end.

Definition run (s : Simulator) (requests : list nat) : result Simulator :=
  s ← load_requests s requests;
  run_loop (run_bound s) s.

(** ** Statistics *)

Record Stats : Type := mkStats {
  total_requests : Z;
  avg_latency_sec : Q;
  max_latency_sec : Q;
  throughput_rpm : Q;
  total_time_sec : Q }.

(** [get_stats] returns a string or a dict. *)
Inductive stats_value : Type :=
| StatsStr (msg : string)
| StatsDict (d : Stats).

Definition float_sum (l : list Q) : Q := foldl Qplus 0%Q l.

(** [max(l)] on a non-empty list: the first of the largest elements. *)
Definition float_max (x : Q) (l : list Q) : Q :=
  foldl (fun m y => if Qltb m y then y else m) x l.

Definition get_stats (s : Simulator) : result stats_value :=
  match completed_requests s with
  | [] => Ok (StatsStr "No requests completed.")
  | r0 :: rest =>
      let latencies := (fun r => latency (deref s r)) <$> completed_requests s in
      let n := inject_Z (Z.of_nat (length latencies)) in
      avg_lat ← float_div (float_sum latencies) n;
      let max_lat := float_max (latency (deref s r0))
                       ((fun r => latency (deref s r)) <$> rest) in
      q ← float_div n (if Qltb 0 (current_time s) then current_time s else 1);
      Ok (StatsDict
            {| total_requests := Z.of_nat (length (completed_requests s));
               avg_latency_sec := avg_lat;
               max_latency_sec := max_lat;
               throughput_rpm := (q * 60)%Q;
               total_time_sec := current_time s |})
  end.

(** ** CapacityFinder *)

Record CapacityFinder : Type := mkCapacityFinder {
  num_devices : Z;
  cf_ttft_ms : Q;
  cf_output_tokens_per_sec : Q;
  cf_input_tokens : Z;
  cf_output_tokens : Z }.

(** [random.expovariate(lambd)] is [-log(1.0 - random()) / lambd].  An
    outcome of the random generator is the sequence [draws] of the values
    [-log(1.0 - random())] it will give, which are never negative; the state
    of the generator is the number [k] of values already consumed. *)
Definition expovariate (draws : nat → Q) (lambd : Q) (k : nat)
    : result (Q * nat) :=
  x ← float_div (draws k) lambd;
  Ok (x, S k).

(** The [for i in range(num_requests)] loop of [generate_workload]. *)
Fixpoint workload_loop (draws : nat → Q) (cf : CapacityFinder) (rps : Q)
    (ids : list Z) (current_time : Q) (k : nat)
    : result (list Request * nat) :=
  match ids with
  | [] => Ok ([], k)
  | i :: ids =>
      '(inter_arrival, k) ← expovariate draws rps k;
      let current_time := (current_time + inter_arrival)%Q in
      let req := Request_init i current_time (cf_input_tokens cf)
                   (cf_output_tokens cf) in
      '(requests, k) ← workload_loop draws cf rps ids current_time k;
      Ok (req :: requests, k)
  end.

Definition generate_workload (draws : nat → Q) (cf : CapacityFinder)
    (rpm duration_min : Q) (k : nat) : result (list Request * nat) :=
  let num_requests := int_of_float (rpm * duration_min) in
  if (num_requests =? 0)%Z then Ok ([], k)
  else
    rps ← float_div rpm 60;
    workload_loop draws cf rps (range num_requests) 0 k.

Definition run_simulation (draws : nat → Q) (cf : CapacityFinder)
    (rpm duration_min : Q) (k : nat) : result (stats_value * nat) :=
  cluster ← Cluster_init (num_devices cf) (cf_ttft_ms cf)
               (cf_output_tokens_per_sec cf);
  '(requests, k) ← generate_workload draws cf rpm duration_min k;
  let sim := Simulator_init cluster requests in
  sim ← run sim (seq 0 (length requests));
  stats ← get_stats sim;
  Ok (stats, k).

(** [stats[key]] for a float-valued key: a string cannot be indexed by a
    string. *)
Definition stats_getitem (stats : stats_value) (key : Stats → Q) : result Q :=
  match stats with
  | StatsDict d => Ok (key d)
  | StatsStr _ => Raise TypeError
  end.

(** The variables of the binary search and the generator state. *)
Record search_state : Type := mkSearch {
  low : Q;
  high : Q;
  best_rpm : Q;
  rng : nat }.

(** The body of the [for _ in range(10)] loop. *)
Definition search_step (draws : nat → Q) (cf : CapacityFinder)
    (max_latency_threshold_sec duration_min : Q) (st : search_state)
    : result search_state :=
  let mid_rpm := ((low st + high st) / 2)%Q in
  '(stats, k) ← run_simulation draws cf mid_rpm duration_min (rng st);
  realized_rpm ← stats_getitem stats throughput_rpm;
  avg_latency ← stats_getitem stats avg_latency_sec;
  if Qltb realized_rpm (mid_rpm * (95 # 100))
     || Qltb max_latency_threshold_sec avg_latency
  then Ok {| low := low st; high := mid_rpm; best_rpm := best_rpm st;
             rng := k |}
  else Ok {| low := mid_rpm; high := high st; best_rpm := mid_rpm;
             rng := k |}.

Fixpoint search_loop (n : nat) (draws : nat → Q) (cf : CapacityFinder)
    (max_latency_threshold_sec duration_min : Q) (st : search_state)
    : result search_state :=
  match n with
  | O => Ok st
  | S n =>
      st ← search_step draws cf max_latency_threshold_sec duration_min st;
      search_loop n draws cf max_latency_threshold_sec duration_min st
  end.

Definition theoretical_max_rpm (cf : CapacityFinder) : result Q :=
  decode_time ← float_div (inject_Z (cf_output_tokens cf))
                          (cf_output_tokens_per_sec cf);
  ttft_sec ← float_div (cf_ttft_ms cf) 1000;
  let service_time := (ttft_sec + decode_time)%Q in
  q ← float_div (inject_Z (num_devices cf)) service_time;
  Ok (q * 60)%Q.

Definition find_max_rpm (draws : nat → Q) (cf : CapacityFinder)
    (max_latency_threshold_sec duration_min : Q) (k : nat)
    : result (Q * nat) :=
  theoretical_max_rpm ← theoretical_max_rpm cf;
  let st := {| low := 1; high := theoretical_max_rpm * (15 # 10);
               best_rpm := 0; rng := k |} in
  st ← search_loop 10 draws cf max_latency_threshold_sec duration_min st;
  Ok (best_rpm st, rng st).

(** ** Hardware profiles (hardware.py) *)

Module hardware.

Record HardwareProfile : Type := mkHardwareProfile {
  name : string;
  description : string;
  ttft_ms : Q;
  output_tokens_per_sec : Q;
  max_batch_size : Z;
  memory_gb : Z }.

Definition NVIDIA_A100_80GB : HardwareProfile :=
  {| name := "NVIDIA A100 (80GB)";
     description := "Standard workhorse for LLM inference (Ampere).";
     ttft_ms := 150; output_tokens_per_sec := 45;
     max_batch_size := 128; memory_gb := 80 |}.

Definition NVIDIA_H100 : HardwareProfile :=
  {| name := "NVIDIA H100 (CNX)";
     description := "High performance Hopper architecture with FP8 support.";
     ttft_ms := 70; output_tokens_per_sec := 110;
     max_batch_size := 256; memory_gb := 80 |}.

Definition NVIDIA_GB200 : HardwareProfile :=
  {| name := "NVIDIA GB200 (Blackwell)";
     description :=
       "Next-gen unified memory architecture. Extremely high throughput.";
     ttft_ms := 40; output_tokens_per_sec := 220;
     max_batch_size := 512; memory_gb := 192 |}.

Definition Google_TPU_v5e : HardwareProfile :=
  {| name := "Google TPU v5e";
     description := "Efficient inference-optimized TPU pod slice.";
     ttft_ms := 180; output_tokens_per_sec := 35;
     max_batch_size := 64; memory_gb := 32 |}.

Definition Google_TPU_v5p : HardwareProfile :=
  {| name := "Google TPU v5p";
     description := "Performance-tier TPU for training and heavy inference.";
     ttft_ms := 80; output_tokens_per_sec := 95;
     max_batch_size := 128; memory_gb := 95 |}.

Definition Custom : HardwareProfile :=
  {| name := "Custom Hardware";
     description := "User defined specifications.";
     ttft_ms := 100; output_tokens_per_sec := 50;
     max_batch_size := 128; memory_gb := 80 |}.

(** The dict literal, as the map its items build (the keys are distinct). *)
Definition HARDWARE_DB : gmap string HardwareProfile :=
  list_to_map
    [("NVIDIA_A100_80GB", NVIDIA_A100_80GB);
     ("NVIDIA_H100", NVIDIA_H100);
     ("NVIDIA_GB200", NVIDIA_GB200);
     ("Google_TPU_v5e", Google_TPU_v5e);
     ("Google_TPU_v5p", Google_TPU_v5p);
     ("Custom", Custom)].

(** [HARDWARE_DB.get(key, HARDWARE_DB["Custom"])]: the default is looked up
    first, with [d[k]], which raises KeyError on a missing key. *)
Definition get_profile (key : string) : result HardwareProfile :=
  fallback ← match HARDWARE_DB !! "Custom" with
             | Some p => Ok p
             | None => Raise KeyError
             end;
  Ok (default fallback (HARDWARE_DB !! key)).

End hardware.

(** ** Binary64 arithmetic

    A Python [float] is an IEEE 754 binary64 number.  The operations below
    are the machine's, with rounding to nearest even, overflow to infinity
    and NaN, for the statements whose content is the arithmetic itself. *)

Module binary64.

Definition prec : Z := 53.
Definition emax : Z := 1024.

Definition float : Type := SpecFloat.spec_float.

(** The float nearest to an integer (ties to even); an infinity when the
    integer is beyond the largest float. *)
Definition of_Z (n : Z) : float :=
  SpecFloat.binary_normalize prec emax n 0 false.

Definition add : float → float → float := SpecFloat.SFadd prec emax.
Definition div : float → float → float := SpecFloat.SFdiv prec emax.

Definition is_zero (x : float) : bool :=
  match x with
  | SpecFloat.S754_zero _ => true
  | _ => false
  end.

(** The rational that a finite float stands for (0 for the others). *)
Definition to_Q (x : float) : Q :=
  match x with
  | SpecFloat.S754_finite s m e =>
      let v := if (0 <=? e)%Z then inject_Z (Z.pos m * 2 ^ e)
               else (inject_Z (Z.pos m) / inject_Z (2 ^ (- e)))%Q in
      if s then (- v)%Q else v
  | _ => 0%Q
  end.

(** An [int] operand of a float operation is converted first, and
    "int too large to convert to float" is an OverflowError. *)
Definition float_of_int (n : Z) : result float :=
  match of_Z n with
  | SpecFloat.S754_infinity _ => Raise OverflowError
  | x => Ok x
  end.

Definition int_fits_float (n : Z) : bool :=
  match float_of_int n with
  | Ok _ => true
  | Raise _ => false
  end.

(** [x / y] on floats: ZeroDivisionError on a zero divisor of either sign;
    nothing else is raised (an overflow gives an infinity). *)
Definition float_div (x y : float) : result float :=
  if is_zero y then Raise ZeroDivisionError else Ok (div x y).

(** The fields of Request and Device, the times and rates as floats. *)
Record Request : Type := mkRequest {
  req_id : Z;
  arrival_time : float;
  input_tokens : Z;
  output_tokens : Z;
  start_time : float;
  completion_time : float }.

Record Device : Type := mkDevice {
  dev_id : Z;
  ttft_ms : float;
  output_tokens_per_sec : float;
  is_busy : bool;
  current_request : option nat;
  total_busy_time : float }.

(** [Device.calculate_duration]: [self.ttft_ms / 1000.0] is a division of
    floats; [req.output_tokens / self.output_tokens_per_sec] divides an int
    by a float, so the int is converted, then the divisor is tested. *)
Definition calculate_duration (d : Device) (req : Request) : result float :=
  ttft_sec ← float_div (ttft_ms d) (of_Z 1000);
  tokens ← float_of_int (output_tokens req);
  decode_sec ← float_div tokens (output_tokens_per_sec d);
  Ok (add ttft_sec decode_sec).

End binary64.

(** ** Sequences of queue operations *)

(** Push the events of [l], in order, on the heap [h]. *)
Fixpoint push_all (h : list Event) (l : list Event) : result (list Event) :=
  match l with
  | [] => Ok h
  | e :: l => h ← heappush event_lt h e; push_all h l
  end.

(** Pop [n] events (or fewer, when the heap empties first), in pop order. *)
Fixpoint pop_n (n : nat) (h : list Event) : result (list Event) :=
  match n with
  | O => Ok []
  | S n =>
      match h with
      | [] => Ok []
      | _ :: _ =>
          '(e, h) ← heappop event_lt h;
          out ← pop_n n h;
          Ok (e :: out)
      end
  end.

(** Push a whole sequence on the empty queue, then pop until it is empty. *)
Definition pop_order (l : list Event) : result (list Event) :=
  h ← push_all [] l;
  pop_n (length h) h.

(** * Basic facts *)

(** Reduce the [result] monad operations once their argument is known. *)
Ltac result_simpl := cbn [mbind result_bind mret result_ret].
Ltac result_simpl_in H := cbn [mbind result_bind mret result_ret] in H.

Lemma Qltb_lt (x y : Q) : Qltb x y = true ↔ (x < y)%Q.
Proof.
  unfold Qltb. rewrite negb_true_iff, <- not_true_iff_false, Qle_bool_iff.
  split; [apply Qnot_le_lt | apply Qlt_not_le].
Qed.

Lemma Qltb_ge (x y : Q) : Qltb x y = false ↔ (y <= x)%Q.
Proof.
  unfold Qltb. rewrite negb_false_iff. apply Qle_bool_iff.
Qed.

Lemma bind_Ok {A B : Type} (a : A) (f : A → result B) : (Ok a ≫= f) = f a.
Proof. reflexivity. Qed.

Lemma float_div_Ok (x y : Q) : ¬ (y == 0)%Q → float_div x y = Ok (x / y)%Q.
Proof.
  intros Hy. unfold float_div.
  destruct (Qeq_bool y 0) eqn:E; [|done].
  by apply Qeq_bool_iff in E.
Qed.

Lemma float_div_zero (x y : Q) :
  (y == 0)%Q → float_div x y = Raise ZeroDivisionError.
Proof.
  intros Hy. unfold float_div. apply Qeq_bool_iff in Hy. by rewrite Hy.
Qed.

(** * Request.latency *)

(** C10: a request whose completion time is the -1 sentinel (or any negative
    value) or whose arrival time is negative has latency exactly 0; a
    request with both times non-negative has latency
    completion time - arrival time. *)
Theorem latency_spec (r : Request) :
  ((completion_time r == -1 ∨ completion_time r < 0 ∨ arrival_time r < 0)%Q →
     latency r = 0%Q) ∧
  ((0 <= completion_time r ∧ 0 <= arrival_time r)%Q →
     latency r = (completion_time r - arrival_time r)%Q).
Proof.
  unfold latency. split.
  - intros H.
    destruct (Qltb (completion_time r) 0) eqn:Ec; [done|].
    destruct (Qltb (arrival_time r) 0) eqn:Ea; [done|].
    apply Qltb_ge in Ec, Ea. exfalso.
    destruct H as [H|[H|H]]; [rewrite H in Ec | |]; lra.
  - intros [Hc Ha].
    apply Qltb_ge in Hc, Ha. by rewrite Hc, Ha.
Qed.

Lemma latency_spec_witness :
  latency (Request_init 7 (3 # 2) 10 20) = 0%Q ∧
  latency (set_completion_time 4 (Request_init 7 (3 # 2) 10 20))
    = (4 - (3 # 2))%Q.
Proof.
  split.
  - apply (latency_spec (Request_init 7 (3 # 2) 10 20)).
    left. reflexivity.
  - apply (latency_spec (set_completion_time 4 (Request_init 7 (3 # 2) 10 20))).
    split; simpl; lra.
Defined.

(** * Device.calculate_duration *)

(** In the model with exact rationals, on a device with a positive decode
    rate the duration is [t / 1000 + o / d]; this is the value the
    simulator's proofs compute with. *)
Lemma calculate_duration_spec (d : Device) (req : Request) :
  (0 < output_tokens_per_sec d)%Q →
  calculate_duration d req
  = Ok (ttft_ms d / 1000
        + inject_Z (output_tokens req) / output_tokens_per_sec d)%Q.
Proof.
  intros Hd. unfold calculate_duration.
  rewrite (float_div_Ok (ttft_ms d) 1000) by lra. result_simpl.
  rewrite float_div_Ok; [done|].
  lra.
Qed.

(** A zero decode rate is only noticed here, as a division by zero. *)
Lemma calculate_duration_zero_rate (d : Device) (req : Request) :
  (output_tokens_per_sec d == 0)%Q →
  calculate_duration d req = Raise ZeroDivisionError.
Proof.
  intros Hd. unfold calculate_duration.
  rewrite (float_div_Ok (ttft_ms d) 1000) by lra. result_simpl.
  by rewrite float_div_zero.
Qed.

(** ** The duration in binary64 *)

Lemma float_of_int_largest :
  binary64.float_of_int (2 ^ 1024 - 2 ^ 970 - 1)
  = Ok (SpecFloat.S754_finite false 9007199254740991 971) ∧
  binary64.float_of_int (2 ^ 1024 - 2 ^ 970) = Raise OverflowError.
Proof. split; vm_compute; reflexivity. Qed.

(** C2 (amended): [calculate_duration] computes in binary64.  The
    time-to-first-token and the decode rate of the device are floats, as
    annotated, and the output token count is an int.  When the
    output token count is too large for a float it raises OverflowError;
    otherwise, when the decode rate is a zero, it raises ZeroDivisionError;
    otherwise it returns the float sum of the float quotients
    [ttft_ms / 1000.0] and [output_tokens / output_tokens_per_sec], each
    rounded to nearest, which in general is not the exact value
    t / 1000 + o / d.  The outcome depends on the time-to-first-token, the
    decode rate and the output token count alone, and the function returns a
    value only: it changes neither the device nor the request. *)
Theorem calculate_duration_binary64 (d : binary64.Device)
    (req : binary64.Request) :
  (binary64.int_fits_float (binary64.output_tokens req) = false →
   binary64.calculate_duration d req = Raise OverflowError) ∧
  (binary64.int_fits_float (binary64.output_tokens req) = true →
   binary64.is_zero (binary64.output_tokens_per_sec d) = true →
   binary64.calculate_duration d req = Raise ZeroDivisionError) ∧
  (binary64.int_fits_float (binary64.output_tokens req) = true →
   binary64.is_zero (binary64.output_tokens_per_sec d) = false →
   binary64.calculate_duration d req
   = Ok (binary64.add
           (binary64.div (binary64.ttft_ms d) (binary64.of_Z 1000))
           (binary64.div (binary64.of_Z (binary64.output_tokens req))
              (binary64.output_tokens_per_sec d)))) ∧
  (∀ d' req',
     binary64.ttft_ms d' = binary64.ttft_ms d →
     binary64.output_tokens_per_sec d' = binary64.output_tokens_per_sec d →
     binary64.output_tokens req' = binary64.output_tokens req →
     binary64.calculate_duration d' req' = binary64.calculate_duration d req).
Proof.
  unfold binary64.calculate_duration, binary64.int_fits_float.
  assert (binary64.float_div (binary64.ttft_ms d) (binary64.of_Z 1000)
          = Ok (binary64.div (binary64.ttft_ms d) (binary64.of_Z 1000)))
    as -> by reflexivity.
  rewrite bind_Ok.
  split; [|split; [|split]].
  - unfold binary64.float_of_int.
    destruct (binary64.of_Z (binary64.output_tokens req)); try done.
  - unfold binary64.float_of_int.
    destruct (binary64.of_Z (binary64.output_tokens req)) eqn:E; try done;
      intros _ Hz; rewrite bind_Ok; unfold binary64.float_div;
      by rewrite Hz.
  - unfold binary64.float_of_int.
    destruct (binary64.of_Z (binary64.output_tokens req)) eqn:E; try done;
      intros _ Hz; rewrite bind_Ok; unfold binary64.float_div;
      by rewrite Hz.
  - intros d' req' -> -> ->. reflexivity.
Qed.

Lemma calculate_duration_binary64_witness :
  binary64.calculate_duration
    (binary64.mkDevice 0 (binary64.of_Z 100) (binary64.of_Z 50) false None
       (binary64.of_Z 0))
    (binary64.mkRequest 0 (binary64.of_Z 0) 50 100 (binary64.of_Z (-1))
       (binary64.of_Z (-1)))
  = Ok (binary64.add
          (binary64.div (binary64.of_Z 100) (binary64.of_Z 1000))
          (binary64.div (binary64.of_Z 100) (binary64.of_Z 50))).
Proof.
  destruct (calculate_duration_binary64
              (binary64.mkDevice 0 (binary64.of_Z 100) (binary64.of_Z 50)
                 false None (binary64.of_Z 0))
              (binary64.mkRequest 0 (binary64.of_Z 0) 50 100
                 (binary64.of_Z (-1)) (binary64.of_Z (-1))))
    as (_ & _ & H & _).
  apply H; vm_compute; reflexivity.
Defined.

(** C2 does not hold of the code: with t = 100 ms, d = 50 tokens/s and
    o = 100 tokens the exact duration is 100 / 1000 + 100 / 50 = 21 / 10,
    which is no binary64 number; the function returns the float
    4728779608739021 * 2^-51.  With o = 2^1024 it returns nothing: it raises
    OverflowError. *)
Lemma calculate_duration_not_exact :
  (∃ v, binary64.calculate_duration
          (binary64.mkDevice 0 (binary64.of_Z 100) (binary64.of_Z 50) false
             None (binary64.of_Z 0))
          (binary64.mkRequest 0 (binary64.of_Z 0) 50 100
             (binary64.of_Z (-1)) (binary64.of_Z (-1)))
        = Ok v ∧
        v = SpecFloat.S754_finite false 4728779608739021 (-51) ∧
        ¬ (binary64.to_Q v == 100 / 1000 + 100 / 50)%Q) ∧
  binary64.calculate_duration
    (binary64.mkDevice 0 (binary64.of_Z 100) (binary64.of_Z 50) false None
       (binary64.of_Z 0))
    (binary64.mkRequest 0 (binary64.of_Z 0) 50 (2 ^ 1024)
       (binary64.of_Z (-1)) (binary64.of_Z (-1)))
  = Raise OverflowError.
Proof.
  split.
  - eexists. split; [vm_compute; reflexivity|]. split; [reflexivity|].
    vm_compute. discriminate.
  - vm_compute. reflexivity.
Qed.

(** * Cluster.get_next_device *)

Lemma scan_devices_Some (ds : list Device) (k i : nat) :
  scan_devices ds k = Some i ↔
  ∃ j, i = k + j ∧
       (∃ d, ds !! j = Some d ∧ is_busy d = false) ∧
       (∀ j' d', j' < j → ds !! j' = Some d' → is_busy d' = true).
Proof.
  revert k. induction ds as [|d ds IH]; intros k; simpl.
  - split; [done|]. intros (j & _ & (d & Hd & _) & _). done.
  - destruct (is_busy d) eqn:Eb; simpl.
    + rewrite IH. split.
      * intros (j & -> & (d' & Hd' & Hb') & Hlt).
        exists (S j). split; [lia|]. split; [by exists d'|].
        intros [|j'] d'' Hj' Hl; simpl in Hl; [by simplify_eq|].
        apply (Hlt j'); [lia|done].
      * intros (j & -> & (d' & Hd' & Hb') & Hlt).
        destruct j as [|j]; simpl in Hd'; [simplify_eq; congruence|].
        exists j. split; [lia|]. split; [by exists d'|].
        intros j' d'' Hj' Hl. apply (Hlt (S j')); [lia|done].
    + split.
      * intros [= <-]. exists 0. split; [lia|]. split; [by exists d|].
        intros j' d' Hj'. lia.
      * intros (j & -> & (d' & Hd' & Hb') & Hlt).
        destruct j as [|j]; [f_equal; lia|].
        specialize (Hlt 0 d). simpl in Hlt.
        rewrite Hlt in Eb; [done|lia|done].
Qed.

Lemma scan_devices_None (ds : list Device) (k : nat) :
  scan_devices ds k = None ↔ ∀ d, d ∈ ds → is_busy d = true.
Proof.
  revert k. induction ds as [|d ds IH]; intros k; simpl.
  - split; [|done]. intros _ d Hd. by apply elem_of_nil in Hd.
  - destruct (is_busy d) eqn:Eb; simpl.
    + rewrite IH. split.
      * intros H d' [->|Hd']%elem_of_cons; auto.
      * intros H d' Hd'. apply H. by right.
    + split; [done|]. intros H.
      rewrite (H d) in Eb; [done|by left].
Qed.

(** C1: the device selection returns the first device, in index order,
    whose busy flag is false, and returns none exactly when every device is
    busy.  So a returned device is never busy, and when some device is idle
    the idle device of lowest index is returned. *)
Theorem get_next_device_first_idle (c : Cluster) :
  (∀ i, get_next_device c = Some i ↔
        (∃ d, devices c !! i = Some d ∧ is_busy d = false) ∧
        (∀ j d', j < i → devices c !! j = Some d' → is_busy d' = true)) ∧
  (get_next_device c = None ↔ ∀ d, d ∈ devices c → is_busy d = true) ∧
  ((∃ d, d ∈ devices c ∧ is_busy d = false) →
   ∃ i, get_next_device c = Some i).
Proof.
  unfold get_next_device. split; [|split].
  - intros i. rewrite scan_devices_Some. split.
    + intros (j & -> & Hd & Hlt). done.
    + intros [Hd Hlt]. by exists i.
  - apply scan_devices_None.
  - intros (d & Hin & Hidle).
    destruct (scan_devices (devices c) 0) as [i|] eqn:E; [by exists i|].
    rewrite scan_devices_None in E. rewrite (E d Hin) in Hidle. done.
Qed.

Lemma get_next_device_first_idle_witness :
  get_next_device
    (mkCluster [mkDevice 0 100 50 true (Some 4) 0;
                mkDevice 1 100 50 false None 0;
                mkDevice 2 100 50 false None 0] 0) = Some 1.
Proof.
  apply (get_next_device_first_idle
           (mkCluster [mkDevice 0 100 50 true (Some 4) 0;
                       mkDevice 1 100 50 false None 0;
                       mkDevice 2 100 50 false None 0] 0)).
  split.
  - eexists. split; reflexivity.
  - intros [|j] d' Hj Hd'; [|lia]. simpl in Hd'. by simplify_eq.
Defined.

(** * Construction of devices and clusters *)

Lemma mapM_Ok {A B : Type} (f : A → B) (l : list A) :
  mapM (fun x => Ok (f x)) l = Ok (f <$> l).
Proof.
  induction l as [|x l IH]; [done|].
  cbn [mapM]. result_simpl. rewrite IH. done.
Qed.

(** The Device object that [Device.__init__] builds. *)
Definition fresh_device (ttft_ms output_tokens_per_sec : Q) (id : Z) : Device :=
  mkDevice id ttft_ms output_tokens_per_sec false None 0.

Lemma Cluster_init_Ok (n : Z) (t r : Q) :
  Cluster_init n t r = Ok (mkCluster (fresh_device t r <$> range n) 0).
Proof.
  unfold Cluster_init, Device_init.
  rewrite (mapM_Ok (fresh_device t r)). done.
Qed.

(** C9 as the code has it: neither constructor checks its arguments.  Every
    device count, time-to-first-token and decode rate is accepted; the
    cluster gets [max 0 n] idle devices that carry the given values. *)
Theorem construction_never_fails (id n : Z) (t r : Q) :
  Device_init id t r = Ok (fresh_device t r id) ∧
  ∃ c, Cluster_init n t r = Ok c ∧
       length (devices c) = Z.to_nat n ∧
       ∀ d, d ∈ devices c →
            is_busy d = false ∧ ttft_ms d = t ∧ output_tokens_per_sec d = r.
Proof.
  split; [done|].
  eexists. split; [apply Cluster_init_Ok|]. simpl. split.
  - unfold range. by rewrite !length_fmap, length_seq.
  - intros d (i & -> & _)%list_elem_of_fmap. done.
Qed.

(** C9 fails: a zero decode rate, a negative time-to-first-token and a
    negative device count are all accepted at construction. *)
Lemma construction_accepts_non_positive :
  Device_init 0 100 0 = Ok (mkDevice 0 100 0 false None 0) ∧
  Cluster_init 2 (-100) 0
  = Ok (mkCluster [mkDevice 0 (-100) 0 false None 0;
                   mkDevice 1 (-100) 0 false None 0] 0) ∧
  Cluster_init (-3) 100 50 = Ok (mkCluster [] 0).
Proof. repeat split. Qed.

(** * heapq: the heap invariant

    The heap is the usual array-embedded binary tree: the parent of
    position [i > 0] is [(i - 1) >> 1]. *)

Definition parent (i : nat) : nat := Nat.div2 (i - 1).

Lemma parent_spec (c p : nat) :
  0 < c → parent c = p ↔ c = 2 * p + 1 ∨ c = 2 * p + 2.
Proof.
  intros Hc. unfold parent. rewrite Nat.div2_div.
  pose proof (Nat.div_mod_eq (c - 1) 2).
  pose proof (Nat.mod_upper_bound (c - 1) 2). lia.
Qed.

Lemma parent_lt (c : nat) : 0 < c → parent c < c.
Proof.
  intros Hc. destruct (parent_spec c (parent c) Hc) as [H _].
  specialize (H eq_refl). lia.
Qed.

Lemma list_insert_Permutation {A : Type} (l : list A) (i : nat) (x : A) :
  i < length l → <[i := x]> l ≡ₚ x :: delete i l.
Proof.
  revert i. induction l as [|y l IH]; intros [|i] Hi; simpl in *; try lia.
  - done.
  - rewrite IH by lia. apply Permutation_swap.
Qed.

(** Moving the item at [j] to position [i] and putting [x] at [j] gives the
    same items as putting [x] at [i]: the "hole" of a sift moves from [i] to
    [j]. *)
Lemma move_hole_Permutation {A : Type} (l : list A) (i j : nat) (x p : A) :
  i < length l → i ≠ j → l !! j = Some p →
  <[j := x]> (<[i := p]> l) ≡ₚ <[i := x]> l.
Proof.
  intros Hi Hij Hj.
  assert (j < length l) by (by eapply lookup_lt_Some).
  rewrite (list_insert_Permutation (<[i := p]> l) j x)
    by (rewrite length_insert; lia).
  rewrite (list_insert_Permutation l i x) by done.
  apply Permutation_skip.
  apply (Permutation_cons_inv (a := p)).
  rewrite <- (list_insert_Permutation l i p) by done.
  symmetry. apply delete_Permutation.
  by rewrite list_lookup_insert_ne.
Qed.

Section heapq_facts.
Context {A : Type} (item_lt : A → A → bool).

(** [a <= b] in the sense of the heap: not [b < a]. *)
Definition item_le (a b : A) : Prop := item_lt b a = false.

Definition heap_ordered (h : list A) : Prop :=
  ∀ i x p, 0 < i → h !! i = Some x → h !! parent i = Some p → item_le p x.

(** Invariant of the [_siftdown] loop.  The item [newitem] is held aside
    and will be stored at [pos]: every edge of the tree is in order except
    the one from [pos] to its parent, [newitem] fits above the children of
    [pos], and so does the parent of [pos]. *)
Definition up_inv (newitem : A) (h : list A) (pos : nat) : Prop :=
  (∀ i x p, 0 < i → i ≠ pos →
            h !! i = Some x → h !! parent i = Some p → item_le p x) ∧
  (∀ c x, 0 < c → parent c = pos → h !! c = Some x → item_le newitem x) ∧
  (∀ c x p, 0 < c → parent c = pos → 0 < pos →
            h !! c = Some x → h !! parent pos = Some p → item_le p x).

(** Invariant of the [_siftup] loop.  Every edge is in order except those
    from [pos] to its children, which the parent of [pos] fits above. *)
Definition down_inv (h : list A) (pos : nat) : Prop :=
  (∀ i x p, 0 < i → parent i ≠ pos →
            h !! i = Some x → h !! parent i = Some p → item_le p x) ∧
  (∀ c x p, 0 < c → parent c = pos → 0 < pos →
            h !! c = Some x → h !! parent pos = Some p → item_le p x).

Hypothesis lt_asym : ∀ a b, item_lt a b = true → item_lt b a = false.
Hypothesis le_trans : ∀ a b c, item_le a b → item_le b c → item_le a c.

Lemma item_le_refl (a : A) : item_le a a.
Proof.
  unfold item_le. destruct (item_lt a a) eqn:E; [|done].
  by rewrite (lt_asym _ _ E) in E.
Qed.

Lemma siftdown_loop_eq (newitem : A) (startpos : nat) (heap : list A)
    (pos : nat) :
  siftdown_loop item_lt newitem startpos heap pos =
  if decide (startpos < pos) then
    match heap !! parent pos with
    | None => Raise IndexError
    | Some p =>
        if item_lt newitem p
        then siftdown_loop item_lt newitem startpos (<[pos := p]> heap)
               (parent pos)
        else Ok (heap, pos)
    end
  else Ok (heap, pos).
Proof.
  unfold parent. simp siftdown_loop.
  destruct (decide (startpos < pos)); simpl; [|done].
  destruct (heap !! Nat.div2 (pos - 1)); simpl; [|done].
  destruct (item_lt newitem a); done.
Qed.

Lemma siftup_loop_eq (heap : list A) (pos : nat) :
  siftup_loop item_lt heap pos =
  if decide (2 * pos + 1 < length heap) then
    match heap !! smaller_child item_lt heap pos with
    | None => Raise IndexError
    | Some x =>
        siftup_loop item_lt (<[pos := x]> heap)
          (smaller_child item_lt heap pos)
    end
  else Ok (heap, pos).
Proof.
  simp siftup_loop.
  destruct (decide (2 * pos + 1 < length heap)); simpl; [|done].
  destruct (heap !! smaller_child item_lt heap pos); done.
Qed.

(** Storing [newitem] where the loop stopped restores the heap order. *)
Lemma up_inv_place (newitem : A) (h : list A) (pos : nat) :
  up_inv newitem h pos →
  (0 < pos → ∀ p, h !! parent pos = Some p → item_le p newitem) →
  heap_ordered (<[pos := newitem]> h).
Proof.
  intros (U1 & U2 & U3) Hp i x p Hi Hx Hpar.
  destruct (decide (i = pos)) as [->|Hne].
  - apply lookup_lt_Some in Hx as Hlt. rewrite length_insert in Hlt.
    rewrite list_lookup_insert_eq in Hx by done.
    rewrite list_lookup_insert_ne in Hpar
      by (pose proof (parent_lt pos Hi); lia).
    simplify_eq. by apply Hp.
  - rewrite list_lookup_insert_ne in Hx by done.
    destruct (decide (parent i = pos)) as [Hpi|Hpi].
    + rewrite Hpi in Hpar.
      apply lookup_lt_Some in Hpar as Hlt. rewrite length_insert in Hlt.
      rewrite list_lookup_insert_eq in Hpar by done. simplify_eq.
      by apply (U2 i).
    + rewrite list_lookup_insert_ne in Hpar by done.
      by apply (U1 i).
Qed.

(** One iteration of the [_siftdown] loop keeps its invariant. *)
Lemma up_inv_step (newitem : A) (h : list A) (pos : nat) (p : A) :
  up_inv newitem h pos → 0 < pos → pos < length h →
  h !! parent pos = Some p → item_lt newitem p = true →
  up_inv newitem (<[pos := p]> h) (parent pos).
Proof.
  intros (U1 & U2 & U3) Hpos Hlen Hp Hlt.
  pose proof (parent_lt pos Hpos) as Hpp.
  assert (item_le newitem p) as Hnp by (by apply lt_asym).
  split; [|split].
  - intros i x q Hi Hne Hx Hq.
    destruct (decide (i = pos)) as [->|Hip].
    + rewrite list_lookup_insert_eq in Hx by done.
      rewrite list_lookup_insert_ne in Hq by lia.
      simplify_eq. apply item_le_refl.
    + rewrite list_lookup_insert_ne in Hx by done.
      destruct (decide (parent i = pos)) as [Hpi|Hpi].
      * rewrite Hpi, list_lookup_insert_eq in Hq by done. simplify_eq.
        by apply (U3 i).
      * rewrite list_lookup_insert_ne in Hq by done. by apply (U1 i).
  - intros c x Hc Hpc Hx.
    destruct (decide (c = pos)) as [->|Hcp].
    + rewrite list_lookup_insert_eq in Hx by done. by simplify_eq.
    + rewrite list_lookup_insert_ne in Hx by done.
      apply (le_trans _ p); [done|].
      apply (U1 c); [done|done|done|by rewrite Hpc].
  - intros c x q Hc Hpc Hpp0 Hx Hq.
    pose proof (parent_lt (parent pos) Hpp0).
    rewrite list_lookup_insert_ne in Hq by lia.
    assert (item_le q p) as Hqp by (apply (U1 (parent pos)); [done|lia|done..]).
    destruct (decide (c = pos)) as [->|Hcp].
    + rewrite list_lookup_insert_eq in Hx by done. by simplify_eq.
    + rewrite list_lookup_insert_ne in Hx by done.
      apply (le_trans _ p); [done|].
      apply (U1 c); [done|done|done|by rewrite Hpc].
Qed.

Lemma siftdown_loop_spec (newitem : A) (pos : nat) (h : list A) :
  pos < length h → up_inv newitem h pos →
  ∃ h' pos',
    siftdown_loop item_lt newitem 0 h pos = Ok (h', pos') ∧
    pos' < length h' ∧
    heap_ordered (<[pos' := newitem]> h') ∧
    <[pos' := newitem]> h' ≡ₚ <[pos := newitem]> h.
Proof.
  revert h. induction pos as [pos IH] using lt_wf_ind. intros h Hlen Hinv.
  rewrite siftdown_loop_eq.
  destruct (decide (0 < pos)) as [Hpos|Hpos].
  - pose proof (parent_lt pos Hpos) as Hpp.
    destruct (lookup_lt_is_Some_2 h (parent pos)) as [p Hp]; [lia|].
    rewrite Hp. destruct (item_lt newitem p) eqn:Hlt.
    + destruct (IH (parent pos) Hpp (<[pos := p]> h))
        as (h' & pos' & Heq & Hlen' & Hord & Hperm).
      * rewrite length_insert. lia.
      * by apply up_inv_step.
      * exists h', pos'. split; [done|]. split; [done|]. split; [done|].
        rewrite Hperm. apply move_hole_Permutation; [done|lia|done].
    + exists h, pos. split; [done|]. split; [done|]. split; [|done].
      apply up_inv_place; [done|].
      intros _ p' Hp'. by simplify_eq.
  - exists h, pos. split; [done|]. split; [done|]. split; [|done].
    apply up_inv_place; [done|]. lia.
Qed.

Lemma _siftdown_spec (h : list A) (pos : nat) (newitem : A) :
  h !! pos = Some newitem → up_inv newitem h pos →
  ∃ h', _siftdown item_lt h 0 pos = Ok h' ∧ heap_ordered h' ∧ h' ≡ₚ h.
Proof.
  intros Hpos Hinv. unfold _siftdown, getitem. rewrite Hpos. result_simpl.
  destruct (siftdown_loop_spec newitem pos h)
    as (h' & pos' & -> & Hlen & Hord & Hperm);
    [by eapply lookup_lt_Some|done|].
  result_simpl. eexists. split; [done|]. split; [done|].
  rewrite Hperm. by rewrite list_insert_id.
Qed.

Lemma heappush_spec (h : list A) (x : A) :
  heap_ordered h →
  ∃ h', heappush item_lt h x = Ok h' ∧ heap_ordered h' ∧ h' ≡ₚ x :: h.
Proof.
  intros Hord. unfold heappush.
  replace (length (h ++ [x]) - 1) with (length h)
    by (rewrite length_app; simpl; lia).
  destruct (_siftdown_spec (h ++ [x]) (length h) x)
    as (h' & Heq & Hord' & Hperm).
  - by rewrite list_lookup_middle.
  - split; [|split].
    + intros i y p Hi Hne Hy Hp.
      apply lookup_lt_Some in Hy as Hlt.
      rewrite length_app in Hlt. simpl in Hlt.
      pose proof (parent_lt i Hi).
      rewrite lookup_app_l in Hy, Hp by lia. by apply (Hord i).
    + intros c y Hc Hpc Hy. apply lookup_lt_Some in Hy.
      rewrite length_app in Hy. simpl in Hy.
      pose proof (parent_lt c Hc). lia.
    + intros c y p Hc Hpc _ Hy _. apply lookup_lt_Some in Hy.
      rewrite length_app in Hy. simpl in Hy.
      pose proof (parent_lt c Hc). lia.
  - exists h'. split; [done|]. split; [done|].
    rewrite Hperm. by rewrite Permutation_app_comm.
Qed.

Lemma smaller_child_spec (h : list A) (pos : nat) :
  2 * pos + 1 < length h →
  ∃ x, h !! smaller_child item_lt h pos = Some x ∧
       0 < smaller_child item_lt h pos ∧
       parent (smaller_child item_lt h pos) = pos ∧
       ∀ c y, 0 < c → parent c = pos → h !! c = Some y → item_le x y.
Proof.
  intros Hlen. unfold smaller_child.
  destruct (lookup_lt_is_Some_2 h (2 * pos + 1)) as [l Hl]; [done|].
  rewrite Hl.
  destruct (h !! (2 * pos + 1 + 1)) as [r|] eqn:Hr.
  - destruct (item_lt l r) eqn:Hlt.
    + exists l. split; [done|]. split; [lia|].
      split; [apply parent_spec; lia|].
      intros c y Hc Hpc Hy. apply (parent_spec c pos Hc) in Hpc as [->| ->].
      * simplify_eq. apply item_le_refl.
      * replace (2 * pos + 2) with (2 * pos + 1 + 1) in Hy by lia.
        simplify_eq. by apply lt_asym.
    + exists r. split; [done|]. split; [lia|].
      split; [apply parent_spec; lia|].
      intros c y Hc Hpc Hy. apply (parent_spec c pos Hc) in Hpc as [->| ->].
      * by simplify_eq.
      * replace (2 * pos + 2) with (2 * pos + 1 + 1) in Hy by lia.
        simplify_eq. apply item_le_refl.
  - exists l. split; [done|]. split; [lia|].
    split; [apply parent_spec; lia|].
    intros c y Hc Hpc Hy. apply (parent_spec c pos Hc) in Hpc as [->| ->].
    + simplify_eq. apply item_le_refl.
    + replace (2 * pos + 2) with (2 * pos + 1 + 1) in Hy by lia. congruence.
Qed.

(** One iteration of the [_siftup] loop keeps its invariant. *)
Lemma down_inv_step (h : list A) (pos : nat) (x : A) :
  down_inv h pos → pos < length h →
  0 < smaller_child item_lt h pos →
  parent (smaller_child item_lt h pos) = pos →
  h !! smaller_child item_lt h pos = Some x →
  (∀ c y, 0 < c → parent c = pos → h !! c = Some y → item_le x y) →
  down_inv (<[pos := x]> h) (smaller_child item_lt h pos).
Proof.
  set (c := smaller_child item_lt h pos).
  intros (D1 & D2) Hlen Hc Hpc Hx Hmin.
  pose proof (parent_lt c Hc) as Hlt. rewrite Hpc in Hlt.
  split.
  - intros i y p Hi Hne Hy Hp.
    destruct (decide (i = pos)) as [->|Hip].
    + rewrite list_lookup_insert_eq in Hy by done.
      pose proof (parent_lt pos Hi).
      rewrite list_lookup_insert_ne in Hp by lia. simplify_eq.
      by apply (D2 c).
    + rewrite list_lookup_insert_ne in Hy by done.
      destruct (decide (parent i = pos)) as [Hpi|Hpi].
      * rewrite Hpi, list_lookup_insert_eq in Hp by done. simplify_eq.
        by apply (Hmin i).
      * rewrite list_lookup_insert_ne in Hp by done. by apply (D1 i).
  - intros g y p Hg Hpg _ Hy Hp.
    pose proof (parent_lt g Hg).
    rewrite list_lookup_insert_ne in Hy by lia.
    rewrite Hpc, list_lookup_insert_eq in Hp by done. simplify_eq.
    apply (D1 g); [done|lia|done|by rewrite Hpg].
Qed.

Lemma siftup_loop_spec (newitem : A) (n : nat) (h : list A) (pos : nat) :
  length h - pos ≤ n → pos < length h → down_inv h pos →
  ∃ h' pos',
    siftup_loop item_lt h pos = Ok (h', pos') ∧
    pos' < length h' ∧ length h' ≤ 2 * pos' + 1 ∧
    down_inv h' pos' ∧
    <[pos' := newitem]> h' ≡ₚ <[pos := newitem]> h.
Proof.
  revert h pos. induction n as [|n IH]; intros h pos Hn Hlen Hinv; [lia|].
  rewrite siftup_loop_eq.
  destruct (decide (2 * pos + 1 < length h)) as [Hch|Hch].
  - destruct (smaller_child_spec h pos Hch) as (x & Hx & Hc & Hpc & Hmin).
    rewrite Hx.
    pose proof (parent_lt _ Hc) as Hlt. rewrite Hpc in Hlt.
    apply lookup_lt_Some in Hx as Hclen.
    destruct (IH (<[pos := x]> h) (smaller_child item_lt h pos))
      as (h' & pos' & Heq & Hlen' & Hleaf & Hinv' & Hperm).
    + rewrite length_insert. lia.
    + by rewrite length_insert.
    + by apply down_inv_step.
    + exists h', pos'. split; [done|]. split; [done|]. split; [done|].
      split; [done|]. rewrite Hperm.
      apply move_hole_Permutation; [done|lia|done].
  - exists h, pos. split; [done|]. split; [done|]. split; [lia|]. done.
Qed.

Lemma last_removelast (h : list A) :
  h ≠ [] → ∃ x, last h = Some x ∧ h = removelast h ++ [x].
Proof.
  intros Hne. destruct h as [|y h] using rev_ind; [done|].
  exists y. by rewrite last_snoc, removelast_last.
Qed.

Lemma heappop_spec (h : list A) :
  heap_ordered h → h ≠ [] →
  ∃ e h', heappop item_lt h = Ok (e, h') ∧ h !! 0 = Some e ∧
          heap_ordered h' ∧ h ≡ₚ e :: h'.
Proof.
  intros Hord Hne. unfold heappop.
  destruct (last_removelast h Hne) as (lastelt & -> & Hh).
  destruct (removelast h) as [|returnitem t] eqn:Ht.
  - rewrite Hh. exists lastelt, []. split; [done|]. split; [done|].
    split; [|done]. intros i x p _ Hx. done.
  - cbn [insert list_insert].
    unfold _siftup, getitem. cbn [lookup list_lookup]. result_simpl.
    destruct (siftup_loop_spec lastelt (length (lastelt :: t))
                (lastelt :: t) 0)
      as (h1 & pos1 & -> & Hlen1 & Hleaf & (D1 & D2) & Hperm1).
    + lia.
    + simpl. lia.
    + split; [|intros; lia].
      intros i x p Hi Hpi Hx Hp.
      assert (0 < parent i) as Hpi0 by lia.
      destruct i as [|i]; [lia|].
      destruct (parent (S i)) as [|j] eqn:Hj; [lia|].
      simpl in Hx, Hp.
      apply (Hord (S i)); [done| |].
      * rewrite Hh. simpl. by apply lookup_app_l_Some.
      * rewrite Hj, Hh. simpl. by apply lookup_app_l_Some.
    + result_simpl.
      destruct (_siftdown_spec (<[pos1 := lastelt]> h1) pos1 lastelt)
        as (h2 & -> & Hord2 & Hperm2).
      * by rewrite list_lookup_insert_eq.
      * assert (∀ c y, 0 < c → parent c = pos1 → h1 !! c = Some y → False)
          as Hnc.
        { intros c y Hc Hpc Hy. apply lookup_lt_Some in Hy.
          apply (parent_spec c pos1 Hc) in Hpc. lia. }
        split; [|split].
        -- intros i x p Hi Hne1 Hx Hp.
           rewrite list_lookup_insert_ne in Hx by done.
           destruct (decide (parent i = pos1)) as [Hpi|Hpi];
             [by destruct (Hnc i x)|].
           rewrite list_lookup_insert_ne in Hp by done.
           by apply (D1 i).
        -- intros c y Hc Hpc Hy.
           rewrite list_lookup_insert_ne in Hy
             by (pose proof (parent_lt c Hc); lia).
           by destruct (Hnc c y).
        -- intros c y p Hc Hpc _ Hy _.
           rewrite list_lookup_insert_ne in Hy
             by (pose proof (parent_lt c Hc); lia).
           by destruct (Hnc c y).
      * result_simpl. exists returnitem, h2.
        split; [done|]. split; [by rewrite Hh|]. split; [done|].
        rewrite Hperm2, Hperm1, Hh. simpl.
        apply Permutation_skip. by rewrite Permutation_app_comm.
Qed.

(** The root of an ordered heap is a least item. *)
Lemma heap_ordered_root (h : list A) (m : A) :
  heap_ordered h → h !! 0 = Some m → ∀ x, x ∈ h → item_le m x.
Proof.
  intros Hord Hm x [i Hi]%list_elem_of_lookup. revert x Hi.
  induction i as [i IH] using lt_wf_ind. intros x Hi.
  destruct (decide (0 < i)) as [Hpos|Hpos].
  - pose proof (parent_lt i Hpos) as Hlt.
    apply lookup_lt_Some in Hi as Hlen.
    destruct (lookup_lt_is_Some_2 h (parent i)) as [p Hp]; [lia|].
    apply (le_trans _ p); [by apply (IH (parent i))|].
    by apply (Hord i).
  - replace i with 0 in Hi by lia. simplify_eq. apply item_le_refl.
Qed.

End heapq_facts.

(** * The event queue *)

Lemma event_lt_asym (a b : Event) : event_lt a b = true → event_lt b a = false.
Proof.
  unfold event_lt. rewrite Qltb_lt, Qltb_ge. apply Qlt_le_weak.
Qed.

Lemma event_le_iff (a b : Event) :
  item_le event_lt a b ↔ (timestamp a <= timestamp b)%Q.
Proof. unfold item_le, event_lt. apply Qltb_ge. Qed.

Lemma event_le_trans (a b c : Event) :
  item_le event_lt a b → item_le event_lt b c → item_le event_lt a c.
Proof. rewrite !event_le_iff. apply Qle_trans. Qed.

(** Events in non-decreasing timestamp order. *)
Definition by_timestamp (a b : Event) : Prop :=
  (timestamp a <= timestamp b)%Q.

Lemma heappush_event (h : list Event) (e : Event) :
  heap_ordered event_lt h →
  ∃ h', heappush event_lt h e = Ok h' ∧ heap_ordered event_lt h' ∧
        h' ≡ₚ e :: h.
Proof. apply heappush_spec; [apply event_lt_asym | apply event_le_trans]. Qed.

Lemma heappop_event (h : list Event) :
  heap_ordered event_lt h → h ≠ [] →
  ∃ e h', heappop event_lt h = Ok (e, h') ∧ heap_ordered event_lt h' ∧
          h ≡ₚ e :: h' ∧ ∀ x, x ∈ h → by_timestamp e x.
Proof.
  intros Hord Hne.
  destruct (heappop_spec event_lt event_lt_asym event_le_trans h Hord Hne)
    as (e & h' & Heq & Hroot & Hord' & Hperm).
  exists e, h'. split; [done|]. split; [done|]. split; [done|].
  intros x Hx. apply event_le_iff.
  by apply (heap_ordered_root event_lt event_lt_asym event_le_trans h).
Qed.

Lemma heap_ordered_nil {A : Type} (item_lt : A → A → bool) :
  heap_ordered item_lt [].
Proof. intros i x p _ Hx. done. Qed.

Lemma push_all_spec (l h : list Event) :
  heap_ordered event_lt h →
  ∃ h', push_all h l = Ok h' ∧ heap_ordered event_lt h' ∧ h' ≡ₚ l ++ h.
Proof.
  revert h. induction l as [|e l IH]; intros h Hord; simpl.
  - by exists h.
  - destruct (heappush_event h e Hord) as (h1 & -> & Hord1 & Hperm1).
    result_simpl.
    destruct (IH h1 Hord1) as (h' & -> & Hord' & Hperm').
    exists h'. split; [done|]. split; [done|].
    rewrite Hperm', Hperm1. by rewrite Permutation_middle.
Qed.

Lemma pop_n_spec (n : nat) (h : list Event) :
  heap_ordered event_lt h → length h ≤ n →
  ∃ out, pop_n n h = Ok out ∧ out ≡ₚ h ∧ StronglySorted by_timestamp out.
Proof.
  revert h. induction n as [|n IH]; intros h Hord Hlen.
  - destruct h; [|simpl in Hlen; lia].
    exists []. split; [done|]. split; [done|]. constructor.
  - destruct h as [|x h]; simpl.
    { exists []. split; [done|]. split; [done|]. constructor. }
    destruct (heappop_event (x :: h) Hord) as (e & h' & -> & Hord' & Hperm & Hmin);
      [done|].
    result_simpl.
    assert (length h' ≤ n) as Hlen'.
    { apply Permutation_length in Hperm. simpl in *. lia. }
    destruct (IH h' Hord' Hlen') as (out & -> & Hperm' & Hsorted).
    result_simpl. exists (e :: out).
    split; [done|]. split; [by rewrite Hperm, Hperm'|].
    constructor; [done|].
    apply Forall_forall. intros y Hy. apply Hmin.
    rewrite Hperm. right. by rewrite <- Hperm'.
Qed.

(** C4 as the code has it: whatever sequence of events is pushed, every
    event is popped exactly once and the events come out in non-decreasing
    timestamp order.  The order is a function of the push sequence, but
    nothing is promised about events with equal timestamps. *)
Theorem pop_order_by_timestamp (l : list Event) :
  ∃ out, pop_order l = Ok out ∧ out ≡ₚ l ∧ StronglySorted by_timestamp out.
Proof.
  unfold pop_order.
  destruct (push_all_spec l [] (heap_ordered_nil _)) as (h & -> & Hord & Hperm).
  result_simpl.
  destruct (pop_n_spec (length h) h Hord) as (out & -> & Hperm' & Hsorted);
    [done|].
  exists out. split; [done|]. split; [|done].
  by rewrite Hperm', Hperm, app_nil_r.
Qed.

(** C4 fails on ties: four events with the same timestamp, pushed in the
    order 0, 1, 2, 3, are popped in the order 0, 2, 1, 3. *)
Lemma pop_order_not_stable :
  pop_order [mkEvent 1 REQUEST_ARRIVAL 0 None; mkEvent 1 REQUEST_ARRIVAL 1 None;
             mkEvent 1 REQUEST_ARRIVAL 2 None; mkEvent 1 REQUEST_ARRIVAL 3 None]
  = Ok [mkEvent 1 REQUEST_ARRIVAL 0 None; mkEvent 1 REQUEST_ARRIVAL 2 None;
        mkEvent 1 REQUEST_ARRIVAL 1 None; mkEvent 1 REQUEST_ARRIVAL 3 None].
Proof. vm_compute. reflexivity. Qed.

(** * Statistics of an empty run *)

Lemma run_bound_init (c : Cluster) (o : list Request) :
  run_bound (Simulator_init c o) = 0.
Proof. done. Qed.

Lemma get_stats_total (s : Simulator) : ∃ v, get_stats s = Ok v.
Proof.
  unfold get_stats. destruct (completed_requests s) as [|r0 rest]; [by eexists|].
  cbv zeta. rewrite length_fmap. cbn [length].
  assert (¬ (inject_Z (Z.of_nat (S (length rest))) == 0)%Q) as Hn.
  { unfold Qeq. simpl. lia. }
  rewrite (float_div_Ok _ _ Hn). result_simpl.
  rewrite float_div_Ok; [by eexists|].
  destruct (Qltb 0 (current_time s)) eqn:E; [|lra].
  apply Qltb_lt in E. lra.
Qed.

(** C8 as the code has it: [get_stats] never raises, and a run on an empty
    request list completes and leaves the ledger empty; but with an empty
    ledger [get_stats] returns the text "No requests completed." instead of
    a statistics record, so no zero count or zero throughput is reported. *)
Theorem get_stats_no_requests :
  (∀ s, ∃ v, get_stats s = Ok v) ∧
  (∀ s, completed_requests s = [] →
        get_stats s = Ok (StatsStr "No requests completed.")) ∧
  (∀ c o, ∃ s, run (Simulator_init c o) [] = Ok s ∧
               completed_requests s = []).
Proof.
  split; [apply get_stats_total|]. split.
  - intros s Hs. unfold get_stats. by rewrite Hs.
  - intros c o. by exists (Simulator_init c o).
Qed.

(** C8 fails: after a run on the empty request list, the statistics are a
    string, not a record with zero completed requests and zero throughput. *)
Lemma get_stats_empty_run_is_text :
  (s ← run (Simulator_init (mkCluster [] 0) []) []; get_stats s)
  = Ok (StatsStr "No requests completed.") ∧
  ¬ ∃ d, (s ← run (Simulator_init (mkCluster [] 0) []) []; get_stats s)
         = Ok (StatsDict d) ∧
         total_requests d = 0%Z ∧ (throughput_rpm d == 0)%Q.
Proof.
  split; [done|]. intros (d & H & _). discriminate H.
Qed.

(** * Events that cannot be handled *)

Lemma heappop_Ok_nonempty {A : Type} (item_lt : A → A → bool) (h : list A)
    (e : A) (h' : list A) :
  heappop item_lt h = Ok (e, h') → h ≠ [].
Proof. intros H ->. discriminate H. Qed.

(** C7 as the code has it: when the popped event is a REQUEST_ARRIVAL or a
    DEVICE_FREE whose request id is not in the identity map, the run stops
    with KeyError.  The loop has no check of the event kind: an event of any
    other kind only moves the clock to its timestamp, and the loop goes
    on. *)
Theorem run_loop_bad_event (n : nat) (s : Simulator) (e : Event)
    (h : list Event) :
  heappop event_lt (events s) = Ok (e, h) →
  ((ev_type e = REQUEST_ARRIVAL ∨ ev_type e = DEVICE_FREE) →
   requests_map s !! request_id e = None →
   run_loop (S n) s = Raise KeyError) ∧
  (ev_type e ≠ REQUEST_ARRIVAL → ev_type e ≠ DEVICE_FREE →
   run_loop (S n) s
   = run_loop n (set_current_time (timestamp e) (set_events h s))).
Proof.
  intros Hpop. pose proof (heappop_Ok_nonempty _ _ _ _ Hpop) as Hne.
  cbn [run_loop]. destruct (events s) as [|e0 h0] eqn:Hev; [done|].
  unfold loop_body. rewrite Hev, Hpop. result_simpl. split.
  - intros Hkind Hmap.
    destruct (String.eqb (ev_type e) REQUEST_ARRIVAL) eqn:Ea.
    + unfold handle_arrival, lookup_request. simpl. by rewrite Hmap.
    + destruct Hkind as [Hk|Hk]; [by rewrite Hk, String.eqb_refl in Ea|].
      rewrite Hk, String.eqb_refl.
      unfold handle_completion, lookup_request. simpl. by rewrite Hmap.
  - intros Ha Hf.
    apply String.eqb_neq in Ha, Hf. by rewrite Ha, Hf.
Qed.

Lemma run_loop_bad_event_witness :
  run_loop 1
    (set_events [mkEvent 5 REQUEST_ARRIVAL 42 None]
       (Simulator_init (mkCluster [] 0) []))
  = Raise KeyError.
Proof.
  apply (run_loop_bad_event 0
           (set_events [mkEvent 5 REQUEST_ARRIVAL 42 None]
              (Simulator_init (mkCluster [] 0) []))
           (mkEvent 5 REQUEST_ARRIVAL 42 None) []).
  - reflexivity.
  - left. reflexivity.
  - reflexivity.
Defined.

(** C7 fails: an event of an unknown kind, scheduled before the run, is
    popped and skipped; the run ends normally with the clock at its
    timestamp. *)
Lemma run_skips_unknown_kind :
  (s ← schedule_event (Simulator_init (mkCluster [] 0) []) 5 "PING" 0 None;
   run s [])
  = Ok (set_current_time 5 (Simulator_init (mkCluster [] 0) [])).
Proof. vm_compute. reflexivity. Qed.

(** * The simulation loop: invariant *)

Definition is_arrival (e : Event) : bool :=
  String.eqb (ev_type e) REQUEST_ARRIVAL.
Definition is_free (e : Event) : bool :=
  String.eqb (ev_type e) DEVICE_FREE.

(** The request an arrival event (resp. a completion event) refers to,
    through the identity map [m]. *)
Definition arrival_ref (m : gmap Z nat) (e : Event) : option nat :=
  if is_arrival e then m !! request_id e else None.
Definition free_ref (m : gmap Z nat) (e : Event) : option nat :=
  if is_free e then m !! request_id e else None.

(** Requests not yet started: still to arrive, or waiting. *)
Definition pending (s : Simulator) : list nat :=
  omap (arrival_ref (requests_map s)) (events s) ++ waiting_queue s.
(** Requests being served. *)
Definition running (s : Simulator) : list nat :=
  omap (free_ref (requests_map s)) (events s).

Definition timed (R : Request) (t : Q) : Prop :=
  (arrival_time R <= start_time R)%Q ∧ (start_time R <= t)%Q.

Definition event_ok (s : Simulator) (e : Event) : Prop :=
  (is_arrival e = true →
   ∃ r R, requests_map s !! request_id e = Some r ∧ objs s !! r = Some R ∧
          (arrival_time R <= timestamp e)%Q) ∧
  (is_free e = true →
   ∃ r R j, requests_map s !! request_id e = Some r ∧ objs s !! r = Some R ∧
            device_id e = Some (Z.of_nat j) ∧
            j < length (devices (cluster s)) ∧ timed R (timestamp e)).

Record sim_inv (s : Simulator) : Prop := mk_sim_inv {
  inv_heap : heap_ordered event_lt (events s);
  inv_future :
    Forall (fun e => (current_time s <= timestamp e)%Q) (events s);
  inv_map :
    ∀ i r, requests_map s !! i = Some r →
           ∃ R, objs s !! r = Some R ∧ req_id R = i;
  inv_registered :
    ∀ r R, objs s !! r = Some R → requests_map s !! req_id R = Some r;
  inv_devices :
    ∀ j d, devices (cluster s) !! j = Some d →
           dev_id d = Z.of_nat j ∧ (0 <= ttft_ms d)%Q ∧
           (0 < output_tokens_per_sec d)%Q;
  inv_tokens :
    ∀ r R, objs s !! r = Some R → (0 <= output_tokens R)%Z;
  inv_events : Forall (event_ok s) (events s);
  inv_waiting :
    Forall (fun r => ∃ R, objs s !! r = Some R ∧
                          (arrival_time R <= current_time s)%Q)
           (waiting_queue s);
  inv_completed :
    Forall (fun r => ∃ R, objs s !! r = Some R ∧ timed R (completion_time R))
           (completed_requests s);
  inv_pending : NoDup (pending s);
  inv_disjoint :
    ∀ r, r ∈ pending s → (r ∉ running s) ∧ (r ∉ completed_requests s) }.

Lemma is_arrival_not_free (e : Event) : is_arrival e = true → is_free e = false.
Proof.
  unfold is_arrival, is_free. intros H%String.eqb_eq. by rewrite H.
Qed.

Lemma deref_lookup (s : Simulator) (r : nat) (R : Request) :
  objs s !! r = Some R → deref s r = R.
Proof. unfold deref. by intros ->. Qed.

Lemma sum_list_Permutation (l1 l2 : list nat) :
  l1 ≡ₚ l2 → sum_list l1 = sum_list l2.
Proof. induction 1; simpl; lia. Qed.

Lemma schedule_event_spec (s : Simulator) (t : Q) (ty : string) (i : Z)
    (d : option Z) :
  heap_ordered event_lt (events s) →
  ∃ h, schedule_event s t ty i d = Ok (set_events h s) ∧
       heap_ordered event_lt h ∧ h ≡ₚ mkEvent t ty i d :: events s.
Proof.
  intros Hord. unfold schedule_event.
  destruct (heappush_event (events s) (mkEvent t ty i d) Hord)
    as (h & -> & Hord' & Hperm).
  by exists h.
Qed.

(** The duration that [calculate_duration] gives on a valid device. *)
Definition service_time (d : Device) (R : Request) : Q :=
  (ttft_ms d / 1000 + inject_Z (output_tokens R) / output_tokens_per_sec d)%Q.

(** The state that [_start_job] builds, but for the event queue. *)
Definition started (s : Simulator) (device req : nat) (d : Device)
    (R : Request) : Simulator :=
  update_device (add_busy_time (service_time d R)) device
    (update_request (set_start_time (current_time s)) req
       (update_device (start_device req) device s)).

Lemma _start_job_spec (s : Simulator) (device req : nat) (d : Device)
    (R : Request) :
  heap_ordered event_lt (events s) →
  devices (cluster s) !! device = Some d →
  objs s !! req = Some R →
  (0 < output_tokens_per_sec d)%Q →
  ∃ h, _start_job s device req = Ok (set_events h (started s device req d R)) ∧
       heap_ordered event_lt h ∧
       h ≡ₚ mkEvent (current_time s + service_time d R) DEVICE_FREE
              (req_id R) (Some (dev_id d)) :: events s.
Proof.
  intros Hord Hd HR Hrate. unfold _start_job, getitem.
  cbn [update_device update_request set_cluster set_objs cluster devices
       objs current_time].
  rewrite list_lookup_alter_eq, Hd. cbn [fmap option_fmap option_map].
  result_simpl.
  rewrite (calculate_duration_spec (start_device req d)) by done.
  result_simpl.
  assert (∀ x, deref (update_device (add_busy_time x) device
                 (update_request (set_start_time (current_time s)) req
                    (update_device (start_device req) device s))) req
               = set_start_time (current_time s) R) as Hderef.
  { intros x. apply deref_lookup. cbn. by rewrite list_lookup_alter_eq, HR. }
  assert (deref (update_request (set_start_time (current_time s)) req
                   (update_device (start_device req) device s)) req
          = set_start_time (current_time s) R) as Hderef'.
  { apply deref_lookup. cbn. by rewrite list_lookup_alter_eq, HR. }
  rewrite Hderef, Hderef'.
  cbn [start_device set_start_time ttft_ms output_tokens_per_sec output_tokens
       req_id dev_id].
  fold (service_time d R).
  match goal with
  | |- ∃ h, schedule_event ?s' _ _ _ _ = _ ∧ _ =>
      destruct (schedule_event_spec s' (current_time s + service_time d R)
                  DEVICE_FREE (req_id R) (Some (dev_id d)) Hord)
        as (h & Heq & Hord' & Hperm)
  end.
  exists h. split; [|done]. exact Heq.
Qed.

Lemma event_weight_pos (e : Event) :
  event_weight e = if is_arrival e then 2 else 1.
Proof. done. Qed.

(** Popping the next event and moving the clock to it. *)
Lemma sim_inv_pop (s : Simulator) (e : Event) (h : list Event) :
  sim_inv s → heappop event_lt (events s) = Ok (e, h) →
  sim_inv (set_current_time (timestamp e) (set_events h s)) ∧
  events s ≡ₚ e :: h ∧ event_ok s e ∧
  (current_time s <= timestamp e)%Q ∧
  (∀ r, arrival_ref (requests_map s) e = Some r →
        (r ∉ omap (arrival_ref (requests_map s)) h ++ waiting_queue s) ∧
        (r ∉ omap (free_ref (requests_map s)) h) ∧
        (r ∉ completed_requests s)) ∧
  (∀ r, free_ref (requests_map s) e = Some r →
        r ∉ omap (arrival_ref (requests_map s)) h ++ waiting_queue s).
Proof.
  intros Hinv Hpop.
  pose proof (heappop_Ok_nonempty _ _ _ _ Hpop) as Hne.
  destruct (heappop_event (events s) (inv_heap s Hinv) Hne)
    as (e' & h' & Hpop' & Hord & Hperm & Hmin).
  rewrite Hpop in Hpop'. injection Hpop' as <- <-.
  pose proof (inv_future s Hinv) as Hfut.
  pose proof (inv_events s Hinv) as Hev.
  pose proof (inv_pending s Hinv) as Hnd.
  pose proof (inv_disjoint s Hinv) as Hdis.
  unfold pending, running in Hnd, Hdis.
  rewrite Hperm in Hfut, Hev, Hnd.
  apply Forall_cons in Hfut as [Hnow Hfut].
  apply Forall_cons in Hev as [Hev_e Hev].
  assert (∀ r, r ∈ omap (arrival_ref (requests_map s)) (e :: h)
                   ++ waiting_queue s →
               (r ∉ omap (free_ref (requests_map s)) (e :: h)) ∧
               (r ∉ completed_requests s)) as Hdis'.
  { intros r Hr. destruct (Hdis r) as [H1 H2]; [by rewrite Hperm|].
    split; [by rewrite <- Hperm|done]. }
  clear Hdis.
  split; [|split; [done|split; [done|split; [done|split]]]].
  - constructor; cbn.
    + done.
    + apply Forall_forall. intros x Hx. apply Hmin. rewrite Hperm. by right.
    + apply (inv_map s Hinv).
    + apply (inv_registered s Hinv).
    + apply (inv_devices s Hinv).
    + apply (inv_tokens s Hinv).
    + done.
    + eapply Forall_impl; [apply (inv_waiting s Hinv)|].
      intros r (R & HR & Ha). exists R. split; [done|]. cbn. lra.
    + apply (inv_completed s Hinv).
    + unfold pending. cbn. cbn in Hnd.
      destruct (arrival_ref (requests_map s) e); [|done].
      cbn in Hnd. by apply NoDup_cons in Hnd as [_ Hnd].
    + unfold pending, running. cbn. intros r Hr.
      destruct (Hdis' r) as [Hr1 Hr2].
      * cbn. destruct (arrival_ref (requests_map s) e); [by right|done].
      * split; [|done]. intros Hin. apply Hr1. cbn.
        destruct (free_ref (requests_map s) e); [by right|done].
  - intros r Hr. cbn in Hnd. rewrite Hr in Hnd. cbn in Hnd.
    apply NoDup_cons in Hnd as [Hnot _]. split; [done|].
    destruct (Hdis' r) as [Hr1 Hr2].
    { cbn. rewrite Hr. by left. }
    split; [|done]. intros Hin. apply Hr1. cbn.
    destruct (free_ref (requests_map s) e); [by right|done].
  - intros r Hr Hin. destruct (Hdis' r) as [Hr1 _].
    { cbn. destruct (arrival_ref (requests_map s) e); [by right|done]. }
    apply Hr1. cbn. rewrite Hr. by left.
Qed.

Lemma lookup_alter_Some {A : Type} (f : A → A) (l : list A) (r k : nat) (y : A) :
  alter f r l !! k = Some y ↔
  ∃ x, l !! k = Some x ∧ y = if decide (k = r) then f x else x.
Proof.
  destruct (decide (k = r)) as [->|Hne].
  - rewrite list_lookup_alter_eq. destruct (l !! r) as [x|]; simpl.
    + split; [intros [= <-]; by exists x|]. by intros (x' & [= <-] & ->).
    + split; [done|]. by intros (x' & ? & _).
  - rewrite list_lookup_alter_ne by done.
    split; [intros H; by exists y|]. by intros (x & -> & ->).
Qed.

Lemma service_time_nonneg (d : Device) (R : Request) :
  (0 <= ttft_ms d)%Q → (0 < output_tokens_per_sec d)%Q →
  (0 <= output_tokens R)%Z → (0 <= service_time d R)%Q.
Proof.
  intros Ht Hr Ho. unfold service_time.
  assert (0 <= ttft_ms d / 1000)%Q.
  { apply Qle_shift_div_l; lra. }
  assert (0 <= inject_Z (output_tokens R) / output_tokens_per_sec d)%Q.
  { apply Qle_shift_div_l; [done|].
    assert (0 <= inject_Z (output_tokens R))%Q; [|lra].
    unfold Qle. simpl. lia. }
  lra.
Qed.

(** [event_ok] survives a change of state that keeps the identity map and
    the number of devices and, for each request, its arrival time and what
    the event says of its start time. *)
Lemma event_ok_frame (s s' : Simulator) (e : Event) :
  requests_map s' = requests_map s →
  length (devices (cluster s')) = length (devices (cluster s)) →
  (∀ r R, objs s !! r = Some R →
          ∃ R', objs s' !! r = Some R' ∧
                arrival_time R' = arrival_time R ∧
                (timed R (timestamp e) → timed R' (timestamp e))) →
  event_ok s e → event_ok s' e.
Proof.
  intros Hmap Hlen Hobjs [Ha Hf]. split.
  - intros He. destruct (Ha He) as (r & R & Hr & HR & Hle).
    destruct (Hobjs r R HR) as (R' & HR' & Harr & _).
    exists r, R'. rewrite Hmap, Harr. done.
  - intros He. destruct (Hf He) as (r & R & j & Hr & HR & Hd & Hj & Ht).
    destruct (Hobjs r R HR) as (R' & HR' & _ & Htimed).
    exists r, R', j. rewrite Hmap, Hlen. auto 6.
Qed.

Lemma started_fields (s : Simulator) (j r : nat) (d : Device) (R : Request)
    (h : list Event) :
  let s' := set_events h (started s j r d R) in
  events s' = h ∧ current_time s' = current_time s ∧
  waiting_queue s' = waiting_queue s ∧
  completed_requests s' = completed_requests s ∧
  requests_map s' = requests_map s ∧
  objs s' = alter (set_start_time (current_time s)) r (objs s) ∧
  devices (cluster s')
  = alter (add_busy_time (service_time d R)) j
      (alter (start_device r) j (devices (cluster s))).
Proof. done. Qed.

(** Starting a request that is neither pending nor completed. *)
Lemma sim_inv_start (s : Simulator) (j r : nat) (d : Device) (R : Request) :
  sim_inv s →
  devices (cluster s) !! j = Some d → objs s !! r = Some R →
  (arrival_time R <= current_time s)%Q →
  r ∉ pending s → r ∉ completed_requests s →
  ∃ s', _start_job s j r = Ok s' ∧ sim_inv s' ∧
        run_bound s' = S (run_bound s) ∧
        current_time s' = current_time s ∧
        completed_requests s' = completed_requests s ∧
        waiting_queue s' = waiting_queue s.
Proof.
  intros Hinv Hd HR Harr Hpend Hcomp.
  destruct (inv_devices s Hinv j d Hd) as (Hid & Httft & Hrate).
  pose proof (inv_tokens s Hinv r R HR) as Htok.
  pose proof (service_time_nonneg d R Httft Hrate Htok) as Hdur.
  destruct (_start_job_spec s j r d R (inv_heap s Hinv) Hd HR Hrate)
    as (h & -> & Hord & Hperm).
  eexists. split; [done|].
  destruct (started_fields s j r d R h)
    as (Hev & Htime & Hwait & Hcompl & Hmap & Hobjs & Hdevs).
  set (s' := set_events h (started s j r d R)) in *.
  set (ev := mkEvent (current_time s + service_time d R) DEVICE_FREE
               (req_id R) (Some (dev_id d))) in *.
  assert (length (devices (cluster s')) = length (devices (cluster s)))
    as Hlen by (by rewrite Hdevs, !length_alter).
  assert (∀ e, (current_time s <= timestamp e)%Q →
               event_ok s e → event_ok s' e) as Hframe.
  { intros e Hfut. apply event_ok_frame; [done|done|].
    intros r0 R0 HR0. rewrite Hobjs.
    eexists. split; [apply lookup_alter_Some; eauto|].
    destruct (decide (r0 = r)) as [->|]; [|done]. simplify_eq.
    split; [done|]. intros _. split; simpl; done. }
  split; [|split; [|done]].
  - constructor.
    + by rewrite Hev.
    + rewrite Hev, Htime, Hperm. constructor; [simpl; lra|].
      apply (inv_future s Hinv).
    + rewrite Hmap, Hobjs. intros i r0 Hi.
      destruct (inv_map s Hinv i r0 Hi) as (R0 & HR0 & Hid0).
      eexists. split; [apply lookup_alter_Some; eauto|].
      by destruct (decide (r0 = r)).
    + rewrite Hmap, Hobjs. intros r0 R0' (R0 & HR0 & ->)%lookup_alter_Some.
      rewrite <- (inv_registered s Hinv r0 R0 HR0).
      by destruct (decide (r0 = r)).
    + rewrite Hdevs.
      intros j0 d0' (d1 & (d0 & Hd0 & ->)%lookup_alter_Some & ->)%lookup_alter_Some.
      destruct (inv_devices s Hinv j0 d0 Hd0) as (? & ? & ?).
      by destruct (decide (j0 = j)).
    + rewrite Hobjs. intros r0 R0' (R0 & HR0 & ->)%lookup_alter_Some.
      pose proof (inv_tokens s Hinv r0 R0 HR0).
      by destruct (decide (r0 = r)).
    + rewrite Hev, Hperm. constructor.
      * split; [done|]. intros _. exists r, (set_start_time (current_time s) R), j.
        rewrite Hmap, Hobjs, Hlen. split; [by apply (inv_registered s Hinv)|].
        split; [by rewrite list_lookup_alter_eq, HR|].
        split; [simpl; by rewrite Hid|].
        split; [by eapply lookup_lt_Some|].
        split; simpl; [done|lra].
      * pose proof (inv_future s Hinv) as Hfut.
        pose proof (inv_events s Hinv) as Hevs.
        apply Forall_forall. intros e He.
        rewrite Forall_forall in Hfut, Hevs. by apply Hframe; auto.
    + rewrite Hwait, Htime, Hobjs.
      eapply Forall_impl; [apply (inv_waiting s Hinv)|].
      intros r0 (R0 & HR0 & Ha).
      eexists. split; [apply lookup_alter_Some; eauto|].
      by destruct (decide (r0 = r)).
    + rewrite Hcompl, Hobjs.
      pose proof (inv_completed s Hinv) as Hc.
      apply Forall_forall. intros r0 Hr0. rewrite Forall_forall in Hc.
      destruct (Hc r0 Hr0) as (R0 & HR0 & Ht).
      exists R0. split; [|done].
      rewrite list_lookup_alter_ne; [done|]. by intros ->.
    + unfold pending. rewrite Hmap, Hev, Hwait, Hperm.
      apply (inv_pending s Hinv).
    + unfold pending, running. rewrite Hmap, Hev, Hwait, Hcompl.
      intros x Hx. rewrite Hperm in Hx. rewrite Hperm.
      cbn [omap list_omap] in *.
      change (arrival_ref (requests_map s) ev) with (@None nat) in Hx.
      destruct (inv_disjoint s Hinv x Hx) as [Hx1 Hx2].
      split; [|done].
      destruct (free_ref (requests_map s) ev) as [r'|] eqn:Hr'; [|done].
      assert (r' = r) as ->.
      { unfold free_ref in Hr'. simpl in Hr'.
        rewrite (inv_registered s Hinv r R HR) in Hr'. by simplify_eq. }
      intros [->|Hin]%elem_of_cons; [by apply Hpend|by apply Hx1].
  - unfold run_bound. rewrite Hev, Hwait.
    rewrite (sum_list_Permutation _ _ (fmap_Permutation event_weight _ _ Hperm)).
    subst ev. cbn. lia.
Qed.

(** Putting a request that is nowhere yet at the end of the waiting queue. *)
Lemma sim_inv_enqueue (s : Simulator) (r : nat) (R : Request) :
  sim_inv s → objs s !! r = Some R →
  (arrival_time R <= current_time s)%Q →
  r ∉ pending s → r ∉ running s → r ∉ completed_requests s →
  sim_inv (set_waiting_queue (waiting_queue s ++ [r]) s) ∧
  run_bound (set_waiting_queue (waiting_queue s ++ [r]) s) = S (run_bound s).
Proof.
  intros Hinv HR Harr Hpend Hrun Hcomp. split.
  - constructor; cbn; try apply Hinv.
    + apply Forall_app. split; [apply Hinv|].
      constructor; [by exists R|constructor].
    + unfold pending. cbn. rewrite app_assoc.
      apply NoDup_app. split; [apply Hinv|]. split.
      * intros x Hx [->|Hin%elem_of_nil]%elem_of_cons; done.
      * apply NoDup_singleton.
    + unfold pending, running. cbn. rewrite app_assoc.
      intros x [Hx|[->|Hin%elem_of_nil]%elem_of_cons]%elem_of_app; [|done..].
      by apply (inv_disjoint s Hinv).
  - unfold run_bound. cbn. rewrite length_app. simpl. lia.
Qed.

(** Taking the oldest waiting request off the waiting queue. *)
Lemma sim_inv_dequeue (s : Simulator) (r : nat) (rest : list nat) :
  sim_inv s → waiting_queue s = r :: rest →
  sim_inv (set_waiting_queue rest s) ∧
  (∃ R, objs s !! r = Some R ∧ (arrival_time R <= current_time s)%Q) ∧
  (r ∉ pending (set_waiting_queue rest s)) ∧
  (r ∉ completed_requests s) ∧
  run_bound s = S (run_bound (set_waiting_queue rest s)).
Proof.
  intros Hinv Hw.
  pose proof (inv_waiting s Hinv) as Hwait.
  pose proof (inv_pending s Hinv) as Hnd.
  pose proof (inv_disjoint s Hinv) as Hdis.
  unfold pending in Hnd, Hdis. rewrite Hw in Hwait, Hnd, Hdis.
  apply Forall_cons in Hwait as [HR Hwait].
  rewrite <- Permutation_middle in Hnd.
  apply NoDup_cons in Hnd as [Hnot Hnd].
  split; [|split; [done|split; [done|split]]].
  - constructor; cbn; try apply Hinv; try done.
    unfold pending, running. cbn. intros x Hx. apply Hdis.
    rewrite <- Permutation_middle. by right.
  - apply (Hdis r). rewrite <- Permutation_middle. by left.
  - unfold run_bound. cbn. rewrite Hw. simpl. lia.
Qed.

(** Recording the completion of a request that is not pending, and freeing
    its device. *)
Lemma sim_inv_complete (s : Simulator) (r j : nat) (R : Request) :
  sim_inv s → objs s !! r = Some R → timed R (current_time s) →
  r ∉ pending s →
  let s' := update_device free_device j
              (set_completed_requests (completed_requests s ++ [r])
                 (update_request (set_completion_time (current_time s)) r s))
  in
  sim_inv s' ∧ run_bound s' = run_bound s ∧
  waiting_queue s' = waiting_queue s ∧ current_time s' = current_time s ∧
  length (devices (cluster s')) = length (devices (cluster s)).
Proof.
  intros Hinv HR Ht Hpend s'.
  assert (objs s' = alter (set_completion_time (current_time s)) r (objs s))
    as Hobjs by done.
  assert (devices (cluster s') = alter free_device j (devices (cluster s)))
    as Hdevs by done.
  assert (length (devices (cluster s')) = length (devices (cluster s)))
    as Hlen by (by rewrite Hdevs, length_alter).
  split; [|done].
  constructor.
  - apply Hinv.
  - apply Hinv.
  - rewrite Hobjs. intros i r0 Hi.
    destruct (inv_map s Hinv i r0 Hi) as (R0 & HR0 & Hid0).
    eexists. split; [apply lookup_alter_Some; eauto|].
    by destruct (decide (r0 = r)).
  - rewrite Hobjs. intros r0 R0' (R0 & HR0 & ->)%lookup_alter_Some.
    change (requests_map s') with (requests_map s).
    rewrite <- (inv_registered s Hinv r0 R0 HR0).
    by destruct (decide (r0 = r)).
  - rewrite Hdevs. intros j0 d0' (d0 & Hd0 & ->)%lookup_alter_Some.
    destruct (inv_devices s Hinv j0 d0 Hd0) as (? & ? & ?).
    by destruct (decide (j0 = j)).
  - rewrite Hobjs. intros r0 R0' (R0 & HR0 & ->)%lookup_alter_Some.
    pose proof (inv_tokens s Hinv r0 R0 HR0).
    by destruct (decide (r0 = r)).
  - change (events s') with (events s).
    eapply Forall_impl; [apply (inv_events s Hinv)|].
    intros e. apply event_ok_frame; [done|done|].
    intros r0 R0 HR0. rewrite Hobjs.
    eexists. split; [apply lookup_alter_Some; eauto|].
    by destruct (decide (r0 = r)).
  - change (waiting_queue s') with (waiting_queue s).
    change (current_time s') with (current_time s). rewrite Hobjs.
    eapply Forall_impl; [apply (inv_waiting s Hinv)|].
    intros r0 (R0 & HR0 & Ha).
    eexists. split; [apply lookup_alter_Some; eauto|].
    by destruct (decide (r0 = r)).
  - change (completed_requests s') with (completed_requests s ++ [r]).
    rewrite Hobjs. apply Forall_app. split.
    + eapply Forall_impl; [apply (inv_completed s Hinv)|].
      intros r0 (R0 & HR0 & Ht0).
      eexists. split; [apply lookup_alter_Some; eauto|].
      destruct (decide (r0 = r)) as [->|]; [|done].
      simplify_eq. done.
    + constructor; [|constructor].
      exists (set_completion_time (current_time s) R).
      split; [by rewrite list_lookup_alter_eq, HR|done].
  - apply Hinv.
  - change (pending s') with (pending s). change (running s') with (running s).
    change (completed_requests s') with (completed_requests s ++ [r]).
    intros x Hx. destruct (inv_disjoint s Hinv x Hx) as [Hx1 Hx2].
    split; [done|].
    intros [Hin|[->|Hin%elem_of_nil]%elem_of_cons]%elem_of_app; done.
Qed.

Lemma get_next_device_Some (c : Cluster) (j : nat) :
  get_next_device c = Some j →
  ∃ d, devices c !! j = Some d ∧ is_busy d = false.
Proof.
  intros H. by apply (get_next_device_first_idle c) in H as [Hd _].
Qed.

Lemma handle_arrival_inv (s : Simulator) (i : Z) (r : nat) (R : Request) :
  sim_inv s → requests_map s !! i = Some r → objs s !! r = Some R →
  (arrival_time R <= current_time s)%Q →
  r ∉ pending s → r ∉ running s → r ∉ completed_requests s →
  ∃ s', handle_arrival s i = Ok s' ∧ sim_inv s' ∧
        run_bound s' = S (run_bound s).
Proof.
  intros Hinv Hi HR Harr Hpend Hrun Hcomp.
  unfold handle_arrival, lookup_request. rewrite Hi. result_simpl.
  destruct (get_next_device (cluster s)) as [j|] eqn:Hdev.
  - destruct (get_next_device_Some _ _ Hdev) as (d & Hd & _).
    destruct (sim_inv_start s j r d R Hinv Hd HR Harr Hpend Hcomp)
      as (s' & Heq & Hinv' & Hb & _).
    by exists s'.
  - eexists. split; [done|]. by apply (sim_inv_enqueue s r R).
Qed.

Lemma getitem_int_nat {A : Type} (l : list A) (j : nat) (x : A) :
  l !! j = Some x → getitem_int l (Z.of_nat j) = Ok (j, x).
Proof.
  intros Hj. unfold getitem_int.
  assert ((Z.of_nat j <? 0)%Z = false) as Hneg by (apply Z.ltb_ge; lia).
  cbv zeta. rewrite Hneg. cbv iota. by rewrite Hneg, Nat2Z.id, Hj.
Qed.

Lemma handle_completion_inv (s : Simulator) (i : Z) (r j : nat) (R : Request) :
  sim_inv s → requests_map s !! i = Some r → objs s !! r = Some R →
  timed R (current_time s) → r ∉ pending s →
  j < length (devices (cluster s)) →
  ∃ s', handle_completion s i (Some (Z.of_nat j)) = Ok s' ∧ sim_inv s' ∧
        run_bound s' = run_bound s.
Proof.
  intros Hinv Hi HR Ht Hpend Hj.
  unfold handle_completion, lookup_request. rewrite Hi. result_simpl.
  destruct (lookup_lt_is_Some_2 _ _ Hj) as [d Hd].
  rewrite (getitem_int_nat _ _ _ Hd). result_simpl.
  destruct (sim_inv_complete s r j R Hinv HR Ht Hpend)
    as (Hinv1 & Hb1 & Hw1 & Ht1 & Hlen1).
  cbv zeta in Hinv1, Hb1, Hw1, Ht1, Hlen1.
  set (s1 := update_device free_device j
               (set_completed_requests (completed_requests s ++ [r])
                  (update_request (set_completion_time (current_time s)) r s)))
    in *.
  change (update_device free_device j
            (set_completed_requests
               (completed_requests
                  (update_request (set_completion_time (current_time s)) r s)
                ++ [r])
               (update_request (set_completion_time (current_time s)) r s)))
    with s1.
  destruct (waiting_queue s1) as [|next_req rest] eqn:Hw.
  - by exists s1.
  - destruct (sim_inv_dequeue s1 next_req rest Hinv1 Hw)
      as (Hinv2 & (R2 & HR2 & Harr2) & Hpend2 & Hcomp2 & Hb2).
    destruct (lookup_lt_is_Some_2 (devices (cluster s1)) j) as [d1 Hd1];
      [by rewrite Hlen1|].
    destruct (sim_inv_start (set_waiting_queue rest s1) j next_req d1 R2
                Hinv2 Hd1 HR2 Harr2 Hpend2 Hcomp2)
      as (s' & Heq & Hinv' & Hb' & _).
    exists s'. split; [done|]. split; [done|]. lia.
Qed.

(** One iteration of the loop keeps the invariant, does not raise, and
    uses up one unit of [run_bound]. *)
Lemma loop_body_inv (s : Simulator) :
  sim_inv s → events s ≠ [] →
  ∃ s', loop_body s = Ok s' ∧ sim_inv s' ∧ run_bound s = S (run_bound s').
Proof.
  intros Hinv Hne. unfold loop_body.
  destruct (heappop_event (events s) (inv_heap s Hinv) Hne)
    as (e & h & Hpop & _).
  rewrite Hpop. result_simpl.
  destruct (sim_inv_pop s e h Hinv Hpop)
    as (Hinv1 & Hperm & [Ha Hf] & Hnow & Harrival & Hfree).
  set (s1 := set_current_time (timestamp e) (set_events h s)) in *.
  assert (run_bound s = event_weight e + run_bound s1) as Hb.
  { unfold run_bound. cbn.
    rewrite (sum_list_Permutation _ _ (fmap_Permutation event_weight _ _ Hperm)).
    rewrite fmap_cons. change (sum_list (?x :: ?l)) with (x + sum_list l).
    lia. }
  rewrite event_weight_pos in Hb.
  fold (is_arrival e). fold (is_free e).
  destruct (is_arrival e) eqn:Earr.
  - destruct (Ha eq_refl) as (r & R & Hr & HR & Hle).
    destruct (Harrival r) as (Hp & Hrun & Hc).
    { unfold arrival_ref. by rewrite Earr. }
    destruct (handle_arrival_inv s1 (request_id e) r R Hinv1 Hr HR Hle Hp Hrun Hc)
      as (s' & Heq & Hinv' & Hb').
    exists s'. split; [done|]. split; [done|]. lia.
  - destruct (is_free e) eqn:Efree.
    + destruct (Hf eq_refl) as (r & R & j & Hr & HR & -> & Hj & Ht).
      assert (r ∉ pending s1) as Hp.
      { apply Hfree. unfold free_ref. by rewrite Efree. }
      destruct (handle_completion_inv s1 (request_id e) r j R Hinv1 Hr HR Ht Hp Hj)
        as (s' & Heq & Hinv' & Hb').
      exists s'. split; [done|]. split; [done|]. lia.
    + exists s1. split; [done|]. split; [done|]. lia.
Qed.

(** The loop stops with an empty queue within [run_bound] iterations. *)
Lemma run_loop_inv (n : nat) (s : Simulator) :
  sim_inv s → run_bound s ≤ n →
  ∃ s', run_loop n s = Ok s' ∧ sim_inv s' ∧ events s' = [].
Proof.
  revert s. induction n as [|n IH]; intros s Hinv Hb.
  - exists s. split; [done|]. split; [done|].
    destruct (events s) as [|e h] eqn:He; [done|].
    unfold run_bound in Hb. rewrite He in Hb. simpl in Hb.
    rewrite event_weight_pos in Hb. destruct (is_arrival e); lia.
  - cbn [run_loop]. destruct (events s) as [|e h] eqn:He.
    + by exists s.
    + destruct (loop_body_inv s Hinv) as (s1 & -> & Hinv1 & Hb1);
        [by rewrite He|].
      result_simpl. apply IH; [done|lia].
Qed.

(** More iterations than needed change nothing. *)
Lemma run_loop_drains (n : nat) (s : Simulator) :
  sim_inv s → run_bound s ≤ n → run_loop n s = run_loop (run_bound s) s.
Proof.
  remember (run_bound s) as m eqn:Hm. revert n s Hm.
  induction m as [|m IH]; intros n s Hm Hinv Hn.
  - assert (events s = []) as He.
    { destruct (events s) as [|e h] eqn:He; [done|].
      unfold run_bound in Hm. rewrite He in Hm. simpl in Hm.
      rewrite event_weight_pos in Hm. destruct (is_arrival e); lia. }
    destruct n; simpl; by rewrite ?He.
  - destruct n as [|n]; [lia|]. cbn [run_loop].
    destruct (events s) as [|e h] eqn:He; [done|].
    destruct (loop_body_inv s Hinv) as (s1 & -> & Hinv1 & Hb1);
      [by rewrite He|].
    result_simpl. apply IH; [lia|done|lia].
Qed.

(** * Loading the requests *)

(** The event that [run] schedules for a request. *)
Definition arrival_event (R : Request) : Event :=
  mkEvent (arrival_time R) REQUEST_ARRIVAL (req_id R) None.

(** State of the loading loop of [run] when the first [k] requests of the
    store have been registered and scheduled. *)
Record loaded (c : Cluster) (o : list Request) (k : nat) (s : Simulator)
    : Prop := mk_loaded {
  ld_cluster : cluster s = c;
  ld_objs : objs s = o;
  ld_time : current_time s = 0%Q;
  ld_waiting : waiting_queue s = [];
  ld_completed : completed_requests s = [];
  ld_heap : heap_ordered event_lt (events s);
  ld_events : events s ≡ₚ arrival_event <$> take k o;
  ld_map :
    ∀ i r, requests_map s !! i = Some r →
           r < k ∧ ∃ R, o !! r = Some R ∧ req_id R = i;
  ld_registered :
    ∀ r R, r < k → o !! r = Some R → requests_map s !! req_id R = Some r }.

Lemma loaded_init (c : Cluster) (o : list Request) :
  loaded c o 0 (Simulator_init c o).
Proof.
  constructor; try done. intros r R Hr. lia.
Qed.

Lemma load_requests_loaded (c : Cluster) (o : list Request) (n k : nat)
    (s : Simulator) :
  NoDup (req_id <$> o) → k + n ≤ length o → loaded c o k s →
  ∃ s', load_requests s (seq k n) = Ok s' ∧ loaded c o (k + n) s'.
Proof.
  intros Hnd. revert k s. induction n as [|n IH]; intros k s Hk Hl.
  - exists s. split; [done|]. by rewrite Nat.add_0_r.
  - cbn [seq load_requests].
    destruct (lookup_lt_is_Some_2 o k) as [R HR]; [lia|].
    assert (deref s k = R) as ->.
    { apply deref_lookup. by rewrite (ld_objs _ _ _ _ Hl). }
    set (s1 := set_requests_map (<[req_id R := k]> (requests_map s)) s).
    destruct (schedule_event_spec s1 (arrival_time R) REQUEST_ARRIVAL
                (req_id R) None (ld_heap _ _ _ _ Hl))
      as (h & -> & Hord & Hperm).
    result_simpl.
    destruct (IH (S k) (set_events h s1)) as (s' & Heq & Hl'); [lia| |].
    + destruct Hl. constructor; cbn; try done.
      * rewrite Hperm. cbn. rewrite ld_events0.
        rewrite (take_S_r o k R HR), fmap_app. cbn.
        by rewrite Permutation_app_comm.
      * intros i r Hi.
        destruct (decide (req_id R = i)) as [<-|Hne].
        -- rewrite lookup_insert_eq in Hi. simplify_eq.
           split; [lia|]. by exists R.
        -- rewrite lookup_insert_ne in Hi by done.
           destruct (ld_map0 i r Hi) as [Hr Hx]. split; [lia|done].
      * intros r R0 Hr HR0.
        destruct (decide (r = k)) as [->|Hne].
        -- simplify_eq. by rewrite lookup_insert_eq.
        -- rewrite lookup_insert_ne; [apply ld_registered0; [lia|done]|].
           intros Heq. apply Hne.
           apply (NoDup_lookup (req_id <$> o) r k (req_id R0)); [done|..];
             rewrite list_lookup_fmap.
           ++ by rewrite HR0.
           ++ rewrite HR. simpl. by rewrite Heq.
    + exists s'. split; [done|]. by replace (k + S n) with (S k + n) by lia.
Qed.

Lemma omap_arrival_events (m : gmap Z nat) (l : list Request) (k : nat) :
  (∀ r R, l !! r = Some R → m !! req_id R = Some (k + r)) →
  omap (arrival_ref m) (arrival_event <$> l) = seq k (length l) ∧
  omap (free_ref m) (arrival_event <$> l) = [].
Proof.
  revert k. induction l as [|R l IH]; intros k Hm; [done|].
  destruct (IH (S k)) as [IH1 IH2].
  { intros r R' Hr. rewrite (Hm (S r) R' Hr). f_equal. lia. }
  cbn. unfold arrival_ref at 1. cbn.
  rewrite (Hm 0 R eq_refl), Nat.add_0_r. cbn.
  fold (arrival_ref m). by rewrite IH1, IH2.
Qed.

(** After loading, the loop invariant holds. *)
Lemma loaded_sim_inv (c : Cluster) (o : list Request) (s : Simulator) :
  loaded c o (length o) s →
  (∀ R, R ∈ o → (0 <= arrival_time R)%Q ∧ (0 <= output_tokens R)%Z) →
  (∀ j d, devices c !! j = Some d →
          dev_id d = Z.of_nat j ∧ (0 <= ttft_ms d)%Q ∧
          (0 < output_tokens_per_sec d)%Q) →
  sim_inv s.
Proof.
  intros [] Hreq Hdev. rewrite firstn_all in ld_events0.
  destruct (omap_arrival_events (requests_map s) o 0) as [Harr Hfree].
  { intros r R HR. apply ld_registered0; [by eapply lookup_lt_Some|done]. }
  constructor.
  - done.
  - rewrite ld_events0, ld_time0. apply Forall_fmap, Forall_forall.
    intros R HR. by apply Hreq.
  - rewrite ld_objs0. intros i r Hi. by apply ld_map0.
  - rewrite ld_objs0. intros r R HR.
    apply ld_registered0; [by eapply lookup_lt_Some|done].
  - by rewrite ld_cluster0.
  - rewrite ld_objs0. intros r R HR. apply Hreq.
    by eapply list_elem_of_lookup_2.
  - rewrite ld_events0. apply Forall_fmap, Forall_lookup.
    intros r R HR. split; [|done]. intros _.
    exists r, R. rewrite ld_objs0. split; [|split; [done|apply Qle_refl]].
    apply ld_registered0; [by eapply lookup_lt_Some|done].
  - by rewrite ld_waiting0.
  - by rewrite ld_completed0.
  - unfold pending. rewrite ld_waiting0, app_nil_r, ld_events0, Harr.
    apply NoDup_seq.
  - unfold running. rewrite ld_completed0. intros r _.
    rewrite ld_events0, Hfree. split; apply not_elem_of_nil.
Qed.

(** * Timing of completed requests *)

(** C3: run the simulator on requests with distinct ids, non-negative
    arrival times and non-negative output token counts, on devices with
    non-negative time-to-first-token and positive decode rate (each carrying
    its index as id, as the Cluster constructor makes them).  At the end of
    the run every request of the completed ledger has
    arrival time <= start time <= completion time.  The run does end, with
    an empty event queue, when the token counts are in the range of a float;
    beyond it the division in [calculate_duration] raises OverflowError in
    the code, which the model with exact rationals does not show, and there
    is no end of the run to speak of. *)
Theorem run_completed_timing (c : Cluster) (reqs : list Request) :
  NoDup (req_id <$> reqs) →
  (∀ R, R ∈ reqs → (0 <= arrival_time R)%Q ∧ (0 <= output_tokens R)%Z) →
  (∀ j d, devices c !! j = Some d →
          dev_id d = Z.of_nat j ∧ (0 <= ttft_ms d)%Q ∧
          (0 < output_tokens_per_sec d)%Q) →
  (∀ s, run (Simulator_init c reqs) (seq 0 (length reqs)) = Ok s →
        ∀ r, r ∈ completed_requests s →
             ∃ R, objs s !! r = Some R ∧
                  (arrival_time R <= start_time R)%Q ∧
                  (start_time R <= completion_time R)%Q) ∧
  ((∀ R, R ∈ reqs → binary64.int_fits_float (output_tokens R) = true) →
   ∃ s, run (Simulator_init c reqs) (seq 0 (length reqs)) = Ok s ∧
        events s = []).
Proof.
  intros Hnd Hreq Hdev.
  assert (∃ s, run (Simulator_init c reqs) (seq 0 (length reqs)) = Ok s ∧
               events s = [] ∧
               ∀ r, r ∈ completed_requests s →
                    ∃ R, objs s !! r = Some R ∧
                         (arrival_time R <= start_time R)%Q ∧
                         (start_time R <= completion_time R)%Q)
    as (s & Hrun & Hev & Hc).
  { unfold run.
    destruct (load_requests_loaded c reqs (length reqs) 0
                (Simulator_init c reqs) Hnd (le_n _) (loaded_init c reqs))
      as (s0 & -> & Hl).
    result_simpl.
    pose proof (loaded_sim_inv c reqs s0 Hl Hreq Hdev) as Hinv0.
    destruct (run_loop_inv (run_bound s0) s0 Hinv0 (le_n _))
      as (s & -> & Hinv & Hev).
    exists s. split; [done|]. split; [done|].
    intros r Hr.
    pose proof (inv_completed s Hinv) as Hc. rewrite Forall_forall in Hc.
    destruct (Hc r Hr) as (R & HR & Ha & Hs). by exists R. }
  split.
  - intros s' Hs'. rewrite Hrun in Hs'. injection Hs' as <-. exact Hc.
  - intros _. by exists s.
Qed.

Lemma run_completed_timing_witness :
  (∀ s, run (Simulator_init (mkCluster [fresh_device 100 50 0] 0)
               [Request_init 0 0 50 100; Request_init 1 (1 # 10) 50 100])
            (seq 0 2) = Ok s →
        ∀ r, r ∈ completed_requests s →
             ∃ R, objs s !! r = Some R ∧
                  (arrival_time R <= start_time R)%Q ∧
                  (start_time R <= completion_time R)%Q) ∧
  ((∀ R, R ∈ [Request_init 0 0 50 100; Request_init 1 (1 # 10) 50 100] →
         binary64.int_fits_float (output_tokens R) = true) →
   ∃ s, run (Simulator_init (mkCluster [fresh_device 100 50 0] 0)
               [Request_init 0 0 50 100; Request_init 1 (1 # 10) 50 100])
            (seq 0 2) = Ok s ∧
        events s = []).
Proof.
  apply (run_completed_timing (mkCluster [fresh_device 100 50 0] 0)
           [Request_init 0 0 50 100; Request_init 1 (1 # 10) 50 100]).
  - simpl. apply NoDup_cons. split; [|apply NoDup_singleton].
    intros H. apply list_elem_of_singleton in H. discriminate H.
  - intros R HR. apply elem_of_cons in HR as [->|HR].
    + simpl. split; [lra|lia].
    + apply list_elem_of_singleton in HR as ->. simpl. split; [lra|lia].
  - intros j d Hd. destruct j as [|j]; [|destruct j; discriminate Hd].
    injection Hd as <-. simpl. split; [reflexivity|]. split; lra.
Defined.

(** * The capacity search

    The search as the specification words it, to be compared with
    [find_max_rpm]. *)

(** A candidate load is sustainable when the realized throughput is at least
    0.95 times the offered load and the average latency is at most the
    caller's threshold. *)
Definition sustainable (max_latency offered : Q) (d : Stats) : bool :=
  Qle_bool (offered * (95 # 100)) (throughput_rpm d)
  && Qle_bool (avg_latency_sec d) max_latency.






(** The test of [find_max_rpm] is the negation of [sustainable]. *)
Lemma unsustainable_test (thr mid : Q) (d : Stats) :
  Qltb (throughput_rpm d) (mid * (95 # 100)) || Qltb thr (avg_latency_sec d)
  = negb (sustainable thr mid d).
Proof. unfold sustainable, Qltb. by rewrite negb_andb. Qed.







(** C6 fails: one device with service time 2 s has theoretical maximum
    30 requests/minute.  With every random draw equal to 1/100 (arrivals
    in quick succession), the default latency threshold of 5 s and an
    evaluation duration of 1/10 minute, the search returns more than 30. *)
Lemma capacity_estimate_above_theoretical_max :
  match theoretical_max_rpm (mkCapacityFinder 1 1000 100 128 100),
        find_max_rpm (fun _ => 1 # 100) (mkCapacityFinder 1 1000 100 128 100)
          5 (1 # 10) 0
  with
  | Ok R, Ok (estimate, _) => (R == 30)%Q ∧ (R < estimate)%Q
  | _, _ => False
  end.
Proof. vm_compute. split; reflexivity. Qed.

(** * Work done by the devices

    With identical devices and requests of one size, every service takes the
    same time [S].  The busy time accumulated by a device never exceeds the
    time at which it is next free, so [n] completed requests need
    [n * S <= (number of devices) * (end time)]. *)

(** The device a completion event will free. *)
Definition free_dev (e : Event) : option Z :=
  if is_free e then device_id e else None.
Definition free_devs (evs : list Event) : list Z := omap free_dev evs.

Definition total_busy (ds : list Device) : Q :=
  foldr (fun d acc => (total_busy_time d + acc)%Q) 0%Q ds.

Definition Qnat (n : nat) : Q := inject_Z (Z.of_nat n).

Record work_core (D : Q) (N : nat) (s : Simulator) : Prop := mk_work_core {
  w_devices : length (devices (cluster s)) = N;
  w_nodup : NoDup (free_devs (events s));
  w_busy :
    ∀ j d, devices (cluster s) !! j = Some d → is_busy d = true →
           Z.of_nat j ∈ free_devs (events s);
  w_event :
    ∀ e, e ∈ events s → is_free e = true →
         ∃ j d, device_id e = Some (Z.of_nat j) ∧
                devices (cluster s) !! j = Some d ∧ is_busy d = true ∧
                (total_busy_time d <= timestamp e)%Q;
  w_idle :
    ∀ j d, devices (cluster s) !! j = Some d → is_busy d = false →
           (total_busy_time d <= current_time s)%Q;
  w_total :
    (total_busy (devices (cluster s))
     == D * Qnat (length (free_devs (events s))
                  + length (completed_requests s)))%Q;
  w_uniform :
    ∀ j d r R, devices (cluster s) !! j = Some d → objs s !! r = Some R →
               (service_time d R == D)%Q }.

Lemma Qnat_S (n : nat) : (Qnat (S n) == Qnat n + 1)%Q.
Proof.
  unfold Qnat. rewrite Nat2Z.inj_succ, <- Z.add_1_r, inject_Z_plus. reflexivity.
Qed.

Lemma Qnat_add (n m : nat) : (Qnat (n + m) == Qnat n + Qnat m)%Q.
Proof. unfold Qnat. by rewrite Nat2Z.inj_add, inject_Z_plus. Qed.

Lemma Qnat_nonneg (n : nat) : (0 <= Qnat n)%Q.
Proof. unfold Qnat, Qle. simpl. lia. Qed.

Lemma elem_of_free_devs (z : Z) (evs : list Event) :
  z ∈ free_devs evs ↔
  ∃ e, e ∈ evs ∧ is_free e = true ∧ device_id e = Some z.
Proof.
  unfold free_devs. rewrite list_elem_of_omap. unfold free_dev. split.
  - intros (e & He & Hz). exists e. split; [done|].
    destruct (is_free e); [done|discriminate Hz].
  - intros (e & He & Hf & Hd). exists e. split; [done|]. by rewrite Hf.
Qed.

Lemma total_busy_alter (f : Device → Device) (ds : list Device) (j : nat)
    (d : Device) :
  ds !! j = Some d →
  (total_busy (alter f j ds)
   == total_busy ds + (total_busy_time (f d) - total_busy_time d))%Q.
Proof.
  revert j. induction ds as [|d0 ds IH]; intros [|j] Hj; try done.
  - injection Hj as ->. cbn [alter list_alter total_busy foldr].
    fold (total_busy ds). lra.
  - simpl in Hj. cbn [alter list_alter total_busy foldr].
    fold (total_busy ds). fold (total_busy (alter f j ds)).
    rewrite (IH j Hj). lra.
Qed.

Lemma total_busy_bound (ds : list Device) (T : Q) :
  (∀ d, d ∈ ds → (total_busy_time d <= T)%Q) →
  (total_busy ds <= Qnat (length ds) * T)%Q.
Proof.
  induction ds as [|d ds IH]; intros H.
  - cbn [total_busy foldr length]. change (Qnat 0) with 0%Q. lra.
  - cbn [total_busy foldr length]. fold (total_busy ds).
    rewrite Qnat_S.
    assert (total_busy_time d <= T)%Q by (apply H; by left).
    assert (total_busy ds <= Qnat (length ds) * T)%Q.
    { apply IH. intros d' Hd'. apply H. by right. }
    lra.
Qed.

Lemma service_time_fields (d d' : Device) (R R' : Request) :
  ttft_ms d' = ttft_ms d →
  output_tokens_per_sec d' = output_tokens_per_sec d →
  output_tokens R' = output_tokens R →
  service_time d' R' = service_time d R.
Proof. unfold service_time. by intros -> -> ->. Qed.

(** Popping an event that frees no device, and moving the clock on. *)
Lemma core_pop_other (D : Q) (N : nat) (s : Simulator) (e : Event) (h : list Event)
    (t : Q) :
  work_core D N s → events s ≡ₚ e :: h → free_dev e = None →
  (current_time s <= t)%Q →
  work_core D N (set_current_time t (set_events h s)).
Proof.
  intros [Hlen Hnd Hbusy Hev Hidle Htot Huni] Hperm He Ht.
  assert (free_devs (events s) ≡ₚ free_devs h) as Hfd.
  { unfold free_devs. rewrite Hperm. cbn. by rewrite He. }
  constructor; cbn.
  - done.
  - by rewrite <- Hfd.
  - intros j d Hd Hb. rewrite <- Hfd. by apply (Hbusy j d).
  - intros e' He' Hf. apply Hev; [|done]. rewrite Hperm. by right.
  - intros j d Hd Hb. pose proof (Hidle j d Hd Hb). lra.
  - by rewrite <- Hfd.
  - done.
Qed.

Lemma core_waiting (D : Q) (N : nat) (s : Simulator) (q : list nat) :
  work_core D N s → work_core D N (set_waiting_queue q s).
Proof. intros []. by constructor. Qed.

(** Popping a completion event, recording the completion and freeing the
    device. *)
Lemma core_complete (D : Q) (N : nat) (s : Simulator) (e : Event) (h : list Event)
    (j r : nat) (f : Request → Request) :
  work_core D N s → events s ≡ₚ e :: h →
  is_free e = true → device_id e = Some (Z.of_nat j) →
  (current_time s <= timestamp e)%Q →
  (∀ R, output_tokens (f R) = output_tokens R) →
  work_core D N
    (update_device free_device j
       (set_completed_requests (completed_requests s ++ [r])
          (update_request f r
             (set_current_time (timestamp e) (set_events h s))))).
Proof.
  intros [Hlen Hnd Hbusy Hev Hidle Htot Huni] Hperm Hf Hd Ht Hout.
  assert (free_devs (events s) ≡ₚ Z.of_nat j :: free_devs h) as Hfd.
  { unfold free_devs. rewrite Hperm. cbn. unfold free_dev at 1.
    by rewrite Hf, Hd. }
  rewrite Hfd in Hnd. apply NoDup_cons in Hnd as [Hj Hnd].
  destruct (Hev e) as (j' & d & Hd' & Hdj & Hb & Htbt);
    [rewrite Hperm; by left|done|].
  rewrite Hd in Hd'. injection Hd' as Hjj%Nat2Z.inj. subst j'.
  constructor; cbn.
  - by rewrite length_alter.
  - done.
  - intros j0 d0' (d0 & Hd0 & ->)%lookup_alter_Some Hb0.
    destruct (decide (j0 = j)) as [->|Hne]; [done|].
    pose proof (Hbusy j0 d0 Hd0 Hb0) as Hin. rewrite Hfd in Hin.
    apply elem_of_cons in Hin as [Heq|Hin]; [|done].
    apply Nat2Z.inj in Heq. done.
  - intros e' He' Hf'.
    destruct (Hev e') as (j0 & d0 & Hd0 & Hdj0 & Hb0 & Ht0);
      [rewrite Hperm; by right|done|].
    exists j0, d0. split; [done|]. split; [|done].
    rewrite list_lookup_alter_ne; [done|].
    intros <-. apply Hj. apply elem_of_free_devs. by exists e'.
  - intros j0 d0' (d0 & Hd0 & ->)%lookup_alter_Some Hb0.
    destruct (decide (j0 = j)) as [->|Hne].
    + simplify_eq. done.
    + pose proof (Hidle j0 d0 Hd0 Hb0). lra.
  - rewrite (total_busy_alter free_device _ j d Hdj).
    change (total_busy_time (free_device d)) with (total_busy_time d).
    rewrite Htot.
    apply Permutation_length in Hfd. rewrite Hfd, length_app. cbn [length].
    unfold free_devs.
    replace (length (omap free_dev h) + (length (completed_requests s) + 1))
      with (S (length (omap free_dev h)) + length (completed_requests s))
      by lia.
    lra.
  - intros j0 d0' r0 R0' (d0 & Hd0 & ->)%lookup_alter_Some
      (R0 & HR0 & ->)%lookup_alter_Some.
    rewrite <- (Huni j0 d0 r0 R0 Hd0 HR0).
    erewrite service_time_fields; [reflexivity|..].
    + by destruct (decide (j0 = j)).
    + by destruct (decide (j0 = j)).
    + by destruct (decide (r0 = r)).
Qed.

(** Starting a request on an idle device. *)
Lemma core_start (D : Q) (N : nat) (s : Simulator) (j r : nat) (d : Device)
    (R : Request) (h : list Event) :
  work_core D N s →
  devices (cluster s) !! j = Some d → is_busy d = false →
  dev_id d = Z.of_nat j → objs s !! r = Some R →
  h ≡ₚ mkEvent (current_time s + service_time d R) DEVICE_FREE (req_id R)
         (Some (dev_id d)) :: events s →
  work_core D N (set_events h (started s j r d R)).
Proof.
  intros [Hlen Hnd Hbusy Hev Hidle Htot Huni] Hd Hidle_d Hid HR Hperm.
  destruct (started_fields s j r d R h)
    as (Hevs & Htime & _ & Hcompl & _ & Hobjs & Hdevs).
  set (s' := set_events h (started s j r d R)) in *.
  assert (free_devs h ≡ₚ Z.of_nat j :: free_devs (events s)) as Hfd.
  { unfold free_devs. rewrite Hperm. cbn. unfold free_dev at 1. cbn.
    by rewrite Hid. }
  assert (Z.of_nat j ∉ free_devs (events s)) as Hj.
  { intros (e & He & Hf & Hde)%elem_of_free_devs.
    destruct (Hev e He Hf) as (j' & d' & Hd' & Hdj' & Hb' & _).
    rewrite Hde in Hd'. injection Hd' as Hjj%Nat2Z.inj. subst j'.
    simplify_eq. congruence. }
  pose proof (Huni j d r R Hd HR) as Hdur.
  assert (devices (cluster s') !! j
          = Some (add_busy_time (service_time d R) (start_device r d)))
    as Hdj.
  { rewrite Hdevs, !list_lookup_alter_eq, Hd. done. }
  constructor.
  - by rewrite Hdevs, !length_alter.
  - rewrite Hevs, Hfd. by apply NoDup_cons.
  - rewrite Hevs, Hdevs.
    intros j0 d0' (d1 & (d0 & Hd0 & ->)%lookup_alter_Some & ->)%lookup_alter_Some Hb.
    rewrite Hfd.
    destruct (decide (j0 = j)) as [->|Hne]; [by left|].
    right. by apply (Hbusy j0 d0).
  - rewrite Hevs. intros e He Hf. rewrite Hperm in He.
    apply elem_of_cons in He as [->|He].
    + exists j, (add_busy_time (service_time d R) (start_device r d)).
      split; [cbn; by rewrite Hid|]. split; [done|]. split; [done|].
      cbn. pose proof (Hidle j d Hd Hidle_d). lra.
    + destruct (Hev e He Hf) as (j0 & d0 & Hd0 & Hdj0 & Hb0 & Ht0).
      exists j0, d0. split; [done|]. split; [|done].
      rewrite Hdevs, !list_lookup_alter_ne; [done|..];
        intros <-; simplify_eq; congruence.
  - rewrite Hdevs, Htime.
    intros j0 d0' (d1 & (d0 & Hd0 & ->)%lookup_alter_Some & ->)%lookup_alter_Some Hb.
    destruct (decide (j0 = j)) as [->|Hne]; [done|].
    by apply (Hidle j0 d0).
  - rewrite Hdevs, Hevs, Hcompl.
    rewrite (total_busy_alter _ _ j (start_device r d))
      by (by rewrite list_lookup_alter_eq, Hd).
    rewrite (total_busy_alter _ _ j d Hd). cbn [add_busy_time start_device
      total_busy_time].
    rewrite Htot. apply Permutation_length in Hfd. rewrite Hfd.
    cbn [length].
    replace (S (length (free_devs (events s))) + length (completed_requests s))
      with (S (length (free_devs (events s)) + length (completed_requests s)))
      by lia.
    rewrite Qnat_S. lra.
  - rewrite Hdevs, Hobjs.
    intros j0 d0' r0 R0'
      (d1 & (d0 & Hd0 & ->)%lookup_alter_Some & ->)%lookup_alter_Some
      (R0 & HR0 & ->)%lookup_alter_Some.
    rewrite <- (Huni j0 d0 r0 R0 Hd0 HR0).
    erewrite service_time_fields; [reflexivity|..].
    + by destruct (decide (j0 = j)).
    + by destruct (decide (j0 = j)).
    + by destruct (decide (r0 = r)).
Qed.

(** One iteration of the loop keeps the work invariant. *)
Lemma loop_body_core (D : Q) (N : nat) (s s' : Simulator) :
  sim_inv s → work_core D N s → loop_body s = Ok s' → work_core D N s'.
Proof.
  intros Hinv Hcore Hbody. unfold loop_body in Hbody.
  destruct (heappop event_lt (events s)) as [[e h]|] eqn:Hpop;
    [|discriminate Hbody].
  result_simpl_in Hbody.
  destruct (sim_inv_pop s e h Hinv Hpop)
    as (Hinv1 & Hperm & [Ha Hf] & Hnow & Harrival & Hfree).
  set (s1 := set_current_time (timestamp e) (set_events h s)) in *.
  fold (is_arrival e) in Hbody. fold (is_free e) in Hbody.
  destruct (is_arrival e) eqn:Earr.
  - assert (work_core D N s1) as Hcore1.
    { apply (core_pop_other D N s e h); [done|done| |done].
      unfold free_dev. by rewrite (is_arrival_not_free e Earr). }
    destruct (Ha eq_refl) as (r & R & Hr & HR & Hle).
    unfold handle_arrival, lookup_request in Hbody.
    change (requests_map s1) with (requests_map s) in Hbody.
    rewrite Hr in Hbody. result_simpl_in Hbody.
    destruct (get_next_device (cluster s1)) as [j|] eqn:Hdev.
    + destruct (get_next_device_Some _ _ Hdev) as (d & Hd & Hidle).
      destruct (inv_devices s1 Hinv1 j d Hd) as (Hid & _ & Hrate).
      destruct (_start_job_spec s1 j r d R (inv_heap s1 Hinv1) Hd HR Hrate)
        as (h' & Heq & _ & Hperm').
      rewrite Heq in Hbody. injection Hbody as <-.
      by apply core_start.
    + injection Hbody as <-. by apply core_waiting.
  - destruct (is_free e) eqn:Efree.
    + destruct (Hf eq_refl) as (r & R & j & Hr & HR & Hdid & Hj & Ht).
      assert (r ∉ pending s1) as Hp.
      { apply Hfree. unfold free_ref. by rewrite Efree. }
      unfold handle_completion, lookup_request in Hbody.
      change (requests_map s1) with (requests_map s) in Hbody.
      rewrite Hr, Hdid in Hbody. result_simpl_in Hbody.
      destruct (lookup_lt_is_Some_2 _ _ Hj) as [d Hd].
      change (cluster s1) with (cluster s) in Hbody.
      rewrite (getitem_int_nat _ _ _ Hd) in Hbody. result_simpl_in Hbody.
      pose proof (core_complete D N s e h j r
                    (set_completion_time (timestamp e)) Hcore Hperm Efree Hdid
                    Hnow (fun _ => eq_refl)) as Hcore2.
      destruct (sim_inv_complete s1 r j R Hinv1 HR Ht Hp)
        as (Hinv2 & _ & Hw2 & _ & Hlen2).
      cbv zeta in Hinv2, Hw2, Hlen2.
      set (s2 := update_device free_device j
                   (set_completed_requests (completed_requests s ++ [r])
                      (update_request (set_completion_time (timestamp e)) r
                         s1))) in *.
      change (update_device free_device j
                (set_completed_requests
                   (completed_requests
                      (update_request (set_completion_time (current_time s1))
                         r s1) ++ [r])
                   (update_request (set_completion_time (current_time s1)) r
                      s1)))
        with s2 in Hbody.
      destruct (waiting_queue s2) as [|r2 rest] eqn:Hw.
      * by injection Hbody as <-.
      * destruct (sim_inv_dequeue s2 r2 rest Hinv2 Hw)
          as (Hinv3 & (R2 & HR2 & _) & _).
        assert (devices (cluster s2) !! j = Some (free_device d)) as Hd2.
        { cbn. by rewrite list_lookup_alter_eq, Hd. }
        destruct (inv_devices s2 Hinv2 j _ Hd2) as (Hid2 & _ & Hrate2).
        destruct (_start_job_spec (set_waiting_queue rest s2) j r2
                    (free_device d) R2 (inv_heap _ Hinv3) Hd2 HR2 Hrate2)
          as (h' & Heq & _ & Hperm').
        rewrite Heq in Hbody. injection Hbody as <-.
        apply core_start; [by apply core_waiting|done..].
    + injection Hbody as <-.
      apply (core_pop_other D N s e h); [done|done| |done].
      unfold free_dev. by rewrite Efree.
Qed.

Lemma run_loop_core (D : Q) (N : nat) (n : nat) (s s' : Simulator) :
  sim_inv s → work_core D N s → run_loop n s = Ok s' → work_core D N s'.
Proof.
  revert s. induction n as [|n IH]; intros s Hinv Hcore Hrun.
  - by injection Hrun as <-.
  - cbn [run_loop] in Hrun.
    revert Hrun. destruct (events s) as [|e h] eqn:He; intros Hrun;
      [by injection Hrun as <-|].
    destruct (loop_body_inv s Hinv) as (s1 & Hbody & Hinv1 & _);
      [by rewrite He|].
    rewrite Hbody in Hrun. result_simpl_in Hrun.
    apply (IH s1); [done| |done].
    exact (loop_body_core D N s s1 Hinv Hcore Hbody).
Qed.

(** When the queue is empty every device is idle, so the work done fits in
    the elapsed time. *)
Lemma work_core_final (D : Q) (N : nat) (s : Simulator) :
  work_core D N s → events s = [] →
  (D * Qnat (length (completed_requests s))
   <= Qnat N * current_time s)%Q.
Proof.
  intros [Hlen Hnd Hbusy Hev Hidle Htot Huni] He.
  rewrite He in Htot, Hbusy. cbn in Htot. rewrite <- Htot, <- Hlen.
  apply total_busy_bound.
  intros d [j Hd]%list_elem_of_lookup.
  apply (Hidle j d Hd).
  destruct (is_busy d) eqn:Hb; [|done].
  by destruct (not_elem_of_nil _ (Hbusy j d Hd Hb)).
Qed.

(** * Capacity search: the workload *)

Lemma float_div_inv (x y q : Q) :
  float_div x y = Ok q → ¬ (y == 0)%Q ∧ q = (x / y)%Q.
Proof.
  unfold float_div. destruct (Qeq_bool y 0) eqn:E; [done|].
  intros [= <-]. split; [|done].
  intros H. apply Qeq_bool_iff in H. congruence.
Qed.

Lemma Qdiv_nonneg (x y : Q) : (0 <= x)%Q → (0 < y)%Q → (0 <= x / y)%Q.
Proof. intros Hx Hy. apply Qle_shift_div_l; lra. Qed.

Lemma workload_loop_spec (draws : nat → Q) (cf : CapacityFinder) (rps : Q)
    (ids : list Z) (t0 : Q) (k : nat) :
  (∀ i, 0 <= draws i)%Q → (0 < rps)%Q → (0 <= t0)%Q →
  ∃ reqs,
    workload_loop draws cf rps ids t0 k = Ok (reqs, k + length ids) ∧
    req_id <$> reqs = ids ∧
    Forall (fun R => (0 <= arrival_time R)%Q ∧
                     output_tokens R = cf_output_tokens cf) reqs.
Proof.
  intros Hdraws Hrps. revert t0 k.
  induction ids as [|i ids IH]; intros t0 k Ht0.
  - exists []. rewrite Nat.add_0_r. done.
  - cbn [workload_loop]. unfold expovariate.
    rewrite float_div_Ok by lra. result_simpl.
    assert (0 <= t0 + draws k / rps)%Q as Ht1.
    { pose proof (Qdiv_nonneg (draws k) rps (Hdraws k) Hrps). lra. }
    destruct (IH (t0 + draws k / rps)%Q (S k) Ht1) as (reqs & -> & Hids & Hall).
    result_simpl. eexists. split.
    + do 2 f_equal. simpl. lia.
    + split; [cbn; by rewrite Hids|]. constructor; [done|done].
Qed.

Lemma NoDup_range (n : Z) : NoDup (range n).
Proof.
  unfold range. apply NoDup_fmap; [apply Nat2Z.inj'|apply NoDup_seq].
Qed.

Lemma generate_workload_spec (draws : nat → Q) (cf : CapacityFinder)
    (rpm dur : Q) (k : nat) :
  (∀ i, 0 <= draws i)%Q → (0 < rpm)%Q →
  ∃ reqs k',
    generate_workload draws cf rpm dur k = Ok (reqs, k') ∧
    NoDup (req_id <$> reqs) ∧
    Forall (fun R => (0 <= arrival_time R)%Q ∧
                     output_tokens R = cf_output_tokens cf) reqs.
Proof.
  intros Hdraws Hrpm. unfold generate_workload.
  destruct (int_of_float (rpm * dur) =? 0)%Z.
  - exists [], k. split; [done|]. split; [apply NoDup_nil_2|constructor].
  - rewrite float_div_Ok by lra. result_simpl.
    destruct (workload_loop_spec draws cf (rpm / 60)%Q
                (range (int_of_float (rpm * dur))) 0 k Hdraws)
      as (reqs & Heq & Hids & Hall); [apply Qlt_shift_div_l; lra|lra|].
    exists reqs, (k + length (range (int_of_float (rpm * dur)))).
    split; [done|]. split; [|done]. rewrite Hids. apply NoDup_range.
Qed.

(** * Capacity search: one evaluation *)

Lemma free_devs_arrival_events (l : list Request) :
  free_devs (arrival_event <$> l) = [].
Proof. induction l as [|R l IH]; [done|]. cbn. apply IH. Qed.

Lemma total_busy_zero (ds : list Device) :
  (∀ d, d ∈ ds → total_busy_time d = 0%Q) → (total_busy ds == 0)%Q.
Proof.
  induction ds as [|d ds IH]; intros H; [reflexivity|].
  cbn [total_busy foldr]. fold (total_busy ds).
  rewrite (H d) by (by left). rewrite IH; [lra|].
  intros d' Hd'. apply H. by right.
Qed.

(** After loading, on devices that are idle and have not worked yet, the
    work invariant holds. *)
Lemma loaded_work_core (D : Q) (c : Cluster) (o : list Request)
    (s : Simulator) :
  loaded c o (length o) s →
  (∀ d, d ∈ devices c → is_busy d = false ∧ total_busy_time d = 0%Q) →
  (∀ d R, d ∈ devices c → R ∈ o → (service_time d R == D)%Q) →
  work_core D (length (devices c)) s.
Proof.
  intros [Hc Ho Ht Hw Hcm Hh He Hm Hr] Hfresh Huni. rewrite firstn_all in He.
  assert (free_devs (events s) = []) as Hfd.
  { apply Permutation_nil_r. unfold free_devs. rewrite He.
    fold (free_devs (arrival_event <$> o)).
    by rewrite free_devs_arrival_events. }
  constructor.
  - by rewrite Hc.
  - rewrite Hfd. apply NoDup_nil_2.
  - rewrite Hc. intros j d Hd Hb.
    destruct (Hfresh d) as [Hidle _]; [by eapply list_elem_of_lookup_2|].
    congruence.
  - intros e Hin_e Hf. exfalso.
    rewrite He in Hin_e. apply list_elem_of_fmap in Hin_e as (R & -> & _).
    discriminate Hf.
  - rewrite Hc, Ht. intros j d Hd _.
    destruct (Hfresh d) as [_ ->]; [by eapply list_elem_of_lookup_2|]. lra.
  - rewrite Hc, Hfd, Hcm. cbn [length].
    change (Qnat (0 + 0)) with 0%Q.
    rewrite total_busy_zero; [lra|]. intros d Hd. by apply Hfresh.
  - rewrite Hc, Ho. intros j d r R Hd HR.
    apply Huni; by eapply list_elem_of_lookup_2.
Qed.

(** A run on fresh devices with requests of one service time [D]: [n]
    completed requests took at least [n * D / (number of devices)]. *)
Lemma run_work (D : Q) (c : Cluster) (reqs : list Request) :
  NoDup (req_id <$> reqs) →
  (∀ R, R ∈ reqs → (0 <= arrival_time R)%Q ∧ (0 <= output_tokens R)%Z) →
  (∀ j d, devices c !! j = Some d →
          dev_id d = Z.of_nat j ∧ (0 <= ttft_ms d)%Q ∧
          (0 < output_tokens_per_sec d)%Q) →
  (∀ d, d ∈ devices c → is_busy d = false ∧ total_busy_time d = 0%Q) →
  (∀ d R, d ∈ devices c → R ∈ reqs → (service_time d R == D)%Q) →
  ∃ s, run (Simulator_init c reqs) (seq 0 (length reqs)) = Ok s ∧
       events s = [] ∧
       (D * Qnat (length (completed_requests s))
        <= Qnat (length (devices c)) * current_time s)%Q.
Proof.
  intros Hnd Hreq Hdev Hfresh Huni. unfold run.
  destruct (load_requests_loaded c reqs (length reqs) 0 (Simulator_init c reqs)
              Hnd (le_n _) (loaded_init c reqs))
    as (s0 & -> & Hl).
  rewrite bind_Ok.
  pose proof (loaded_sim_inv c reqs s0 Hl Hreq Hdev) as Hinv0.
  pose proof (loaded_work_core D c reqs s0 Hl Hfresh Huni) as Hcore0.
  destruct (run_loop_inv (run_bound s0) s0 Hinv0 (le_n _))
    as (s & Hrun & Hinv & Hev).
  exists s. split; [done|]. split; [done|].
  apply work_core_final; [|done].
  by apply (run_loop_core D _ (run_bound s0) s0 s).
Qed.

Lemma get_stats_dict (s : Simulator) (d : Stats) :
  get_stats s = Ok (StatsDict d) →
  completed_requests s ≠ [] ∧
  throughput_rpm d
  = (Qnat (length (completed_requests s))
     / (if Qltb 0 (current_time s) then current_time s else 1) * 60)%Q.
Proof.
  unfold get_stats. destruct (completed_requests s) as [|r0 rest]; [done|].
  cbv zeta. rewrite length_fmap.
  destruct (float_div (float_sum _) _) as [avg|]; [|done]. rewrite bind_Ok.
  destruct (float_div (inject_Z _) _) as [q|] eqn:Hq; [|done].
  rewrite bind_Ok.
  intros [= <-]. split; [done|]. cbn [throughput_rpm].
  apply float_div_inv in Hq as [_ ->]. done.
Qed.

Lemma Qnat_pos (n : nat) : 0 < n → (1 <= Qnat n)%Q.
Proof. intros Hn. unfold Qnat, Qle. simpl. lia. Qed.

Lemma throughput_bound (D T : Q) (n N : nat) :
  (0 < D)%Q → 0 < n → (D * Qnat n <= Qnat N * T)%Q →
  (Qnat n / (if Qltb 0 T then T else 1) * 60 <= Qnat N / D * 60)%Q.
Proof.
  intros HD Hn Hwork.
  pose proof (Qnat_pos n Hn) as Hn1. pose proof (Qnat_nonneg N) as HN.
  assert (0 < T)%Q as HT.
  { destruct (Qlt_le_dec 0 T) as [|Hle]; [done|]. exfalso.
    assert (Qnat N * T <= 0)%Q by nra. nra. }
  apply Qltb_lt in HT as Hb. rewrite Hb.
  assert (Qnat n / T <= Qnat N / D)%Q; [|lra].
  apply Qle_shift_div_r; [done|].
  assert (Qnat N / D * T == Qnat N * T / D)%Q as -> by (field; lra).
  apply Qle_shift_div_l; [done|]. lra.
Qed.

(** The Cluster that [run_simulation] builds. *)
Lemma fresh_cluster_devices (n : Z) (t r : Q) :
  let ds := fresh_device t r <$> range n in
  length ds = Z.to_nat n ∧
  (∀ j d, ds !! j = Some d → d = fresh_device t r (Z.of_nat j)).
Proof.
  cbv zeta. unfold range. split.
  - by rewrite !length_fmap, length_seq.
  - intros j d Hd. rewrite <- list_fmap_compose, list_lookup_fmap in Hd.
    destruct (seq 0 (Z.to_nat n) !! j) as [i|] eqn:Hi; [|done].
    apply lookup_seq in Hi as [-> _]. by injection Hd as <-.
Qed.

(** Whatever the draws, the throughput that a simulation realizes is at most
    the theoretical maximum. *)
Lemma run_simulation_throughput (draws : nat → Q) (cf : CapacityFinder)
    (rpm dur : Q) (k : nat) (R : Q) (d : Stats) (k' : nat) :
  (∀ i, 0 <= draws i)%Q →
  (0 <= num_devices cf)%Z → (0 <= cf_ttft_ms cf)%Q →
  (0 < cf_output_tokens_per_sec cf)%Q → (0 <= cf_output_tokens cf)%Z →
  (0 < rpm)%Q →
  theoretical_max_rpm cf = Ok R →
  run_simulation draws cf rpm dur k = Ok (StatsDict d, k') →
  (throughput_rpm d <= R)%Q.
Proof.
  intros Hdraws HN Httft Hrate Hout Hrpm HR Hsim.
  unfold theoretical_max_rpm in HR.
  rewrite (float_div_Ok _ (cf_output_tokens_per_sec cf)) in HR by lra.
  rewrite bind_Ok in HR.
  rewrite (float_div_Ok _ 1000) in HR by lra. rewrite bind_Ok in HR.
  cbv zeta in HR.
  set (D := (cf_ttft_ms cf / 1000
             + inject_Z (cf_output_tokens cf) / cf_output_tokens_per_sec cf)%Q)
    in *.
  destruct (float_div (inject_Z (num_devices cf)) D) as [q|] eqn:Hq;
    [|done].
  rewrite bind_Ok in HR. injection HR as <-.
  apply float_div_inv in Hq as [HD0 ->].
  assert (0 <= D)%Q as HD1.
  { subst D. pose proof (Qdiv_nonneg (cf_ttft_ms cf) 1000).
    pose proof (Qdiv_nonneg (inject_Z (cf_output_tokens cf))
                  (cf_output_tokens_per_sec cf)).
    assert (0 <= inject_Z (cf_output_tokens cf))%Q
      by (unfold Qle; simpl; lia).
    lra. }
  assert (0 < D)%Q as HD by lra.
  unfold run_simulation in Hsim. rewrite Cluster_init_Ok, bind_Ok in Hsim.
  destruct (generate_workload_spec draws cf rpm dur k Hdraws Hrpm)
    as (reqs & k1 & Hgen & Hnd & Hreqs).
  rewrite Hgen, bind_Ok in Hsim.
  set (c := mkCluster (fresh_device (cf_ttft_ms cf)
                         (cf_output_tokens_per_sec cf)
                       <$> range (num_devices cf)) 0) in *.
  destruct (fresh_cluster_devices (num_devices cf) (cf_ttft_ms cf)
              (cf_output_tokens_per_sec cf)) as [Hlen Hfresh].
  rewrite Forall_forall in Hreqs.
  destruct (run_work D c reqs Hnd) as (s & Hrun & Hev & Hwork).
  - intros R0 HR0. destruct (Hreqs R0 HR0) as [? ->]. done.
  - intros j d0 Hd0. by rewrite (Hfresh j d0 Hd0).
  - intros d0 [j Hd0]%list_elem_of_lookup. by rewrite (Hfresh j d0 Hd0).
  - intros d0 R0 [j Hd0]%list_elem_of_lookup HR0.
    rewrite (Hfresh j d0 Hd0). unfold service_time. cbn.
    destruct (Hreqs R0 HR0) as [_ ->]. reflexivity.
  - rewrite Hrun, bind_Ok in Hsim.
    destruct (get_stats s) as [st|] eqn:Hst; [|done].
    rewrite bind_Ok in Hsim. injection Hsim as -> _.
    apply get_stats_dict in Hst as [Hne ->].
    assert (inject_Z (num_devices cf) = Qnat (length (devices c))) as ->.
    { cbn [c devices]. rewrite Hlen. unfold Qnat. by rewrite Z2Nat.id. }
    apply throughput_bound; [done| |done].
    destruct (completed_requests s); [done|simpl; lia].
Qed.

(** * All requests complete

    With at least one device, no request is left waiting when the event
    queue is empty. *)

Record queue_inv (n : nat) (s : Simulator) : Prop := mk_queue_inv {
  q_waiting :
    waiting_queue s ≠ [] →
    ∀ d, d ∈ devices (cluster s) → is_busy d = true;
  q_count :
    length (pending s) + length (free_devs (events s))
    + length (completed_requests s) = n }.

Lemma length_omap_Permutation {A B : Type} (f : A → option B) (l l' : list A) :
  l ≡ₚ l' → length (omap f l) = length (omap f l').
Proof. intros H. apply Permutation_length. by rewrite H. Qed.

Lemma loop_body_queue (n : nat) (s s' : Simulator) :
  sim_inv s → queue_inv n s → loop_body s = Ok s' → queue_inv n s'.
Proof.
  intros Hinv [Hq1 Hq2] Hbody. unfold loop_body in Hbody.
  destruct (heappop event_lt (events s)) as [[e h]|] eqn:Hpop;
    [|discriminate Hbody].
  result_simpl_in Hbody.
  destruct (sim_inv_pop s e h Hinv Hpop)
    as (Hinv1 & Hperm & [Ha Hf] & Hnow & Harrival & Hfree).
  set (s1 := set_current_time (timestamp e) (set_events h s)) in *.
  fold (is_arrival e) in Hbody. fold (is_free e) in Hbody.
  unfold pending, free_devs in Hq2.
  rewrite length_app, (length_omap_Permutation (arrival_ref _) _ _ Hperm),
    (length_omap_Permutation free_dev _ _ Hperm) in Hq2.
  cbn [omap list_omap] in Hq2. fold (free_devs h) in Hq2.
  destruct (is_arrival e) eqn:Earr.
  - pose proof (is_arrival_not_free e Earr) as Efree.
    destruct (Ha eq_refl) as (r & R & Hr & HR & Hle).
    unfold arrival_ref at 1 in Hq2. unfold free_dev at 1 in Hq2.
    rewrite Earr, Efree, Hr in Hq2. cbn [length app] in Hq2.
    unfold handle_arrival, lookup_request in Hbody.
    change (requests_map s1) with (requests_map s) in Hbody.
    rewrite Hr in Hbody. result_simpl_in Hbody.
    destruct (get_next_device (cluster s1)) as [j|] eqn:Hdev.
    + destruct (get_next_device_Some _ _ Hdev) as (d & Hd & Hidle).
      destruct (inv_devices s1 Hinv1 j d Hd) as (Hid & _ & Hrate).
      destruct (_start_job_spec s1 j r d R (inv_heap s1 Hinv1) Hd HR Hrate)
        as (h' & Heq & _ & Hperm').
      rewrite Heq in Hbody. injection Hbody as <-.
      constructor.
      * intros Hw. exfalso.
        assert (is_busy d = true); [|congruence].
        apply Hq1; [done|]. by eapply list_elem_of_lookup_2.
      * unfold pending. cbn [events waiting_queue completed_requests
          requests_map set_events started update_device update_request
          set_cluster set_objs]. cbn [events set_current_time set_events] in Hperm'.
        unfold free_devs.
        rewrite length_app, (length_omap_Permutation (arrival_ref _) _ _ Hperm'),
          (length_omap_Permutation free_dev _ _ Hperm').
        cbn [omap list_omap]. fold (free_devs h).
        unfold arrival_ref at 1. unfold free_dev at 1. cbn.
        cbn in Hq2. unfold free_devs in *. lia.
    + injection Hbody as <-. constructor.
      * intros _. unfold get_next_device in Hdev.
        exact (proj1 (scan_devices_None _ _) Hdev).
      * unfold pending. cbn. rewrite ?length_app in *. cbn in *. unfold free_devs in *. lia.
  - destruct (is_free e) eqn:Efree.
    + destruct (Hf eq_refl) as (r & R & j & Hr & HR & Hdid & Hj & Ht).
      assert (r ∉ pending s1) as Hp.
      { apply Hfree. unfold free_ref. by rewrite Efree. }
      unfold arrival_ref at 1 in Hq2. unfold free_dev at 1 in Hq2.
      rewrite Earr, Efree, Hdid in Hq2. cbn [length app] in Hq2.
      unfold handle_completion, lookup_request in Hbody.
      change (requests_map s1) with (requests_map s) in Hbody.
      rewrite Hr, Hdid in Hbody. result_simpl_in Hbody.
      destruct (lookup_lt_is_Some_2 _ _ Hj) as [d Hd].
      change (cluster s1) with (cluster s) in Hbody.
      rewrite (getitem_int_nat _ _ _ Hd) in Hbody. result_simpl_in Hbody.
      destruct (sim_inv_complete s1 r j R Hinv1 HR Ht Hp)
        as (Hinv2 & _ & Hw2 & _ & Hlen2).
      cbv zeta in Hinv2, Hw2, Hlen2.
      set (s2 := update_device free_device j
                   (set_completed_requests (completed_requests s ++ [r])
                      (update_request (set_completion_time (timestamp e)) r
                         s1))) in *.
      change (update_device free_device j
                (set_completed_requests
                   (completed_requests
                      (update_request (set_completion_time (current_time s1))
                         r s1) ++ [r])
                   (update_request (set_completion_time (current_time s1)) r
                      s1)))
        with s2 in Hbody.
      change (waiting_queue s1) with (waiting_queue s) in Hw2.
      destruct (waiting_queue s2) as [|r2 rest] eqn:Hw.
      * injection Hbody as <-. constructor.
        -- by rewrite Hw.
        -- change (waiting_queue s = []) in Hw. rewrite Hw in Hq2.
           unfold pending. cbn. rewrite Hw, ?length_app. cbn in *.
           unfold free_devs in *. lia.
      * destruct (sim_inv_dequeue s2 r2 rest Hinv2 Hw)
          as (Hinv3 & (R2 & HR2 & _) & _).
        assert (devices (cluster s2) !! j = Some (free_device d)) as Hd2.
        { cbn. by rewrite list_lookup_alter_eq, Hd. }
        destruct (inv_devices s2 Hinv2 j _ Hd2) as (Hid2 & _ & Hrate2).
        destruct (_start_job_spec (set_waiting_queue rest s2) j r2
                    (free_device d) R2 (inv_heap _ Hinv3) Hd2 HR2 Hrate2)
          as (h' & Heq & _ & Hperm').
        rewrite Heq in Hbody. injection Hbody as <-. constructor.
        -- intros _ d0 [j0 Hd0]%list_elem_of_lookup.
           cbn in Hd0.
           apply lookup_alter_Some in Hd0 as (d1 & Hd1 & ->).
           apply lookup_alter_Some in Hd1 as (d2 & Hd2' & ->).
           apply lookup_alter_Some in Hd2' as (d3 & Hd3 & ->).
           destruct (decide (j0 = j)) as [->|Hne]; [done|].
           change (waiting_queue s = r2 :: rest) in Hw.
           apply Hq1; [by rewrite Hw|by eapply list_elem_of_lookup_2].
        -- unfold pending. cbn [events waiting_queue completed_requests
             requests_map set_events started update_device update_request
             set_cluster set_objs set_waiting_queue].
           cbn [events set_waiting_queue update_device set_cluster
             set_completed_requests update_request set_objs s2 s1
             set_current_time set_events] in Hperm'.
           unfold free_devs.
           rewrite length_app, (length_omap_Permutation (arrival_ref _) _ _ Hperm'),
             (length_omap_Permutation free_dev _ _ Hperm').
           cbn [omap list_omap]. fold (free_devs h).
           unfold arrival_ref at 1. unfold free_dev at 1. cbn.
           change (waiting_queue s = r2 :: rest) in Hw. rewrite Hw in Hq2.
           rewrite ?length_app. cbn in *. unfold free_devs in *. lia.
    + injection Hbody as <-.
      unfold arrival_ref at 1 in Hq2. unfold free_dev at 1 in Hq2.
      rewrite Earr, Efree in Hq2. constructor; [exact Hq1|].
      unfold pending, free_devs. rewrite length_app. exact Hq2.
Qed.

Lemma run_loop_queue (n0 n : nat) (s s' : Simulator) :
  sim_inv s → queue_inv n0 s → run_loop n s = Ok s' → queue_inv n0 s'.
Proof.
  revert s. induction n as [|n IH]; intros s Hinv Hq Hrun.
  - by injection Hrun as <-.
  - cbn [run_loop] in Hrun.
    revert Hrun. destruct (events s) as [|e h] eqn:He; intros Hrun;
      [by injection Hrun as <-|].
    destruct (loop_body_inv s Hinv) as (s1 & Hbody & Hinv1 & _);
      [by rewrite He|].
    rewrite Hbody in Hrun. result_simpl_in Hrun.
    apply (IH s1); [done| |done].
    exact (loop_body_queue n0 s s1 Hinv Hq Hbody).
Qed.

Lemma loaded_queue_inv (c : Cluster) (o : list Request) (s : Simulator) :
  loaded c o (length o) s → queue_inv (length o) s.
Proof.
  intros [Hc Ho Ht Hw Hcm Hh He Hm Hr]. rewrite firstn_all in He.
  constructor; [by rewrite Hw|].
  unfold pending, free_devs.
  rewrite Hw, Hcm, app_nil_r,
    (length_omap_Permutation (arrival_ref _) _ _ He),
    (length_omap_Permutation free_dev _ _ He).
  fold (free_devs (arrival_event <$> o)). rewrite free_devs_arrival_events.
  destruct (omap_arrival_events (requests_map s) o 0) as [-> _].
  { intros r R HR. apply Hr; [by eapply lookup_lt_Some|done]. }
  rewrite length_seq. cbn. lia.
Qed.

Lemma queue_final (D : Q) (N n : nat) (s : Simulator) :
  queue_inv n s → work_core D N s → events s = [] → 0 < N →
  length (completed_requests s) = n.
Proof.
  intros [Hq1 Hq2] [Hlen Hnd Hbusy Hev Hidle Htot Huni] He HN.
  unfold pending in Hq2. rewrite He in Hq2, Hbusy. cbn in Hq2.
  destruct (waiting_queue s) as [|r w] eqn:Hw; [cbn in Hq2; lia|]. exfalso.
  destruct (devices (cluster s)) as [|d ds] eqn:Hd; [cbn in Hlen; lia|].
  assert (is_busy d = true) as Hb by (apply Hq1; [done|left]).
  pose proof (Hbusy 0 d eq_refl Hb) as Hin.
  by apply elem_of_nil in Hin.
Qed.

Lemma run_complete (D : Q) (c : Cluster) (reqs : list Request) :
  NoDup (req_id <$> reqs) →
  (∀ R, R ∈ reqs → (0 <= arrival_time R)%Q ∧ (0 <= output_tokens R)%Z) →
  (∀ j d, devices c !! j = Some d →
          dev_id d = Z.of_nat j ∧ (0 <= ttft_ms d)%Q ∧
          (0 < output_tokens_per_sec d)%Q) →
  (∀ d, d ∈ devices c → is_busy d = false ∧ total_busy_time d = 0%Q) →
  (∀ d R, d ∈ devices c → R ∈ reqs → (service_time d R == D)%Q) →
  0 < length (devices c) →
  ∃ s, run (Simulator_init c reqs) (seq 0 (length reqs)) = Ok s ∧
       length (completed_requests s) = length reqs.
Proof.
  intros Hnd Hreq Hdev Hfresh Huni HN. unfold run.
  destruct (load_requests_loaded c reqs (length reqs) 0 (Simulator_init c reqs)
              Hnd (le_n _) (loaded_init c reqs))
    as (s0 & -> & Hl).
  rewrite bind_Ok.
  pose proof (loaded_sim_inv c reqs s0 Hl Hreq Hdev) as Hinv0.
  pose proof (loaded_work_core D c reqs s0 Hl Hfresh Huni) as Hcore0.
  pose proof (loaded_queue_inv c reqs s0 Hl) as Hq0.
  destruct (run_loop_inv (run_bound s0) s0 Hinv0 (le_n _))
    as (s & Hrun & Hinv & Hev).
  exists s. split; [done|].
  apply (queue_final D (length (devices c)) _ s); [| |done|done].
  - by apply (run_loop_queue _ (run_bound s0) s0 s).
  - by apply (run_loop_core D _ (run_bound s0) s0 s).
Qed.

Lemma int_of_float_pos (x : Q) : (1 <= x)%Q → (1 <= int_of_float x)%Z.
Proof.
  unfold Qle, int_of_float. simpl. intros H.
  apply Z.quot_le_lower_bound; lia.
Qed.

Lemma generate_workload_nonempty (draws : nat → Q) (cf : CapacityFinder)
    (rpm dur : Q) (k : nat) (reqs : list Request) (k' : nat) :
  (∀ i, 0 <= draws i)%Q → (0 < rpm)%Q → (1 <= rpm * dur)%Q →
  generate_workload draws cf rpm dur k = Ok (reqs, k') →
  0 < length reqs.
Proof.
  intros Hdraws Hrpm H1 Hgen. unfold generate_workload in Hgen.
  pose proof (int_of_float_pos _ H1) as Hn.
  destruct (Z.eqb_spec (int_of_float (rpm * dur)) 0) as [E|_]; [lia|].
  rewrite (float_div_Ok rpm 60) in Hgen by lra. rewrite bind_Ok in Hgen.
  destruct (workload_loop_spec draws cf (rpm / 60)%Q
              (range (int_of_float (rpm * dur))) 0 k Hdraws)
    as (reqs0 & Heq & Hids & _); [apply Qlt_shift_div_l; lra|lra|].
  rewrite Heq in Hgen. injection Hgen as <- _.
  apply (f_equal length) in Hids. rewrite length_fmap in Hids. rewrite Hids.
  unfold range. rewrite length_fmap, length_seq. lia.
Qed.

Lemma get_stats_nonempty (s : Simulator) :
  completed_requests s ≠ [] → ∃ d, get_stats s = Ok (StatsDict d).
Proof.
  unfold get_stats. destruct (completed_requests s) as [|r0 rest]; [done|].
  intros _. cbv zeta. rewrite length_fmap. cbn [length].
  assert (¬ (inject_Z (Z.of_nat (S (length rest))) == 0)%Q) as Hn.
  { unfold Qeq. simpl. lia. }
  rewrite (float_div_Ok _ _ Hn). result_simpl.
  rewrite float_div_Ok; [by eexists|].
  destruct (Qltb 0 (current_time s)) eqn:E; [|lra].
  apply Qltb_lt in E. lra.
Qed.

(** A simulation at an offered load of at least one request, on at least
    one device, returns a statistics record. *)
Lemma run_simulation_returns (draws : nat → Q) (cf : CapacityFinder)
    (rpm dur : Q) (k : nat) :
  (∀ i, 0 <= draws i)%Q →
  (0 < num_devices cf)%Z → (0 <= cf_ttft_ms cf)%Q →
  (0 < cf_output_tokens_per_sec cf)%Q → (0 <= cf_output_tokens cf)%Z →
  (0 < rpm)%Q → (1 <= rpm * dur)%Q →
  ∃ d k', run_simulation draws cf rpm dur k = Ok (StatsDict d, k').
Proof.
  intros Hdraws HN Httft Hrate Hout Hrpm H1.
  unfold run_simulation. rewrite Cluster_init_Ok, bind_Ok.
  destruct (generate_workload_spec draws cf rpm dur k Hdraws Hrpm)
    as (reqs & k1 & Hgen & Hnd & Hreqs).
  pose proof (generate_workload_nonempty draws cf rpm dur k reqs k1
                Hdraws Hrpm H1 Hgen) as Hlen_reqs.
  rewrite Hgen, bind_Ok.
  set (c := mkCluster (fresh_device (cf_ttft_ms cf)
                         (cf_output_tokens_per_sec cf)
                       <$> range (num_devices cf)) 0) in *.
  destruct (fresh_cluster_devices (num_devices cf) (cf_ttft_ms cf)
              (cf_output_tokens_per_sec cf)) as [Hlen Hfresh].
  rewrite Forall_forall in Hreqs.
  destruct (run_complete
              (cf_ttft_ms cf / 1000
               + inject_Z (cf_output_tokens cf) / cf_output_tokens_per_sec cf)
              c reqs Hnd) as (s & Hrun & Hall).
  - intros R0 HR0. destruct (Hreqs R0 HR0) as [? ->]. done.
  - intros j d0 Hd0. by rewrite (Hfresh j d0 Hd0).
  - intros d0 [j Hd0]%list_elem_of_lookup. by rewrite (Hfresh j d0 Hd0).
  - intros d0 R0 [j Hd0]%list_elem_of_lookup HR0.
    rewrite (Hfresh j d0 Hd0). unfold service_time. cbn.
    destruct (Hreqs R0 HR0) as [_ ->]. reflexivity.
  - cbn [c devices]. rewrite Hlen. lia.
  - rewrite Hrun, bind_Ok.
    destruct (get_stats_nonempty s) as [d Hd].
    { intros Hnil. rewrite Hnil in Hall. cbn in Hall. lia. }
    rewrite Hd, bind_Ok. by exists d, k1.
Qed.

(** * The capacity search: the bracket of the bisection *)

(** The invariant of the bisection loop.  The bracket is either ordered, or
    it is the initial one of a configuration whose bound is below the
    starting load 1. *)
Record search_inv (R : Q) (st : search_state) : Prop := mk_search_inv {
  si_low : (1 <= low st)%Q;
  si_high : (0 <= high st)%Q;
  si_bracket :
    (low st <= high st)%Q ∨
    ((low st == 1)%Q ∧ (R * (15 # 10) <= high st)%Q ∧ (high st < 1)%Q);
  si_best : (best_rpm st * (95 # 100) <= R)%Q }.

Lemma theoretical_max_rpm_Ok (cf : CapacityFinder) :
  (0 <= num_devices cf)%Z → (0 <= cf_ttft_ms cf)%Q →
  (0 < cf_output_tokens_per_sec cf)%Q → (0 < cf_output_tokens cf)%Z →
  ∃ R, theoretical_max_rpm cf = Ok R ∧ (0 <= R)%Q ∧
       (R == inject_Z (num_devices cf) * 60
             / (cf_ttft_ms cf / 1000
                + inject_Z (cf_output_tokens cf)
                  / cf_output_tokens_per_sec cf))%Q.
Proof.
  intros HN Httft Hrate Hout. unfold theoretical_max_rpm.
  rewrite (float_div_Ok _ (cf_output_tokens_per_sec cf)) by lra.
  rewrite bind_Ok.
  rewrite (float_div_Ok _ 1000) by lra. rewrite bind_Ok. cbv zeta.
  set (D := (cf_ttft_ms cf / 1000
             + inject_Z (cf_output_tokens cf) / cf_output_tokens_per_sec cf)%Q).
  assert (0 < D)%Q as HD.
  { subst D. pose proof (Qdiv_nonneg (cf_ttft_ms cf) 1000 Httft).
    assert (0 < inject_Z (cf_output_tokens cf))%Q
      by (unfold Qlt; simpl; lia).
    assert (0 < inject_Z (cf_output_tokens cf)
                / cf_output_tokens_per_sec cf)%Q
      by (apply Qlt_shift_div_l; lra).
    lra. }
  rewrite (float_div_Ok _ D) by lra. rewrite bind_Ok.
  assert (0 <= inject_Z (num_devices cf))%Q as HN'
    by (unfold Qle; simpl; lia).
  eexists. split; [reflexivity|]. split.
  - pose proof (Qdiv_nonneg _ D HN' HD). lra.
  - field. lra.
Qed.

Lemma search_inv_init (R : Q) (k : nat) :
  (0 <= R)%Q → search_inv R (mkSearch 1 (R * (15 # 10)) 0 k).
Proof.
  intros HR. constructor; cbn; [lra|lra| |lra].
  destruct (Qlt_le_dec (R * (15 # 10)) 1); [right|left]; lra.
Qed.

Lemma search_step_inv (draws : nat → Q) (cf : CapacityFinder)
    (thr dur R : Q) (st st' : search_state) :
  (∀ i, 0 <= draws i)%Q →
  (0 <= num_devices cf)%Z → (0 <= cf_ttft_ms cf)%Q →
  (0 < cf_output_tokens_per_sec cf)%Q → (0 <= cf_output_tokens cf)%Z →
  theoretical_max_rpm cf = Ok R →
  search_inv R st → search_step draws cf thr dur st = Ok st' →
  search_inv R st'.
Proof.
  intros Hdraws HN Httft Hrate Hout HR [Hlo Hhi Hbr Hbest] Hstep.
  unfold search_step in Hstep. cbv zeta in Hstep.
  remember ((low st + high st) / 2)%Q as mid eqn:Emid.
  assert (mid * 2 == low st + high st)%Q as Hmid by (rewrite Emid; field).
  clear Emid.
  destruct (run_simulation draws cf mid dur (rng st))
    as [[stats k1]|] eqn:Hsim; [|done].
  rewrite bind_Ok in Hstep. destruct stats as [msg|d]; [done|].
  cbn [stats_getitem] in Hstep. rewrite !bind_Ok in Hstep.
  rewrite unsustainable_test in Hstep.
  destruct (sustainable thr mid d) eqn:Hs;
    cbn [negb] in Hstep; injection Hstep as <-.
  - apply andb_true_iff in Hs as [Hs1 _]. apply Qle_bool_iff in Hs1.
    assert (0 < mid)%Q as Hpos by lra.
    pose proof (run_simulation_throughput draws cf mid dur (rng st) R d k1
                  Hdraws HN Httft Hrate Hout Hpos HR Hsim) as Hthr.
    constructor; cbn; [lra|lra| |lra].
    left. destruct Hbr as [Hbr|(H1 & H2 & H3)]; lra.
  - constructor; cbn; [lra|lra| |lra].
    destruct Hbr as [Hbr|(H1 & H2 & H3)]; [left|right]; lra.
Qed.

Lemma search_step_returns (draws : nat → Q) (cf : CapacityFinder)
    (thr dur R : Q) (st : search_state) :
  (∀ i, 0 <= draws i)%Q →
  (0 < num_devices cf)%Z → (0 <= cf_ttft_ms cf)%Q →
  (0 < cf_output_tokens_per_sec cf)%Q → (0 <= cf_output_tokens cf)%Z →
  (2 <= dur)%Q → search_inv R st →
  ∃ st', search_step draws cf thr dur st = Ok st'.
Proof.
  intros Hdraws HN Httft Hrate Hout Hdur [Hlo Hhi Hbr Hbest].
  unfold search_step. cbv zeta.
  remember ((low st + high st) / 2)%Q as mid eqn:Emid.
  assert (mid * 2 == low st + high st)%Q as Hmid by (rewrite Emid; field).
  clear Emid.
  assert (0 < mid)%Q as Hpos by lra.
  assert (1 <= mid * dur)%Q as Hone by nra.
  destruct (run_simulation_returns draws cf mid dur (rng st) Hdraws HN Httft
              Hrate Hout Hpos Hone) as (d & k' & ->).
  rewrite bind_Ok. cbn [stats_getitem]. rewrite !bind_Ok.
  destruct (_ || _); by eexists.
Qed.

Lemma search_loop_inv (n : nat) (draws : nat → Q) (cf : CapacityFinder)
    (thr dur R : Q) (st st' : search_state) :
  (∀ i, 0 <= draws i)%Q →
  (0 <= num_devices cf)%Z → (0 <= cf_ttft_ms cf)%Q →
  (0 < cf_output_tokens_per_sec cf)%Q → (0 <= cf_output_tokens cf)%Z →
  theoretical_max_rpm cf = Ok R →
  search_inv R st → search_loop n draws cf thr dur st = Ok st' →
  search_inv R st'.
Proof.
  intros Hdraws HN Httft Hrate Hout HR. revert st.
  induction n as [|n IH]; intros st Hinv Hloop.
  - by injection Hloop as <-.
  - cbn [search_loop] in Hloop.
    destruct (search_step draws cf thr dur st) as [st1|] eqn:Hstep; [|done].
    rewrite bind_Ok in Hloop. apply (IH st1); [|done].
    exact (search_step_inv draws cf thr dur R st st1 Hdraws HN Httft Hrate
             Hout HR Hinv Hstep).
Qed.

Lemma search_loop_returns (n : nat) (draws : nat → Q) (cf : CapacityFinder)
    (thr dur R : Q) (st : search_state) :
  (∀ i, 0 <= draws i)%Q →
  (0 < num_devices cf)%Z → (0 <= cf_ttft_ms cf)%Q →
  (0 < cf_output_tokens_per_sec cf)%Q → (0 <= cf_output_tokens cf)%Z →
  theoretical_max_rpm cf = Ok R →
  (2 <= dur)%Q → search_inv R st →
  ∃ st', search_loop n draws cf thr dur st = Ok st'.
Proof.
  intros Hdraws HN Httft Hrate Hout HR Hdur. revert st.
  induction n as [|n IH]; intros st Hinv; [by eexists|].
  cbn [search_loop].
  destruct (search_step_returns draws cf thr dur R st Hdraws HN Httft Hrate
              Hout Hdur Hinv) as [st1 Hstep].
  rewrite Hstep, bind_Ok. apply IH.
  apply (search_step_inv draws cf thr dur R st st1); try done. lia.
Qed.

(** With at least one device and a simulated duration of at least two
    minutes [find_max_rpm] returns an estimate: no simulation of the search
    is empty, so it raises neither TypeError nor ZeroDivisionError.  The
    configuration has a non-negative time-to-first-token, a positive decode
    rate and a positive number of output tokens, and the random draws are
    non-negative.  The device and token counts are in the range of a float,
    and the duration (minutes) and the theoretical maximum (requests per
    minute) are at most 2^20, which keeps the float computation of the
    candidates and of the clock far from overflow and from absorption. *)
Theorem find_max_rpm_returns (draws : nat → Q) (cf : CapacityFinder)
    (thr dur : Q) (k : nat) :
  (∀ i, 0 <= draws i)%Q →
  (0 < num_devices cf)%Z →
  binary64.int_fits_float (num_devices cf) = true →
  (0 <= cf_ttft_ms cf)%Q → (0 < cf_output_tokens_per_sec cf)%Q →
  (0 < cf_output_tokens cf)%Z →
  binary64.int_fits_float (cf_output_tokens cf) = true →
  (2 <= dur)%Q → (dur <= inject_Z (2 ^ 20))%Q →
  ∃ R,
    theoretical_max_rpm cf = Ok R ∧
    ((R <= inject_Z (2 ^ 20))%Q →
     ∃ estimate k', find_max_rpm draws cf thr dur k = Ok (estimate, k')).
Proof.
  intros Hdraws HN _ Httft Hrate Hout _ Hdur _.
  destruct (theoretical_max_rpm_Ok cf ltac:(lia) Httft Hrate Hout)
    as (R & HR & HR0 & _).
  assert (0 <= cf_output_tokens cf)%Z as Hout' by lia.
  pose proof (search_inv_init R k HR0) as Hinit.
  exists R. split; [done|]. intros _.
  unfold find_max_rpm. rewrite HR, bind_Ok. cbv zeta.
  destruct (search_loop_returns 10 draws cf thr dur R _ Hdraws HN Httft
              Hrate Hout' HR Hdur Hinit) as [st' ->].
  rewrite bind_Ok. by eexists _, _.
Qed.

Lemma find_max_rpm_returns_witness :
  ∃ R,
    theoretical_max_rpm (mkCapacityFinder 4 150 50 128 100) = Ok R ∧
    ((R <= inject_Z (2 ^ 20))%Q →
     ∃ estimate k',
       find_max_rpm (fun _ => 1 # 100) (mkCapacityFinder 4 150 50 128 100)
         5 2 0 = Ok (estimate, k')).
Proof.
  apply (find_max_rpm_returns (fun _ => 1 # 100)
           (mkCapacityFinder 4 150 50 128 100) 5 2 0).
  - intros _. lra.
  - simpl. lia.
  - vm_compute. reflexivity.
  - simpl. lra.
  - simpl. lra.
  - simpl. lia.
  - vm_compute. reflexivity.
  - lra.
  - vm_compute. discriminate.
Defined.

(** The recorded best of the search is never negative: it is 0 or a
    candidate, and every candidate is at least 1/2. *)
Lemma search_step_best (draws : nat → Q) (cf : CapacityFinder)
    (thr dur : Q) (st st' : search_state) :
  (1 <= low st)%Q → (0 <= high st)%Q → (0 <= best_rpm st)%Q →
  search_step draws cf thr dur st = Ok st' → (0 <= best_rpm st')%Q.
Proof.
  intros Hlo Hhi Hb Hstep. unfold search_step in Hstep. cbv zeta in Hstep.
  remember ((low st + high st) / 2)%Q as mid eqn:Emid.
  assert (mid * 2 == low st + high st)%Q as Hmid by (rewrite Emid; field).
  clear Emid.
  destruct (run_simulation draws cf mid dur (rng st))
    as [[stats k1]|]; [|done].
  rewrite bind_Ok in Hstep. destruct stats as [msg|d]; [done|].
  cbn [stats_getitem] in Hstep. rewrite !bind_Ok in Hstep.
  destruct (_ || _); injection Hstep as <-; cbn; lra.
Qed.

Lemma search_loop_best (n : nat) (draws : nat → Q) (cf : CapacityFinder)
    (thr dur R : Q) (st st' : search_state) :
  (∀ i, 0 <= draws i)%Q →
  (0 <= num_devices cf)%Z → (0 <= cf_ttft_ms cf)%Q →
  (0 < cf_output_tokens_per_sec cf)%Q → (0 <= cf_output_tokens cf)%Z →
  theoretical_max_rpm cf = Ok R →
  search_inv R st → (0 <= best_rpm st)%Q →
  search_loop n draws cf thr dur st = Ok st' →
  (0 <= best_rpm st')%Q.
Proof.
  intros Hdraws HN Httft Hrate Hout HR. revert st.
  induction n as [|n IH]; intros st Hinv Hb Hloop.
  - by injection Hloop as <-.
  - cbn [search_loop] in Hloop.
    destruct (search_step draws cf thr dur st) as [st1|] eqn:Hstep; [|done].
    rewrite bind_Ok in Hloop. apply (IH st1); [| |done].
    + exact (search_step_inv draws cf thr dur R st st1 Hdraws HN Httft Hrate
               Hout HR Hinv Hstep).
    + exact (search_step_best draws cf thr dur st st1 (si_low R st Hinv)
               (si_high R st Hinv) Hb Hstep).
Qed.

(** C6 (amended): the estimate of the capacity search is not bounded by the
    theoretical maximum R, it is bounded by 1.06 x R.  For every
    configuration with a non-negative device count and time-to-first-token,
    a positive decode rate and a positive number of output tokens, and every
    outcome of the (non-negative) random draws, the code computes R, and
    every estimate that [find_max_rpm] returns satisfies
    0 <= estimate <= 1.06 x R: a candidate is recorded only when the
    throughput realized at it, which is at most R, reaches 0.95 times the
    candidate.  In exact arithmetic this gives 0.95 x estimate <= R; the
    constant 1.06 leaves room for the rounding of the float computation,
    for which the device and token counts are in the range of a float and
    the duration (minutes) and R (requests per minute) are at most 2^20. *)
Theorem capacity_estimate_tolerance (draws : nat → Q) (cf : CapacityFinder)
    (thr dur : Q) (k : nat) :
  (∀ i, 0 <= draws i)%Q →
  (0 <= num_devices cf)%Z →
  binary64.int_fits_float (num_devices cf) = true →
  (0 <= cf_ttft_ms cf)%Q → (0 < cf_output_tokens_per_sec cf)%Q →
  (0 < cf_output_tokens cf)%Z →
  binary64.int_fits_float (cf_output_tokens cf) = true →
  (dur <= inject_Z (2 ^ 20))%Q →
  ∃ R,
    theoretical_max_rpm cf = Ok R ∧ (0 <= R)%Q ∧
    ((R <= inject_Z (2 ^ 20))%Q →
     ∀ estimate k',
       find_max_rpm draws cf thr dur k = Ok (estimate, k') →
       (0 <= estimate)%Q ∧ (estimate <= R * (106 # 100))%Q).
Proof.
  intros Hdraws HN _ Httft Hrate Hout _ _.
  destruct (theoretical_max_rpm_Ok cf HN Httft Hrate Hout)
    as (R & HR & HR0 & _).
  assert (0 <= cf_output_tokens cf)%Z as Hout' by lia.
  pose proof (search_inv_init R k HR0) as Hinit.
  exists R. split; [done|]. split; [done|].
  intros _ estimate k' Hfind. unfold find_max_rpm in Hfind.
  rewrite HR, bind_Ok in Hfind. cbv zeta in Hfind.
  destruct (search_loop 10 draws cf thr dur
              (mkSearch 1 (R * (15 # 10)) 0 k)) as [st'|] eqn:Hloop;
    [|done].
  rewrite bind_Ok in Hfind. injection Hfind as <- _.
  pose proof (si_best R st'
                (search_loop_inv 10 draws cf thr dur R _ st' Hdraws HN Httft
                   Hrate Hout' HR Hinit Hloop)) as Hbest.
  assert (0 <= best_rpm st')%Q as Hnn.
  { apply (search_loop_best 10 draws cf thr dur R _ st' Hdraws HN Httft
             Hrate Hout' HR Hinit); [cbn; lra|done]. }
  split; [done|lra].
Qed.

Lemma capacity_estimate_tolerance_witness :
  ∃ R,
    theoretical_max_rpm (mkCapacityFinder 1 1000 100 128 100) = Ok R ∧
    (0 <= R)%Q ∧
    ((R <= inject_Z (2 ^ 20))%Q →
     ∀ estimate k',
       find_max_rpm (fun _ => 1 # 100) (mkCapacityFinder 1 1000 100 128 100)
         5 (1 # 10) 0 = Ok (estimate, k') →
       (0 <= estimate)%Q ∧ (estimate <= R * (106 # 100))%Q).
Proof.
  apply (capacity_estimate_tolerance (fun _ => 1 # 100)
           (mkCapacityFinder 1 1000 100 128 100) 5 (1 # 10) 0).
  - intros _. lra.
  - simpl. lia.
  - vm_compute. reflexivity.
  - simpl. lra.
  - simpl. lra.
  - simpl. lia.
  - vm_compute. reflexivity.
  - unfold Qle. simpl. lia.
Defined.

(** * One iteration of the loop, case by case

    Under the invariant an iteration of the [while self.events] loop is one
    of five steps: an arrival that starts on an idle device, an arrival that
    joins the waiting queue, a completion with an empty waiting queue, a
    completion that starts the head of the waiting queue on the freed
    device, and an event of another kind. *)

(** The state after the pop and the clock update. *)
Definition popped (e : Event) (h : list Event) (s : Simulator) : Simulator :=
  set_current_time (timestamp e) (set_events h s).

(** The state after [handle_completion] has recorded the completion of [r]
    and freed device [j]. *)
Definition completed_on (e : Event) (h : list Event) (r j : nat)
    (s : Simulator) : Simulator :=
  update_device free_device j
    (set_completed_requests (completed_requests s ++ [r])
       (update_request (set_completion_time (timestamp e)) r (popped e h s))).

Inductive step (s : Simulator) : Simulator → Prop :=
  | step_start (e : Event) (h h' : list Event) (r j : nat) (R : Request)
      (d : Device) :
      events s ≡ₚ e :: h → (current_time s <= timestamp e)%Q →
      is_arrival e = true →
      requests_map s !! request_id e = Some r → objs s !! r = Some R →
      (arrival_time R <= timestamp e)%Q →
      get_next_device (cluster s) = Some j →
      devices (cluster s) !! j = Some d → is_busy d = false →
      dev_id d = Z.of_nat j →
      h' ≡ₚ mkEvent (timestamp e + service_time d R) DEVICE_FREE (req_id R)
              (Some (dev_id d)) :: h →
      step s (set_events h' (started (popped e h s) j r d R))
  | step_wait (e : Event) (h : list Event) (r : nat) (R : Request) :
      events s ≡ₚ e :: h → (current_time s <= timestamp e)%Q →
      is_arrival e = true →
      requests_map s !! request_id e = Some r → objs s !! r = Some R →
      (arrival_time R <= timestamp e)%Q →
      get_next_device (cluster s) = None →
      step s (set_waiting_queue (waiting_queue s ++ [r]) (popped e h s))
  | step_free (e : Event) (h : list Event) (r j : nat) (R : Request)
      (d : Device) :
      events s ≡ₚ e :: h → (current_time s <= timestamp e)%Q →
      is_arrival e = false → is_free e = true →
      requests_map s !! request_id e = Some r → objs s !! r = Some R →
      device_id e = Some (Z.of_nat j) →
      devices (cluster s) !! j = Some d →
      timed R (timestamp e) →
      waiting_queue s = [] →
      step s (completed_on e h r j s)
  | step_next (e : Event) (h h' : list Event) (r j : nat) (R : Request)
      (d : Device) (r2 : nat) (rest : list nat) (R2 : Request) :
      events s ≡ₚ e :: h → (current_time s <= timestamp e)%Q →
      is_arrival e = false → is_free e = true →
      requests_map s !! request_id e = Some r → objs s !! r = Some R →
      device_id e = Some (Z.of_nat j) →
      devices (cluster s) !! j = Some d →
      timed R (timestamp e) →
      waiting_queue s = r2 :: rest →
      objs (completed_on e h r j s) !! r2 = Some R2 →
      (arrival_time R2 <= timestamp e)%Q →
      h' ≡ₚ mkEvent (timestamp e + service_time (free_device d) R2)
              DEVICE_FREE (req_id R2) (Some (dev_id d)) :: h →
      step s (set_events h'
                (started (set_waiting_queue rest (completed_on e h r j s))
                   j r2 (free_device d) R2))
  | step_other (e : Event) (h : list Event) :
      events s ≡ₚ e :: h → (current_time s <= timestamp e)%Q →
      is_arrival e = false → is_free e = false →
      step s (popped e h s).

Lemma loop_body_step (s s' : Simulator) :
  sim_inv s → loop_body s = Ok s' → step s s'.
Proof.
  intros Hinv Hbody. unfold loop_body in Hbody.
  destruct (heappop event_lt (events s)) as [[e h]|] eqn:Hpop;
    [|discriminate Hbody].
  result_simpl_in Hbody.
  destruct (sim_inv_pop s e h Hinv Hpop)
    as (Hinv1 & Hperm & [Ha Hf] & Hnow & Harrival & Hfree).
  fold (popped e h s) in Hbody, Hinv1.
  fold (is_arrival e) in Hbody. fold (is_free e) in Hbody.
  destruct (is_arrival e) eqn:Earr.
  - destruct (Ha eq_refl) as (r & R & Hr & HR & Hle).
    unfold handle_arrival, lookup_request in Hbody.
    change (requests_map (popped e h s)) with (requests_map s) in Hbody.
    rewrite Hr in Hbody. result_simpl_in Hbody.
    change (cluster (popped e h s)) with (cluster s) in Hbody.
    destruct (get_next_device (cluster s)) as [j|] eqn:Hdev.
    + destruct (get_next_device_Some _ _ Hdev) as (d & Hd & Hidle).
      destruct (inv_devices s Hinv j d Hd) as (Hid & _ & Hrate).
      destruct (_start_job_spec (popped e h s) j r d R
                  (inv_heap _ Hinv1) Hd HR Hrate)
        as (h' & Heq & _ & Hperm').
      rewrite Heq in Hbody. injection Hbody as <-.
      by eapply step_start.
    + injection Hbody as <-. by eapply step_wait.
  - destruct (is_free e) eqn:Efree.
    + destruct (Hf eq_refl) as (r & R & j & Hr & HR & Hdid & Hj & Ht).
      assert (r ∉ pending (popped e h s)) as Hp.
      { apply Hfree. unfold free_ref. by rewrite Efree. }
      unfold handle_completion, lookup_request in Hbody.
      change (requests_map (popped e h s)) with (requests_map s) in Hbody.
      rewrite Hr, Hdid in Hbody. result_simpl_in Hbody.
      destruct (lookup_lt_is_Some_2 _ _ Hj) as [d Hd].
      change (cluster (popped e h s)) with (cluster s) in Hbody.
      rewrite (getitem_int_nat _ _ _ Hd) in Hbody. result_simpl_in Hbody.
      destruct (sim_inv_complete (popped e h s) r j R Hinv1 HR Ht Hp)
        as (Hinv2 & _ & _ & _ & _).
      cbv zeta in Hinv2.
      change (update_device free_device j
                (set_completed_requests
                   (completed_requests
                      (update_request
                         (set_completion_time (current_time (popped e h s)))
                         r (popped e h s)) ++ [r])
                   (update_request
                      (set_completion_time (current_time (popped e h s))) r
                      (popped e h s))))
        with (completed_on e h r j s) in Hbody, Hinv2.
      destruct (waiting_queue (completed_on e h r j s)) as [|r2 rest] eqn:Hw.
      * injection Hbody as <-. by eapply step_free.
      * destruct (sim_inv_dequeue _ r2 rest Hinv2 Hw)
          as (Hinv3 & (R2 & HR2 & Hle2) & _).
        assert (devices (cluster (completed_on e h r j s)) !! j
                = Some (free_device d)) as Hd2.
        { cbn. by rewrite list_lookup_alter_eq, Hd. }
        destruct (inv_devices _ Hinv2 j _ Hd2) as (Hid2 & _ & Hrate2).
        destruct (_start_job_spec
                    (set_waiting_queue rest (completed_on e h r j s)) j r2
                    (free_device d) R2 (inv_heap _ Hinv3) Hd2 HR2 Hrate2)
          as (h' & Heq & _ & Hperm').
        rewrite Heq in Hbody. injection Hbody as <-.
        by eapply step_next.
    + injection Hbody as <-. by eapply step_other.
Qed.

(** An invariant of the steps holds when the loop ends. *)
Lemma run_loop_ind (P : Simulator → Prop) :
  (∀ s s', sim_inv s → P s → step s s' → P s') →
  ∀ n s s', sim_inv s → P s → run_loop n s = Ok s' → P s'.
Proof.
  intros Hstep n. induction n as [|n IH]; intros s s' Hinv HP Hrun.
  - by injection Hrun as <-.
  - cbn [run_loop] in Hrun.
    revert Hrun. destruct (events s) as [|e h] eqn:He; intros Hrun;
      [by injection Hrun as <-|].
    destruct (loop_body_inv s Hinv) as (s1 & Hbody & Hinv1 & _);
      [by rewrite He|].
    rewrite Hbody in Hrun. result_simpl_in Hrun.
    apply (IH s1 s'); [done| |done].
    apply (Hstep s s1); [done|done|]. by apply loop_body_step.
Qed.

(** [run] on well-formed input returns, with an empty event queue, in a
    state that satisfies every invariant of the steps that holds once the
    requests are loaded. *)
Lemma run_ind (P : Simulator → Prop) (c : Cluster) (reqs : list Request) :
  NoDup (req_id <$> reqs) →
  (∀ R, R ∈ reqs → (0 <= arrival_time R)%Q ∧ (0 <= output_tokens R)%Z) →
  (∀ j d, devices c !! j = Some d →
          dev_id d = Z.of_nat j ∧ (0 <= ttft_ms d)%Q ∧
          (0 < output_tokens_per_sec d)%Q) →
  (∀ s0, loaded c reqs (length reqs) s0 → P s0) →
  (∀ s s', sim_inv s → P s → step s s' → P s') →
  ∃ s, run (Simulator_init c reqs) (seq 0 (length reqs)) = Ok s ∧
       sim_inv s ∧ events s = [] ∧ P s.
Proof.
  intros Hnd Hreq Hdev Hinit Hstep. unfold run.
  destruct (load_requests_loaded c reqs (length reqs) 0 (Simulator_init c reqs)
              Hnd (le_n _) (loaded_init c reqs))
    as (s0 & -> & Hl).
  rewrite bind_Ok.
  pose proof (loaded_sim_inv c reqs s0 Hl Hreq Hdev) as Hinv0.
  destruct (run_loop_inv (run_bound s0) s0 Hinv0 (le_n _))
    as (s & Hrun & Hinv & Hev).
  exists s. split; [done|]. split; [done|]. split; [done|].
  apply (run_loop_ind P Hstep (run_bound s0) s0 s); [done| |done].
  by apply Hinit.
Qed.

(** * Devices: busy exactly while a completion is scheduled *)

Record busy_inv (s : Simulator) : Prop := mk_busy_inv {
  b_nodup : NoDup (free_devs (events s));
  b_busy :
    ∀ j d, devices (cluster s) !! j = Some d → is_busy d = true →
           Z.of_nat j ∈ free_devs (events s);
  b_event :
    ∀ e, e ∈ events s → is_free e = true →
         ∃ j d, device_id e = Some (Z.of_nat j) ∧
                devices (cluster s) !! j = Some d ∧ is_busy d = true ∧
                (total_busy_time d <= timestamp e)%Q;
  b_idle :
    ∀ j d, devices (cluster s) !! j = Some d → is_busy d = false →
           current_request d = None ∧
           (total_busy_time d <= current_time s)%Q;
  b_nonneg :
    ∀ j d, devices (cluster s) !! j = Some d → (0 <= total_busy_time d)%Q }.

Lemma busy_pop_other (s : Simulator) (e : Event) (h : list Event) :
  busy_inv s → events s ≡ₚ e :: h → free_dev e = None →
  (current_time s <= timestamp e)%Q →
  busy_inv (popped e h s).
Proof.
  intros [Hnd Hbusy Hev Hidle Hnn] Hperm He Ht.
  assert (free_devs (events s) ≡ₚ free_devs h) as Hfd.
  { unfold free_devs. rewrite Hperm. cbn. by rewrite He. }
  constructor; cbn.
  - by rewrite <- Hfd.
  - intros j d Hd Hb. rewrite <- Hfd. by apply (Hbusy j d).
  - intros e' He' Hf. apply Hev; [|done]. rewrite Hperm. by right.
  - intros j d Hd Hb. destruct (Hidle j d Hd Hb). split; [done|lra].
  - done.
Qed.

Lemma busy_waiting (s : Simulator) (q : list nat) :
  busy_inv s → busy_inv (set_waiting_queue q s).
Proof. intros [Hnd Hbusy Hev Hidle Hnn]. by constructor. Qed.

Lemma busy_complete (s : Simulator) (e : Event) (h : list Event) (j r : nat) :
  busy_inv s → events s ≡ₚ e :: h →
  is_free e = true → device_id e = Some (Z.of_nat j) →
  (current_time s <= timestamp e)%Q →
  busy_inv (completed_on e h r j s).
Proof.
  intros [Hnd Hbusy Hev Hidle Hnn] Hperm Hf Hd Ht.
  assert (free_devs (events s) ≡ₚ Z.of_nat j :: free_devs h) as Hfd.
  { unfold free_devs. rewrite Hperm. cbn. unfold free_dev at 1.
    by rewrite Hf, Hd. }
  rewrite Hfd in Hnd. apply NoDup_cons in Hnd as [Hj Hnd].
  destruct (Hev e) as (j' & d & Hd' & Hdj & Hb & Htbt);
    [rewrite Hperm; by left|done|].
  rewrite Hd in Hd'. injection Hd' as Hjj%Nat2Z.inj. subst j'.
  constructor; cbn.
  - done.
  - intros j0 d0' (d0 & Hd0 & ->)%lookup_alter_Some Hb0.
    destruct (decide (j0 = j)) as [->|Hne]; [done|].
    pose proof (Hbusy j0 d0 Hd0 Hb0) as Hin. rewrite Hfd in Hin.
    apply elem_of_cons in Hin as [Heq|Hin]; [|done].
    apply Nat2Z.inj in Heq. done.
  - intros e' He' Hf'.
    destruct (Hev e') as (j0 & d0 & Hd0 & Hdj0 & Hb0 & Ht0);
      [rewrite Hperm; by right|done|].
    exists j0, d0. split; [done|]. split; [|done].
    rewrite list_lookup_alter_ne; [done|].
    intros <-. apply Hj. apply elem_of_free_devs. by exists e'.
  - intros j0 d0' (d0 & Hd0 & ->)%lookup_alter_Some Hb0.
    destruct (decide (j0 = j)) as [->|Hne].
    + simplify_eq. done.
    + destruct (Hidle j0 d0 Hd0 Hb0). split; [done|lra].
  - intros j0 d0' (d0 & Hd0 & ->)%lookup_alter_Some.
    pose proof (Hnn j0 d0 Hd0). by destruct (decide (j0 = j)).
Qed.

Lemma busy_start (s : Simulator) (j r : nat) (d : Device) (R : Request)
    (h : list Event) :
  busy_inv s →
  devices (cluster s) !! j = Some d → is_busy d = false →
  dev_id d = Z.of_nat j → (0 <= service_time d R)%Q →
  h ≡ₚ mkEvent (current_time s + service_time d R) DEVICE_FREE (req_id R)
         (Some (dev_id d)) :: events s →
  busy_inv (set_events h (started s j r d R)).
Proof.
  intros [Hnd Hbusy Hev Hidle Hnn] Hd Hidle_d Hid Hdur Hperm.
  destruct (started_fields s j r d R h)
    as (Hevs & Htime & _ & Hcompl & _ & Hobjs & Hdevs).
  set (s' := set_events h (started s j r d R)) in *.
  assert (free_devs h ≡ₚ Z.of_nat j :: free_devs (events s)) as Hfd.
  { unfold free_devs. rewrite Hperm. cbn. unfold free_dev at 1. cbn.
    by rewrite Hid. }
  assert (Z.of_nat j ∉ free_devs (events s)) as Hj.
  { intros (e & He & Hf & Hde)%elem_of_free_devs.
    destruct (Hev e He Hf) as (j' & d' & Hd' & Hdj' & Hb' & _).
    rewrite Hde in Hd'. injection Hd' as Hjj%Nat2Z.inj. subst j'.
    simplify_eq. congruence. }
  assert (devices (cluster s') !! j
          = Some (add_busy_time (service_time d R) (start_device r d)))
    as Hdj.
  { rewrite Hdevs, !list_lookup_alter_eq, Hd. done. }
  constructor.
  - rewrite Hevs, Hfd. by apply NoDup_cons.
  - rewrite Hevs, Hdevs.
    intros j0 d0' (d1 & (d0 & Hd0 & ->)%lookup_alter_Some & ->)%lookup_alter_Some Hb.
    rewrite Hfd.
    destruct (decide (j0 = j)) as [->|Hne]; [by left|].
    right. by apply (Hbusy j0 d0).
  - rewrite Hevs. intros e He Hf. rewrite Hperm in He.
    apply elem_of_cons in He as [->|He].
    + exists j, (add_busy_time (service_time d R) (start_device r d)).
      split; [cbn; by rewrite Hid|]. split; [done|]. split; [done|].
      cbn. destruct (Hidle j d Hd Hidle_d). lra.
    + destruct (Hev e He Hf) as (j0 & d0 & Hd0 & Hdj0 & Hb0 & Ht0).
      exists j0, d0. split; [done|]. split; [|done].
      rewrite Hdevs, !list_lookup_alter_ne; [done|..];
        intros <-; simplify_eq; congruence.
  - rewrite Hdevs, Htime.
    intros j0 d0' (d1 & (d0 & Hd0 & ->)%lookup_alter_Some & ->)%lookup_alter_Some Hb.
    destruct (decide (j0 = j)) as [->|Hne]; [done|].
    by apply (Hidle j0 d0).
  - rewrite Hdevs.
    intros j0 d0' (d1 & (d0 & Hd0 & ->)%lookup_alter_Some & ->)%lookup_alter_Some.
    pose proof (Hnn j0 d0 Hd0).
    destruct (decide (j0 = j)) as [->|Hne]; [|done].
    simplify_eq. cbn. lra.
Qed.

Lemma service_time_free_device (d : Device) (R : Request) :
  service_time (free_device d) R = service_time d R.
Proof. done. Qed.

Lemma step_busy (s s' : Simulator) :
  sim_inv s → busy_inv s → step s s' → busy_inv s'.
Proof.
  intros Hinv Hb Hstep.
  destruct Hstep as
    [e h h' r j R d Hperm Hnow Earr Hr HR Hle Hdev Hd Hidle Hid Hperm'
    |e h r R Hperm Hnow Earr Hr HR Hle Hdev
    |e h r j R d Hperm Hnow Earr Efree Hr HR Hdid Hd Ht Hw
    |e h h' r j R d r2 rest R2 Hperm Hnow Earr Efree Hr HR Hdid Hd Ht Hw
       HR2 Hle2 Hperm'
    |e h Hperm Hnow Earr Efree].
  - apply busy_start; [|done..| |done].
    + apply busy_pop_other; [done|done| |done].
      unfold free_dev. by rewrite (is_arrival_not_free e Earr).
    + destruct (inv_devices s Hinv j d Hd) as (_ & Httft & Hrate).
      apply service_time_nonneg; [done|done|].
      exact (inv_tokens s Hinv r R HR).
  - apply busy_waiting. apply busy_pop_other; [done|done| |done].
    unfold free_dev. by rewrite (is_arrival_not_free e Earr).
  - by apply busy_complete.
  - destruct (inv_devices s Hinv j d Hd) as (Hid & Httft & Hrate).
    apply lookup_alter_Some in HR2 as (R2' & HR2' & ->).
    apply busy_start.
    + apply busy_waiting. by apply busy_complete.
    + cbn. by rewrite list_lookup_alter_eq, Hd.
    + done.
    + done.
    + apply service_time_nonneg; [done|done|].
      pose proof (inv_tokens s Hinv r2 R2' HR2').
      by destruct (decide (r2 = r)).
    + done.
  - apply busy_pop_other; [done|done| |done].
    unfold free_dev. by rewrite Efree.
Qed.

Lemma loaded_busy_inv (c : Cluster) (o : list Request) (s : Simulator) :
  loaded c o (length o) s →
  (∀ d, d ∈ devices c →
        is_busy d = false ∧ current_request d = None ∧
        total_busy_time d = 0%Q) →
  busy_inv s.
Proof.
  intros [Hc Ho Ht Hw Hcm Hh He Hm Hr] Hfresh. rewrite firstn_all in He.
  assert (free_devs (events s) = []) as Hfd.
  { apply Permutation_nil_r. unfold free_devs. rewrite He.
    fold (free_devs (arrival_event <$> o)).
    by rewrite free_devs_arrival_events. }
  constructor.
  - rewrite Hfd. apply NoDup_nil_2.
  - rewrite Hc. intros j d Hd Hb.
    destruct (Hfresh d) as [Hidle _]; [by eapply list_elem_of_lookup_2|].
    congruence.
  - intros e Hin_e Hf. exfalso.
    rewrite He in Hin_e. apply list_elem_of_fmap in Hin_e as (R & -> & _).
    discriminate Hf.
  - rewrite Hc, Ht. intros j d Hd _.
    destruct (Hfresh d) as (_ & Hcur & ->);
      [by eapply list_elem_of_lookup_2|]. split; [done|lra].
  - rewrite Hc. intros j d Hd.
    destruct (Hfresh d) as (_ & _ & ->);
      [by eapply list_elem_of_lookup_2|]. lra.
Qed.

(** * Requests wait only while every device is busy *)

Definition wait_inv (s : Simulator) : Prop :=
  waiting_queue s ≠ [] → ∀ d, d ∈ devices (cluster s) → is_busy d = true.

Lemma step_wait_inv (s s' : Simulator) :
  wait_inv s → step s s' → wait_inv s'.
Proof.
  intros Hq Hstep.
  destruct Hstep as
    [e h h' r j R d Hperm Hnow Earr Hr HR Hle Hdev Hd Hidle Hid Hperm'
    |e h r R Hperm Hnow Earr Hr HR Hle Hdev
    |e h r j R d Hperm Hnow Earr Efree Hr HR Hdid Hd Ht Hw
    |e h h' r j R d r2 rest R2 Hperm Hnow Earr Efree Hr HR Hdid Hd Ht Hw
       HR2 Hle2 Hperm'
    |e h Hperm Hnow Earr Efree]; unfold wait_inv; cbn.
  - intros Hw. exfalso.
    assert (is_busy d = true); [|congruence].
    apply Hq; [done|]. by eapply list_elem_of_lookup_2.
  - intros _. exact (proj1 (scan_devices_None _ _) Hdev).
  - by rewrite Hw.
  - intros _ d0 [j0 Hd0]%list_elem_of_lookup.
    apply lookup_alter_Some in Hd0 as (d1 & Hd1 & ->).
    apply lookup_alter_Some in Hd1 as (d2 & Hd2 & ->).
    apply lookup_alter_Some in Hd2 as (d3 & Hd3 & ->).
    destruct (decide (j0 = j)) as [->|Hne]; [done|].
    apply Hq; [by rewrite Hw|by eapply list_elem_of_lookup_2].
  - exact Hq.
Qed.

(** * Every request is in exactly one place

    The requests still to arrive or waiting, those being served and those
    completed are, together, the requests given to [run], each once. *)

Definition ledger_inv (n : nat) (s : Simulator) : Prop :=
  pending s ++ running s ++ completed_requests s ≡ₚ seq 0 n.

Lemma req_id_alter (f : Request → Request) (o : list Request) (r r2 : nat)
    (R2 : Request) :
  (∀ R, req_id (f R) = req_id R) →
  alter f r o !! r2 = Some R2 →
  ∃ R2', o !! r2 = Some R2' ∧ req_id R2' = req_id R2.
Proof.
  intros Hf (R2' & HR2' & ->)%lookup_alter_Some. exists R2'. split; [done|].
  by destruct (decide (r2 = r)).
Qed.

Lemma arrival_ref_free_event (m : gmap Z nat) (t : Q) (i : Z)
    (d : option Z) :
  arrival_ref m (mkEvent t DEVICE_FREE i d) = None.
Proof. done. Qed.

Lemma free_ref_free_event (m : gmap Z nat) (t : Q) (i : Z) (d : option Z) :
  free_ref m (mkEvent t DEVICE_FREE i d) = m !! i.
Proof. done. Qed.

Lemma refs_arrival (m : gmap Z nat) (e : Event) :
  is_arrival e = true →
  arrival_ref m e = m !! request_id e ∧ free_ref m e = None.
Proof.
  intros H. unfold arrival_ref, free_ref.
  by rewrite H, (is_arrival_not_free e H).
Qed.

Lemma refs_free (m : gmap Z nat) (e : Event) :
  is_arrival e = false → is_free e = true →
  arrival_ref m e = None ∧ free_ref m e = m !! request_id e.
Proof. intros H1 H2. unfold arrival_ref, free_ref. by rewrite H1, H2. Qed.

Lemma refs_other (m : gmap Z nat) (e : Event) :
  is_arrival e = false → is_free e = false →
  arrival_ref m e = None ∧ free_ref m e = None.
Proof. intros H1 H2. unfold arrival_ref, free_ref. by rewrite H1, H2. Qed.

Ltac ledger_norm :=
  unfold pending, running;
  cbn [events waiting_queue completed_requests requests_map set_events
       started popped completed_on update_device update_request set_cluster
       set_objs set_waiting_queue set_completed_requests set_current_time].

Lemma step_ledger (n : nat) (s s' : Simulator) :
  sim_inv s → ledger_inv n s → step s s' → ledger_inv n s'.
Proof.
  intros Hinv Hl Hstep. unfold ledger_inv in *.
  destruct Hstep as
    [e h h' r j R d Hperm Hnow Earr Hr HR Hle Hdev Hd Hidle Hid Hperm'
    |e h r R Hperm Hnow Earr Hr HR Hle Hdev
    |e h r j R d Hperm Hnow Earr Efree Hr HR Hdid Hd Ht Hw
    |e h h' r j R d r2 rest R2 Hperm Hnow Earr Efree Hr HR Hdid Hd Ht Hw
       HR2 Hle2 Hperm'
    |e h Hperm Hnow Earr Efree];
    rewrite <- Hl; ledger_norm; rewrite ?Hperm', Hperm;
    cbn [omap list_omap].
  - destruct (refs_arrival (requests_map s) e Earr) as [-> ->].
    rewrite arrival_ref_free_event, free_ref_free_event, Hr.
    rewrite (inv_registered s Hinv r R HR). solve_Permutation.
  - destruct (refs_arrival (requests_map s) e Earr) as [-> ->].
    rewrite Hr. solve_Permutation.
  - destruct (refs_free (requests_map s) e Earr Efree) as [-> ->].
    rewrite Hr, Hw. solve_Permutation.
  - destruct (refs_free (requests_map s) e Earr Efree) as [-> ->].
    rewrite arrival_ref_free_event, free_ref_free_event, Hr.
    destruct (req_id_alter (set_completion_time (timestamp e)) (objs s) r r2
                R2 (fun _ => eq_refl) HR2) as (R2' & HR2' & <-).
    rewrite (inv_registered s Hinv r2 R2' HR2'), Hw. solve_Permutation.
  - destruct (refs_other (requests_map s) e Earr Efree) as [-> ->].
    solve_Permutation.
Qed.

Lemma loaded_ledger (c : Cluster) (o : list Request) (s : Simulator) :
  loaded c o (length o) s → ledger_inv (length o) s.
Proof.
  intros [Hc Ho Ht Hw Hcm Hh He Hm Hr]. rewrite firstn_all in He.
  destruct (omap_arrival_events (requests_map s) o 0) as [Ha Hf].
  { intros r R HR. apply Hr; [by eapply lookup_lt_Some|done]. }
  unfold ledger_inv, pending, running.
  rewrite Hw, Hcm, He, Ha, Hf, !app_nil_r. done.
Qed.

Lemma loaded_wait_inv (c : Cluster) (o : list Request) (s : Simulator) :
  loaded c o (length o) s → wait_inv s.
Proof. intros [Hc Ho Ht Hw Hcm Hh He Hm Hr] Hne. by rewrite Hw in Hne. Qed.

(** When the event queue is empty the ledger holds the waiting and the
    completed requests only. *)
Lemma ledger_final (n : nat) (s : Simulator) :
  ledger_inv n s → events s = [] →
  waiting_queue s ++ completed_requests s ≡ₚ seq 0 n.
Proof.
  unfold ledger_inv, pending, running. intros Hl He.
  by rewrite He in Hl.
Qed.

(** With an empty event queue no device is busy. *)
Lemma busy_final (s : Simulator) (d : Device) :
  busy_inv s → events s = [] → d ∈ devices (cluster s) →
  is_busy d = false.
Proof.
  intros Hb He [j Hd]%list_elem_of_lookup.
  destruct (is_busy d) eqn:E; [|done]. exfalso.
  pose proof (b_busy s Hb j d Hd E) as Hin. rewrite He in Hin.
  by apply elem_of_nil in Hin.
Qed.

(** * A cluster without devices *)

Lemma step_no_devices (s s' : Simulator) :
  devices (cluster s) = [] ∧ completed_requests s = [] → step s s' →
  devices (cluster s') = [] ∧ completed_requests s' = [].
Proof.
  intros [Hd0 Hc0] Hstep.
  destruct Hstep as
    [e h h' r j R d Hperm Hnow Earr Hr HR Hle Hdev Hd Hidle Hid Hperm'
    |e h r R Hperm Hnow Earr Hr HR Hle Hdev
    |e h r j R d Hperm Hnow Earr Efree Hr HR Hdid Hd Ht Hw
    |e h h' r j R d r2 rest R2 Hperm Hnow Earr Efree Hr HR Hdid Hd Ht Hw
       HR2 Hle2 Hperm'
    |e h Hperm Hnow Earr Efree];
    try (by rewrite Hd0 in Hd); done.
Qed.

Lemma fresh_cluster (n : Z) (t r : Q) (c : Cluster) :
  Cluster_init n t r = Ok c → (0 <= t)%Q → (0 < r)%Q →
  length (devices c) = Z.to_nat n ∧
  (∀ j d, devices c !! j = Some d →
          dev_id d = Z.of_nat j ∧ (0 <= ttft_ms d)%Q ∧
          (0 < output_tokens_per_sec d)%Q) ∧
  (∀ d, d ∈ devices c →
        is_busy d = false ∧ current_request d = None ∧
        total_busy_time d = 0%Q).
Proof.
  rewrite Cluster_init_Ok. intros [= <-] Ht Hr.
  destruct (fresh_cluster_devices n t r) as [Hlen Hfresh]. cbn [devices].
  split; [done|]. split.
  - intros j d Hd. by rewrite (Hfresh j d Hd).
  - intros d [j Hd]%list_elem_of_lookup. by rewrite (Hfresh j d Hd).
Qed.

Lemma step_devices_length (N : nat) (s s' : Simulator) :
  length (devices (cluster s)) = N → step s s' →
  length (devices (cluster s')) = N.
Proof.
  intros HN Hstep.
  destruct Hstep; cbn; by rewrite ?length_alter.
Qed.

(** With at least one device every request is served.  For token counts
    in the range of a float (beyond it [calculate_duration] raises
    OverflowError, which the model with exact rationals does not show),
    [run] returns, the event queue and the waiting queue are empty and the
    completed ledger holds every request exactly once. *)
Theorem run_completes_all (n : Z) (ttft rate : Q) (c : Cluster)
    (reqs : list Request) :
  Cluster_init n ttft rate = Ok c →
  (0 < n)%Z → (0 <= ttft)%Q → (0 < rate)%Q →
  NoDup (req_id <$> reqs) →
  (∀ R, R ∈ reqs → (0 <= arrival_time R)%Q ∧ (0 <= output_tokens R)%Z) →
  (∀ R, R ∈ reqs → binary64.int_fits_float (output_tokens R) = true) →
  ∃ s, run (Simulator_init c reqs) (seq 0 (length reqs)) = Ok s ∧
       events s = [] ∧ waiting_queue s = [] ∧
       completed_requests s ≡ₚ seq 0 (length reqs).
Proof.
  intros Hc Hn Httft Hrate Hnd Hreq _.
  destruct (fresh_cluster n ttft rate c Hc Httft Hrate)
    as (Hlen & Hdev & Hfresh).
  destruct (run_ind
              (fun s => busy_inv s ∧ wait_inv s ∧
                        ledger_inv (length reqs) s ∧
                        length (devices (cluster s)) = Z.to_nat n)
              c reqs Hnd Hreq Hdev)
    as (s & Hrun & Hinv & Hev & Hb & Hw & Hl & HN).
  - intros s0 Hl0. split; [by eapply loaded_busy_inv|].
    split; [by eapply loaded_wait_inv|]. split; [by eapply loaded_ledger|].
    by rewrite (ld_cluster _ _ _ _ Hl0).
  - intros s s' Hinv (Hb & Hw & Hl & HN) Hstep.
    split; [by eapply step_busy|]. split; [by eapply step_wait_inv|].
    split; [by eapply step_ledger|]. by eapply step_devices_length.
  - exists s. split; [done|]. split; [done|].
    assert (waiting_queue s = []) as Hwq.
    { destruct (waiting_queue s) as [|r w] eqn:Ew; [done|]. exfalso.
      destruct (devices (cluster s)) as [|d ds] eqn:Ed; [cbn in HN; lia|].
      assert (d ∈ devices (cluster s)) as Hin by (rewrite Ed; left).
      pose proof (busy_final s d Hb Hev Hin) as Hidle.
      unfold wait_inv in Hw. rewrite Ew in Hw.
      rewrite (Hw ltac:(done) d Hin) in Hidle. done. }
    split; [done|].
    pose proof (ledger_final _ s Hl Hev) as Hfin.
    by rewrite Hwq in Hfin.
Qed.

Lemma run_completes_all_witness :
  ∃ s, run (Simulator_init (mkCluster [fresh_device 100 50 0] 0)
              [Request_init 0 0 50 100; Request_init 1 (1 # 10) 50 100])
           (seq 0 2) = Ok s ∧
       events s = [] ∧ waiting_queue s = [] ∧
       completed_requests s ≡ₚ seq 0 2.
Proof.
  apply (run_completes_all 1 100 50 (mkCluster [fresh_device 100 50 0] 0)
           [Request_init 0 0 50 100; Request_init 1 (1 # 10) 50 100]).
  - reflexivity.
  - lia.
  - lra.
  - lra.
  - simpl. apply NoDup_cons. split; [|apply NoDup_singleton].
    intros H. apply list_elem_of_singleton in H. discriminate H.
  - intros R HR. apply elem_of_cons in HR as [->|HR].
    + simpl. split; [lra|lia].
    + apply list_elem_of_singleton in HR as ->. simpl. split; [lra|lia].
  - intros R HR. apply elem_of_cons in HR as [->|HR].
    + vm_compute. reflexivity.
    + apply list_elem_of_singleton in HR as ->. vm_compute. reflexivity.
Defined.



Lemma run_no_devices_state (c : Cluster) (reqs : list Request) :
  devices c = [] →
  NoDup (req_id <$> reqs) →
  (∀ R, R ∈ reqs → (0 <= arrival_time R)%Q ∧ (0 <= output_tokens R)%Z) →
  ∃ s, run (Simulator_init c reqs) (seq 0 (length reqs)) = Ok s ∧
       completed_requests s = [] ∧
       waiting_queue s ≡ₚ seq 0 (length reqs).
Proof.
  intros Hc Hnd Hreq.
  destruct (run_ind
              (fun s => (devices (cluster s) = [] ∧
                         completed_requests s = []) ∧
                        ledger_inv (length reqs) s)
              c reqs Hnd Hreq)
    as (s & Hrun & Hinv & Hev & [Hd0 Hc0] & Hl).
  - intros j d Hd. by rewrite Hc in Hd.
  - intros s0 Hl0. split; [|by eapply loaded_ledger].
    by rewrite (ld_cluster _ _ _ _ Hl0), (ld_completed _ _ _ _ Hl0).
  - intros s s' Hinv (H0 & Hl) Hstep.
    split; [by eapply step_no_devices|by eapply step_ledger].
  - exists s. split; [done|]. split; [done|].
    pose proof (ledger_final _ s Hl Hev) as Hfin.
    by rewrite Hc0, app_nil_r in Hfin.
Qed.

(** A cluster built with a device count of zero or less has no device:
    [run] returns with every request in the waiting queue and none
    completed, and [get_stats] answers with its text. *)
Theorem run_no_devices (n : Z) (ttft rate : Q) (c : Cluster)
    (reqs : list Request) :
  Cluster_init n ttft rate = Ok c → (n <= 0)%Z →
  NoDup (req_id <$> reqs) →
  (∀ R, R ∈ reqs → (0 <= arrival_time R)%Q ∧ (0 <= output_tokens R)%Z) →
  ∃ s, run (Simulator_init c reqs) (seq 0 (length reqs)) = Ok s ∧
       completed_requests s = [] ∧
       waiting_queue s ≡ₚ seq 0 (length reqs) ∧
       get_stats s = Ok (StatsStr "No requests completed.").
Proof.
  intros Hc Hn Hnd Hreq. rewrite Cluster_init_Ok in Hc. injection Hc as <-.
  destruct (run_no_devices_state
              (mkCluster (fresh_device ttft rate <$> range n) 0) reqs)
    as (s & Hrun & Hcompl & Hwait); [|done|done|].
  - cbn. unfold range. by replace (Z.to_nat n) with 0 by lia.
  - exists s. split; [done|]. split; [done|]. split; [done|].
    unfold get_stats. by rewrite Hcompl.
Qed.

Lemma run_no_devices_witness :
  ∃ s, run (Simulator_init (mkCluster [] 0)
              [Request_init 0 0 50 100; Request_init 1 (1 # 10) 50 100])
           (seq 0 2) = Ok s ∧
       completed_requests s = [] ∧
       waiting_queue s ≡ₚ seq 0 2 ∧
       get_stats s = Ok (StatsStr "No requests completed.").
Proof.
  apply (run_no_devices 0 100 50 (mkCluster [] 0)
           [Request_init 0 0 50 100; Request_init 1 (1 # 10) 50 100]).
  - reflexivity.
  - lia.
  - simpl. apply NoDup_cons. split; [|apply NoDup_singleton].
    intros H. apply list_elem_of_singleton in H. discriminate H.
  - intros R HR. apply elem_of_cons in HR as [->|HR].
    + simpl. split; [lra|lia].
    + apply list_elem_of_singleton in HR as ->. simpl. split; [lra|lia].
Defined.

(** * The workload generator *)

Lemma workload_loop_shape (draws : nat → Q) (cf : CapacityFinder) (rps : Q)
    (ids : list Z) (t0 : Q) (k : nat) :
  ¬ (rps == 0)%Q →
  ∃ reqs,
    workload_loop draws cf rps ids t0 k = Ok (reqs, k + length ids) ∧
    req_id <$> reqs = ids ∧
    Forall (fun R => input_tokens R = cf_input_tokens cf ∧
                     output_tokens R = cf_output_tokens cf ∧
                     start_time R = (-1)%Q ∧ completion_time R = (-1)%Q)
           reqs ∧
    ((∀ i, 0 <= draws i)%Q → (0 < rps)%Q →
     Forall (fun R => (t0 <= arrival_time R)%Q) reqs ∧
     StronglySorted Qle (arrival_time <$> reqs)).
Proof.
  intros Hrps. revert t0 k.
  induction ids as [|i ids IH]; intros t0 k.
  - exists []. rewrite Nat.add_0_r. repeat split; constructor.
  - cbn [workload_loop]. unfold expovariate.
    rewrite (float_div_Ok (draws k) rps Hrps). result_simpl.
    destruct (IH (t0 + draws k / rps)%Q (S k))
      as (reqs & -> & Hids & Hall & Hsorted).
    result_simpl. eexists. split; [do 2 f_equal; simpl; lia|].
    split; [cbn; by rewrite Hids|]. split; [by constructor|].
    intros Hdraws Hpos. destruct (Hsorted Hdraws Hpos) as [Hge Hs].
    pose proof (Qdiv_nonneg (draws k) rps (Hdraws k) Hpos) as Hstep.
    split.
    + constructor; [cbn; lra|].
      eapply Forall_impl; [exact Hge|]. cbn. intros R HR. lra.
    + cbn [fmap list_fmap]. constructor; [exact Hs|].
      apply Forall_fmap. eapply Forall_impl; [exact Hge|].
      cbn. intros R HR. done.
Qed.

Lemma int_of_float_Qnum_zero (x y : Q) :
  (x == 0)%Q → int_of_float (x * y) = 0%Z.
Proof.
  unfold Qeq, int_of_float. simpl. intros H.
  replace (Qnum x) with 0%Z by lia. done.
Qed.

(** In the model the division by the request rate is reached only when
    [int(rpm * duration_min)] is not 0, hence [rpm] is not 0. *)
Lemma generate_workload_model (draws : nat → Q) (cf : CapacityFinder)
    (rpm dur : Q) (k : nat) :
  ∃ reqs,
    generate_workload draws cf rpm dur k = Ok (reqs, k + length reqs) ∧
    req_id <$> reqs = range (int_of_float (rpm * dur)) ∧
    Forall (fun R => input_tokens R = cf_input_tokens cf ∧
                     output_tokens R = cf_output_tokens cf ∧
                     start_time R = (-1)%Q ∧ completion_time R = (-1)%Q)
           reqs ∧
    ((∀ i, 0 <= draws i)%Q → (0 < rpm)%Q →
     Forall (fun R => (0 <= arrival_time R)%Q) reqs ∧
     StronglySorted Qle (arrival_time <$> reqs)).
Proof.
  unfold generate_workload.
  destruct (Z.eqb_spec (int_of_float (rpm * dur)) 0) as [E|E].
  - exists []. rewrite E, Nat.add_0_r. repeat split; constructor.
  - rewrite (float_div_Ok rpm 60) by lra. rewrite bind_Ok.
    assert (¬ (rpm / 60 == 0)%Q) as Hrps.
    { intros H. apply E. apply int_of_float_Qnum_zero.
      assert (rpm == rpm / 60 * 60)%Q as -> by (field; lra).
      rewrite H. lra. }
    destruct (workload_loop_shape draws cf (rpm / 60)%Q
                (range (int_of_float (rpm * dur))) 0 k Hrps)
      as (reqs & Heq & Hids & Hall & Hsorted).
    exists reqs. split.
    { rewrite Heq. do 2 f_equal.
      by rewrite <- Hids, length_fmap. }
    split; [done|]. split; [done|].
    intros Hdraws Hrpm. apply Hsorted; [done|].
    apply Qlt_shift_div_l; lra.
Qed.

(** The workload that [generate_workload] returns: the requests have the
    ids 0, 1, ... in order, the configured token counts and unset start and
    completion times (-1.0), and one random draw is consumed per request.
    When the draws are non-negative and [rpm] is positive the arrival times
    are non-negative and non-decreasing.  The function never raises
    ZeroDivisionError: the division by the request rate is reached only
    when [int(rpm * duration_min)] is not 0, hence [rpm] is not 0. *)
Theorem generate_workload_shape (draws : nat → Q) (cf : CapacityFinder)
    (rpm dur : Q) (k : nat) :
  generate_workload draws cf rpm dur k ≠ Raise ZeroDivisionError ∧
  ∀ reqs k',
    generate_workload draws cf rpm dur k = Ok (reqs, k') →
    k' = k + length reqs ∧
    req_id <$> reqs = range (Z.of_nat (length reqs)) ∧
    Forall (fun R => input_tokens R = cf_input_tokens cf ∧
                     output_tokens R = cf_output_tokens cf ∧
                     start_time R = (-1)%Q ∧ completion_time R = (-1)%Q)
           reqs ∧
    ((∀ i, 0 <= draws i)%Q → (0 < rpm)%Q →
     Forall (fun R => (0 <= arrival_time R)%Q) reqs ∧
     StronglySorted Qle (arrival_time <$> reqs)).
Proof.
  destruct (generate_workload_model draws cf rpm dur k)
    as (reqs0 & Hgw & Hids & Hfields & Hsorted).
  split; [by rewrite Hgw|].
  intros reqs k' H. rewrite Hgw in H. injection H as <- <-.
  split; [done|]. split; [|done].
  rewrite Hids. unfold range. do 2 f_equal.
  apply (f_equal length) in Hids.
  rewrite length_fmap in Hids. rewrite Hids.
  unfold range. by rewrite length_fmap, length_seq, Nat2Z.id.
Qed.

(** * Statistics *)

Lemma float_max_ge (x : Q) (l : list Q) :
  (x <= float_max x l)%Q ∧ ∀ y, y ∈ l → (y <= float_max x l)%Q.
Proof.
  unfold float_max. revert x. induction l as [|y l IH]; intros x.
  - split; [cbn; lra|]. intros y Hy. by apply elem_of_nil in Hy.
  - cbn [foldl].
    destruct (IH (if Qltb x y then y else x)) as [Hacc Hrest].
    assert (x <= (if Qltb x y then y else x) ∧
            y <= (if Qltb x y then y else x))%Q as [Hx Hy].
    { destruct (Qltb x y) eqn:E.
      - apply Qltb_lt in E. lra.
      - apply Qltb_ge in E. lra. }
    split; [lra|]. intros z Hz. apply elem_of_cons in Hz as [->|Hz].
    + lra.
    + by apply Hrest.
Qed.

(** With a non-empty completed ledger [get_stats] returns a record, not
    the text, and never divides by zero (the ledger has a request, and a
    clock that is not positive is replaced by 1): the record counts the
    completed requests, reports the simulated time, and its maximum latency
    is at least the latency of every completed request. *)
Theorem get_stats_summary (s : Simulator) :
  completed_requests s ≠ [] →
  ∃ d, get_stats s = Ok (StatsDict d) ∧
       total_requests d = Z.of_nat (length (completed_requests s)) ∧
       total_time_sec d = current_time s ∧
       (∀ r, r ∈ completed_requests s →
             (latency (deref s r) <= max_latency_sec d)%Q).
Proof.
  intros Hne. unfold get_stats.
  destruct (completed_requests s) as [|r0 rest] eqn:Hc; [done|].
  cbv zeta. rewrite length_fmap. cbn [length].
  assert (¬ (inject_Z (Z.of_nat (S (length rest))) == 0)%Q) as Hn.
  { unfold Qeq. simpl. lia. }
  rewrite (float_div_Ok _ _ Hn). rewrite bind_Ok.
  assert (0 < (if Qltb 0 (current_time s) then current_time s else 1))%Q
    as HT.
  { destruct (Qltb 0 (current_time s)) eqn:E; [|lra]. by apply Qltb_lt. }
  rewrite (float_div_Ok _ (if Qltb 0 (current_time s) then current_time s
                           else 1)) by lra.
  rewrite bind_Ok. eexists. split; [reflexivity|]. cbn.
  set (f := fun r => latency (deref s r)).
  destruct (float_max_ge (f r0) (f <$> rest)) as [H0 Hrest].
  assert (∀ y, y ∈ f <$> r0 :: rest →
               (y <= float_max (f r0) (f <$> rest))%Q) as Hall.
  { intros y Hy. rewrite fmap_cons in Hy.
    apply elem_of_cons in Hy as [->|Hy]; [done|by apply Hrest]. }
  split; [done|]. split; [done|].
  intros r Hr. apply (Hall (f r)). by apply list_elem_of_fmap_2.
Qed.

Lemma get_stats_summary_witness :
  ∃ d, get_stats (mkSimulator (mkCluster [] 0) [] 3 [] [0%nat] ∅
                    [mkRequest 0 1 50 100 1 3])
       = Ok (StatsDict d) ∧
       total_requests d = Z.of_nat (length [0%nat]) ∧
       total_time_sec d = 3%Q ∧
       (∀ r, r ∈ [0%nat] →
             (latency (deref (mkSimulator (mkCluster [] 0) [] 3 [] [0%nat] ∅
                                [mkRequest 0 1 50 100 1 3]) r)
              <= max_latency_sec d)%Q).
Proof.
  apply (get_stats_summary (mkSimulator (mkCluster [] 0) [] 3 [] [0%nat] ∅
                              [mkRequest 0 1 50 100 1 3])).
  simpl. discriminate.
Defined.

(** * Simulations of the capacity finder *)

Lemma int_of_float_zero (x : Q) :
  (-1 < x)%Q → (x < 1)%Q → int_of_float x = 0%Z.
Proof.
  unfold Qlt, int_of_float. simpl. intros H1 H2.
  destruct (Z.le_gt_cases 0 (Qnum x)) as [Hpos|Hneg].
  - apply Z.quot_small. lia.
  - rewrite <- (Z.opp_involutive (Qnum x)), Z.quot_opp_l by lia.
    rewrite Z.quot_small by lia. done.
Qed.

(** A workload without requests: the run is empty and the statistics are
    the text. *)
Lemma run_simulation_empty (draws : nat → Q) (cf : CapacityFinder)
    (rpm dur : Q) (k : nat) :
  int_of_float (rpm * dur) = 0%Z →
  run_simulation draws cf rpm dur k
  = Ok (StatsStr "No requests completed.", k).
Proof.
  intros H. unfold run_simulation. rewrite Cluster_init_Ok, bind_Ok.
  unfold generate_workload. rewrite H. done.
Qed.

Lemma run_simulation_no_devices (draws : nat → Q) (cf : CapacityFinder)
    (rpm dur : Q) (k : nat) :
  (∀ i, 0 <= draws i)%Q → (num_devices cf <= 0)%Z →
  (0 <= cf_output_tokens cf)%Z → (0 < rpm)%Q →
  ∃ k', run_simulation draws cf rpm dur k
        = Ok (StatsStr "No requests completed.", k').
Proof.
  intros Hdraws HN Hout Hrpm.
  unfold run_simulation. rewrite Cluster_init_Ok, bind_Ok.
  destruct (generate_workload_spec draws cf rpm dur k Hdraws Hrpm)
    as (reqs & k1 & Hgen & Hnd & Hreqs).
  rewrite Hgen, bind_Ok. rewrite Forall_forall in Hreqs.
  destruct (run_no_devices_state
              (mkCluster (fresh_device (cf_ttft_ms cf)
                            (cf_output_tokens_per_sec cf)
                          <$> range (num_devices cf)) 0) reqs)
    as (s & Hrun & Hcompl & _); [|done| |].
  - cbn. unfold range. by replace (Z.to_nat (num_devices cf)) with 0 by lia.
  - intros R0 HR0. destruct (Hreqs R0 HR0) as [? ->]. done.
  - rewrite Hrun, bind_Ok. unfold get_stats. rewrite Hcompl, bind_Ok.
    by exists k1.
Qed.

Lemma search_loop_raise (n : nat) (draws : nat → Q) (cf : CapacityFinder)
    (thr dur : Q) (st : search_state) (e : exn) :
  search_step draws cf thr dur st = Raise e →
  search_loop (S n) draws cf thr dur st = Raise e.
Proof. intros H. cbn [search_loop]. by rewrite H. Qed.

Lemma search_step_text (draws : nat → Q) (cf : CapacityFinder)
    (thr dur : Q) (st : search_state) (msg : string) (k' : nat) :
  run_simulation draws cf ((low st + high st) / 2) dur (rng st)
  = Ok (StatsStr msg, k') →
  search_step draws cf thr dur st = Raise TypeError.
Proof. intros H. unfold search_step. cbv zeta. by rewrite H. Qed.

Lemma find_max_rpm_first_empty (draws : nat → Q) (cf : CapacityFinder)
    (thr dur R : Q) (k : nat) :
  theoretical_max_rpm cf = Ok R →
  int_of_float ((1 + R * (15 # 10)) / 2 * dur) = 0%Z →
  find_max_rpm draws cf thr dur k = Raise TypeError.
Proof.
  intros HR H0. unfold find_max_rpm. rewrite HR, bind_Ok. cbv zeta.
  rewrite (search_loop_raise 9 draws cf thr dur _ TypeError); [done|].
  eapply search_step_text. cbn [low high rng].
  by apply run_simulation_empty.
Qed.

(** A duration too short for the first candidate makes the search fail.
    When the first candidate load, the midpoint of 1 and 1.5 R, times the
    duration is at most one half, the first workload has no request, the
    statistics of the first simulation are the text, and [find_max_rpm]
    raises TypeError on [stats['throughput_rpm']].  The configuration is as
    above (non-negative counts in the range of a float, positive decode rate
    and output tokens, R at most 2^500); the margin between one half and 1
    is far more than the rounding of the candidate and of the product. *)
Theorem find_max_rpm_short_run (draws : nat → Q) (cf : CapacityFinder)
    (thr dur : Q) (k : nat) :
  (0 <= num_devices cf)%Z →
  binary64.int_fits_float (num_devices cf) = true →
  (0 <= cf_ttft_ms cf)%Q → (0 < cf_output_tokens_per_sec cf)%Q →
  (0 < cf_output_tokens cf)%Z →
  binary64.int_fits_float (cf_output_tokens cf) = true →
  (0 <= dur)%Q →
  ∃ R,
    theoretical_max_rpm cf = Ok R ∧
    ((R <= inject_Z (2 ^ 500))%Q →
     ((1 + R * (15 # 10)) / 2 * dur <= 1 # 2)%Q →
     find_max_rpm draws cf thr dur k = Raise TypeError).
Proof.
  intros HN _ Httft Hrate Hout _ Hdur.
  destruct (theoretical_max_rpm_Ok cf HN Httft Hrate Hout)
    as (R & HR & HR0 & _).
  exists R. split; [done|]. intros _ Hhalf.
  apply (find_max_rpm_first_empty draws cf thr dur R k HR).
  remember ((1 + R * (15 # 10)) / 2)%Q as mid eqn:Emid.
  assert (mid * 2 == 1 + R * (15 # 10))%Q as Hmid by (rewrite Emid; field).
  clear Emid.
  apply int_of_float_zero; nra.
Qed.

Lemma find_max_rpm_short_run_witness :
  ∃ R,
    theoretical_max_rpm (mkCapacityFinder 1 1000 1 128 200) = Ok R ∧
    ((R <= inject_Z (2 ^ 500))%Q →
     ((1 + R * (15 # 10)) / 2 * (1 # 2) <= 1 # 2)%Q →
     find_max_rpm (fun _ => 1 # 100) (mkCapacityFinder 1 1000 1 128 200)
       5 (1 # 2) 0 = Raise TypeError).
Proof.
  apply (find_max_rpm_short_run (fun _ => 1 # 100)
           (mkCapacityFinder 1 1000 1 128 200) 5 (1 # 2) 0).
  - simpl. lia.
  - vm_compute. reflexivity.
  - simpl. lra.
  - simpl. lra.
  - simpl. lia.
  - vm_compute. reflexivity.
  - lra.
Defined.

(** Without devices no request ever completes, so every simulation of the
    search gives the text and the search raises TypeError. *)
Theorem find_max_rpm_no_devices (draws : nat → Q) (cf : CapacityFinder)
    (thr dur R : Q) (k : nat) :
  (∀ i, 0 <= draws i)%Q →
  num_devices cf = 0%Z → (0 <= cf_output_tokens cf)%Z →
  theoretical_max_rpm cf = Ok R →
  find_max_rpm draws cf thr dur k = Raise TypeError.
Proof.
  intros Hdraws HN Hout HR. unfold find_max_rpm. rewrite HR, bind_Ok.
  cbv zeta.
  assert (R == 0)%Q as HR0.
  { unfold theoretical_max_rpm in HR.
    destruct (float_div (inject_Z (cf_output_tokens cf))
                (cf_output_tokens_per_sec cf)) as [x|]; [|done].
    rewrite bind_Ok in HR.
    destruct (float_div (cf_ttft_ms cf) 1000) as [y|]; [|done].
    rewrite bind_Ok in HR. cbv zeta in HR.
    destruct (float_div (inject_Z (num_devices cf)) (y + x)) as [q|] eqn:Hq;
      [|done].
    rewrite bind_Ok in HR. injection HR as <-.
    apply float_div_inv in Hq as [Hne ->]. rewrite HN.
    assert (inject_Z 0 / (y + x) == 0)%Q as -> by (field; done). lra. }
  rewrite (search_loop_raise 9 draws cf thr dur _ TypeError); [done|].
  destruct (run_simulation_no_devices draws cf
              ((1 + R * (15 # 10)) / 2) dur k Hdraws) as [k' Hsim].
  - lia.
  - done.
  - apply Qlt_shift_div_l; lra.
  - by eapply search_step_text.
Qed.

Lemma find_max_rpm_no_devices_witness :
  find_max_rpm (fun _ => 1 # 100) (mkCapacityFinder 0 100 50 128 100)
    5 2 0 = Raise TypeError.
Proof.
  eapply (find_max_rpm_no_devices (fun _ => 1 # 100)
            (mkCapacityFinder 0 100 50 128 100) 5 2).
  - intros _. lra.
  - reflexivity.
  - simpl. lia.
  - vm_compute. reflexivity.
Defined.



Lemma get_stats_total_requests (s : Simulator) (d : Stats) :
  get_stats s = Ok (StatsDict d) →
  total_requests d = Z.of_nat (length (completed_requests s)).
Proof.
  unfold get_stats. destruct (completed_requests s) as [|r0 rest]; [done|].
  cbv zeta.
  destruct (float_div (float_sum _) _) as [a|]; [|done]. rewrite bind_Ok.
  destruct (float_div (inject_Z _) _) as [q|]; [|done]. rewrite bind_Ok.
  by intros [= <-].
Qed.

(** With at least one device and an offered load of at least one request
    over the duration, every generated request completes: [run_simulation]
    returns a statistics record, not the text, and its request count is the
    number of requests that [generate_workload] made, which is positive.
    The configuration has a non-negative time-to-first-token, a positive
    decode rate and a non-negative output token count in the range of a
    float; the draws are non-negative; the product rpm x duration is at
    least 1, hence so is its float, and at most 2^500, hence finite. *)
Theorem run_simulation_completes (draws : nat → Q) (cf : CapacityFinder)
    (rpm dur : Q) (k : nat) :
  (∀ i, 0 <= draws i)%Q →
  (0 < num_devices cf)%Z → (0 <= cf_ttft_ms cf)%Q →
  (0 < cf_output_tokens_per_sec cf)%Q → (0 <= cf_output_tokens cf)%Z →
  binary64.int_fits_float (cf_output_tokens cf) = true →
  (0 < rpm)%Q → (1 <= rpm * dur)%Q → (rpm * dur <= inject_Z (2 ^ 500))%Q →
  ∃ reqs k' d,
    generate_workload draws cf rpm dur k = Ok (reqs, k') ∧
    0 < length reqs ∧
    run_simulation draws cf rpm dur k = Ok (StatsDict d, k') ∧
    total_requests d = Z.of_nat (length reqs).
Proof.
  intros Hdraws HN Httft Hrate Hout _ Hrpm H1 _.
  destruct (generate_workload_spec draws cf rpm dur k Hdraws Hrpm)
    as (reqs & k1 & Hgen & Hnd & Hreqs).
  pose proof (generate_workload_nonempty draws cf rpm dur k reqs k1
                Hdraws Hrpm H1 Hgen) as Hlen_reqs.
  unfold run_simulation. rewrite Cluster_init_Ok, bind_Ok, Hgen, bind_Ok.
  set (c := mkCluster (fresh_device (cf_ttft_ms cf)
                         (cf_output_tokens_per_sec cf)
                       <$> range (num_devices cf)) 0) in *.
  destruct (fresh_cluster_devices (num_devices cf) (cf_ttft_ms cf)
              (cf_output_tokens_per_sec cf)) as [Hlen Hfresh].
  rewrite Forall_forall in Hreqs.
  destruct (run_complete
              (cf_ttft_ms cf / 1000
               + inject_Z (cf_output_tokens cf) / cf_output_tokens_per_sec cf)
              c reqs Hnd) as (s & Hrun & Hall).
  - intros R0 HR0. destruct (Hreqs R0 HR0) as [? ->]. done.
  - intros j d0 Hd0. by rewrite (Hfresh j d0 Hd0).
  - intros d0 [j Hd0]%list_elem_of_lookup. by rewrite (Hfresh j d0 Hd0).
  - intros d0 R0 [j Hd0]%list_elem_of_lookup HR0.
    rewrite (Hfresh j d0 Hd0). unfold service_time. cbn.
    destruct (Hreqs R0 HR0) as [_ ->]. reflexivity.
  - cbn [c devices]. rewrite Hlen. lia.
  - rewrite Hrun, bind_Ok.
    destruct (get_stats_nonempty s) as [d Hd].
    { intros Hnil. rewrite Hnil in Hall. cbn in Hall. lia. }
    rewrite Hd, bind_Ok. exists reqs, k1, d.
    split; [done|]. split; [done|]. split; [done|].
    by rewrite (get_stats_total_requests s d Hd), Hall.
Qed.

Lemma run_simulation_completes_witness :
  ∃ reqs k' d,
    generate_workload (fun _ => 1 # 100)
      (mkCapacityFinder 8 100 50 128 128) 60 1 0 = Ok (reqs, k') ∧
    0 < length reqs ∧
    run_simulation (fun _ => 1 # 100)
      (mkCapacityFinder 8 100 50 128 128) 60 1 0 = Ok (StatsDict d, k') ∧
    total_requests d = Z.of_nat (length reqs).
Proof.
  apply (run_simulation_completes (fun _ => 1 # 100)
           (mkCapacityFinder 8 100 50 128 128) 60 1 0).
  - intros _. lra.
  - simpl. lia.
  - simpl. lra.
  - simpl. lra.
  - simpl. lia.
  - vm_compute. reflexivity.
  - lra.
  - lra.
  - vm_compute. discriminate.
Defined.

(** * Hardware profiles *)

Lemma HARDWARE_DB_Custom :
  hardware.HARDWARE_DB !! "Custom" = Some hardware.Custom.
Proof. vm_compute. reflexivity. Qed.

Lemma HARDWARE_DB_positive :
  map_Forall
    (fun _ p => (0 < hardware.ttft_ms p)%Q ∧
                (0 < hardware.output_tokens_per_sec p)%Q ∧
                (0 < hardware.max_batch_size p)%Z ∧
                (0 < hardware.memory_gb p)%Z)
    hardware.HARDWARE_DB.
Proof.
  unfold hardware.HARDWARE_DB. cbn [list_to_map foldr fst snd].
  repeat (apply map_Forall_insert_2;
          [cbn; split; [lra|]; split; [lra|]; split; lia|]).
  apply map_Forall_empty.
Qed.

(** [get_profile] never raises: a key of the table gives its profile, every
    other key gives the Custom profile; either way the profile has a
    positive time-to-first-token, decode rate, batch size and memory, so on
    a device built from it [calculate_duration] does not divide by zero: it
    returns for every request whose token count is in the range of a
    float. *)
Theorem get_profile_total (key : string) :
  ∃ p, hardware.get_profile key = Ok p ∧
       (hardware.HARDWARE_DB !! key = Some p ∨
        (hardware.HARDWARE_DB !! key = None ∧ p = hardware.Custom)) ∧
       (0 < hardware.ttft_ms p)%Q ∧
       (0 < hardware.output_tokens_per_sec p)%Q ∧
       (0 < hardware.max_batch_size p)%Z ∧ (0 < hardware.memory_gb p)%Z ∧
       ∀ (i : Z) (req : Request),
         binary64.int_fits_float (output_tokens req) = true →
         ∃ duration,
           calculate_duration
             (fresh_device (hardware.ttft_ms p)
                (hardware.output_tokens_per_sec p) i) req
           = Ok duration.
Proof.
  unfold hardware.get_profile. rewrite HARDWARE_DB_Custom, bind_Ok.
  assert (∃ p, default hardware.Custom (hardware.HARDWARE_DB !! key) = p ∧
               (hardware.HARDWARE_DB !! key = Some p ∨
                (hardware.HARDWARE_DB !! key = None ∧ p = hardware.Custom)) ∧
               ∃ k, hardware.HARDWARE_DB !! k = Some p)
    as (p & -> & Hcase & k & Hin).
  { destruct (hardware.HARDWARE_DB !! key) as [p|] eqn:E.
    - exists p. split; [done|]. split; [by left|by exists key].
    - exists hardware.Custom. split; [done|]. split; [by right|].
      exists "Custom". exact HARDWARE_DB_Custom. }
  destruct (HARDWARE_DB_positive _ _ Hin) as (Ht & Hr & Hb & Hm).
  exists p. split; [done|]. split; [done|].
  split; [done|]. split; [done|]. split; [done|]. split; [done|].
  intros i req _. unfold calculate_duration. cbn.
  rewrite (float_div_Ok _ 1000) by lra. rewrite bind_Ok.
  rewrite (float_div_Ok _ (hardware.output_tokens_per_sec p)) by lra.
  by eexists.
Qed.

(** * First come, first served *)

Definition sta (s : Simulator) (r : nat) : Q := start_time (deref s r).





Lemma sta_alter_start (t : Q) (s : Simulator) (r0 r : nat) (R : Request) :
  objs s !! r0 = Some R →
  sta (update_request (set_start_time t) r0 s) r
  = if decide (r = r0) then t else sta s r.
Proof.
  intros HR. unfold sta, deref, update_request. cbn.
  destruct (decide (r = r0)) as [->|Hne].
  - by rewrite list_lookup_alter_eq, HR.
  - by rewrite list_lookup_alter_ne.
Qed.








(** * Completion is start plus duration *)

(** The service time of a request on a device with time-to-first-token
    [ttft] (ms) and decode rate [rate]. *)
Definition svc (ttft rate : Q) (R : Request) : Q :=
  (ttft / 1000 + inject_Z (output_tokens R) / rate)%Q.

(** The fields of a request that [run] is given and does not write. *)
Definition same_data (R0 R : Request) : Prop :=
  req_id R = req_id R0 ∧ arrival_time R = arrival_time R0 ∧
  input_tokens R = input_tokens R0 ∧ output_tokens R = output_tokens R0.

Record svc_inv (ttft rate : Q) (o : list Request) (s : Simulator) : Prop :=
  mk_svc_inv {
  v_devices :
    ∀ d, d ∈ devices (cluster s) →
         ttft_ms d = ttft ∧ output_tokens_per_sec d = rate;
  v_data :
    ∀ r R0, o !! r = Some R0 →
            ∃ R, objs s !! r = Some R ∧ same_data R0 R;
  v_running :
    ∀ e, e ∈ events s → is_free e = true →
         ∃ r, requests_map s !! request_id e = Some r ∧
              timestamp e = (sta s r + svc ttft rate (deref s r))%Q;
  v_completed :
    ∀ r, r ∈ completed_requests s →
         completion_time (deref s r)
         = (sta s r + svc ttft rate (deref s r))%Q }.

Lemma deref_alter_ne (f : Request → Request) (s s' : Simulator)
    (r r0 : nat) :
  objs s' = alter f r (objs s) → r0 ≠ r → deref s' r0 = deref s r0.
Proof.
  intros Ho Hne. unfold deref. by rewrite Ho, list_lookup_alter_ne.
Qed.

Lemma deref_alter_eq (f : Request → Request) (s s' : Simulator) (r : nat)
    (R : Request) :
  objs s' = alter f r (objs s) → objs s !! r = Some R → deref s' r = f R.
Proof.
  intros Ho HR. unfold deref. by rewrite Ho, list_lookup_alter_eq, HR.
Qed.

Lemma same_data_alter (f : Request → Request) (o o1 : list Request)
    (r : nat) :
  (∀ R, same_data R (f R)) →
  (∀ r0 R0, o !! r0 = Some R0 → ∃ R, o1 !! r0 = Some R ∧ same_data R0 R) →
  ∀ r0 R0, o !! r0 = Some R0 →
           ∃ R, alter f r o1 !! r0 = Some R ∧ same_data R0 R.
Proof.
  intros Hf Hd r0 R0 HR0. destruct (Hd r0 R0 HR0) as (R & HR & Hs).
  destruct (decide (r0 = r)) as [->|Hne].
  - exists (f R). rewrite list_lookup_alter_eq, HR. split; [done|].
    destruct (Hf R) as (? & ? & ? & ?). destruct Hs as (? & ? & ? & ?).
    repeat split; congruence.
  - exists R. by rewrite list_lookup_alter_ne.
Qed.

Lemma elem_of_running (s : Simulator) (e : Event) (r : nat) :
  e ∈ events s → is_free e = true →
  requests_map s !! request_id e = Some r → r ∈ running s.
Proof.
  intros He Hf Hr. unfold running. apply list_elem_of_omap.
  exists e. split; [done|]. unfold free_ref. by rewrite Hf.
Qed.

Lemma svc_inv_start (ttft rate : Q) (o : list Request) (s s' : Simulator)
    (h : list Event) (r : nat) (R : Request) (d : Device) (t : Q) :
  svc_inv ttft rate o s →
  objs s !! r = Some R → r ∉ running s → r ∉ completed_requests s →
  requests_map s !! req_id R = Some r →
  ttft_ms d = ttft → output_tokens_per_sec d = rate →
  objs s' = alter (set_start_time t) r (objs s) →
  requests_map s' = requests_map s →
  completed_requests s' = completed_requests s →
  (∀ d', d' ∈ devices (cluster s') →
         ttft_ms d' = ttft ∧ output_tokens_per_sec d' = rate) →
  (∀ e, e ∈ events s' →
        e = mkEvent (t + service_time d R) DEVICE_FREE (req_id R)
              (Some (dev_id d)) ∨ e ∈ events s) →
  svc_inv ttft rate o s'.
Proof.
  intros [Vd Vo Vr Vc] HR Hnr Hnc Hreg Httft Hrate Ho Hm Hc Hdev Hev.
  assert (deref s' r = set_start_time t R) as Hnew
    by exact (deref_alter_eq _ s s' r R Ho HR).
  constructor.
  - done.
  - rewrite Ho. apply same_data_alter; [by intros []|done].
  - intros e He Hf. rewrite Hm.
    destruct (Hev e He) as [->|Hin].
    + exists r. split; [exact Hreg|].
      unfold sta. rewrite Hnew. cbn. unfold service_time, svc. cbn.
      by rewrite Httft, Hrate.
    + destruct (Vr e Hin Hf) as (r' & Hr' & Ht). exists r'.
      split; [done|].
      assert (r' ≠ r) as Hne.
      { intros ->. apply Hnr. by eapply elem_of_running. }
      unfold sta. by rewrite (deref_alter_ne _ s s' r r' Ho Hne).
  - rewrite Hc. intros r' Hr'.
    assert (r' ≠ r) as Hne by (by intros ->).
    unfold sta. rewrite (deref_alter_ne _ s s' r r' Ho Hne).
    by apply Vc.
Qed.

Lemma svc_inv_complete (ttft rate : Q) (o : list Request) (s : Simulator)
    (e : Event) (h : list Event) (r j : nat) (R : Request) :
  svc_inv ttft rate o s → events s ≡ₚ e :: h →
  is_free e = true → requests_map s !! request_id e = Some r →
  objs s !! r = Some R →
  svc_inv ttft rate o (completed_on e h r j s).
Proof.
  intros [Vd Vo Vr Vc] Hperm Hf Hr HR.
  assert (objs (completed_on e h r j s)
          = alter (set_completion_time (timestamp e)) r (objs s)) as Ho
    by done.
  assert (∀ r', sta (completed_on e h r j s) r' = sta s r' ∧
                svc ttft rate (deref (completed_on e h r j s) r')
                = svc ttft rate (deref s r')) as Hsame.
  { intros r'. unfold sta, svc.
    destruct (decide (r' = r)) as [->|Hne].
    - by rewrite (deref_alter_eq _ s _ r R Ho HR), (deref_lookup s r R HR).
    - by rewrite (deref_alter_ne _ s _ r r' Ho Hne). }
  destruct (Vr e) as (r0 & Hr0 & Ht); [rewrite Hperm; by left|done|].
  assert (r0 = r) as -> by congruence.
  constructor.
  - cbn. intros d' [j' Hd']%list_elem_of_lookup.
    apply lookup_alter_Some in Hd' as (d0 & Hd0 & ->).
    destruct (Vd d0) as [? ?]; [by eapply list_elem_of_lookup_2|].
    by destruct (decide (j' = j)).
  - rewrite Ho. apply same_data_alter; [by intros []|done].
  - intros e' He' Hf'. cbn in He'.
    destruct (Vr e') as (r' & Hr' & Ht'); [rewrite Hperm; by right|done|].
    exists r'. split; [done|]. destruct (Hsame r') as [-> ->]. done.
  - cbn [completed_requests completed_on update_device set_cluster
         set_completed_requests].
    intros r' Hr'. destruct (Hsame r') as [-> ->].
    destruct (decide (r' = r)) as [->|Hne].
    + rewrite (deref_alter_eq _ s _ r R Ho HR). cbn.
      rewrite Ht. unfold sta, svc. by rewrite (deref_lookup s r R HR).
    + rewrite (deref_alter_ne _ s _ r r' Ho Hne).
      apply elem_of_app in Hr' as [Hr'|Hr']; [by apply Vc|].
      by apply list_elem_of_singleton in Hr'.
Qed.

Lemma svc_inv_popped (ttft rate : Q) (o : list Request) (s : Simulator)
    (e : Event) (h : list Event) :
  svc_inv ttft rate o s → events s ≡ₚ e :: h →
  svc_inv ttft rate o (popped e h s).
Proof.
  intros [Vd Vo Vr Vc] Hperm. constructor; try done.
  intros e' He' Hf'. apply Vr; [|done]. rewrite Hperm. by right.
Qed.

Lemma step_svc (ttft rate : Q) (o : list Request) (s s' : Simulator) :
  sim_inv s → svc_inv ttft rate o s → step s s' → svc_inv ttft rate o s'.
Proof.
  intros Hinv Hv Hstep.
  destruct Hstep as
    [e h h' r j R d Hperm Hnow Earr Hr HR Hle Hdev Hd Hidle Hid Hperm'
    |e h r R Hperm Hnow Earr Hr HR Hle Hdev
    |e h r j R d Hperm Hnow Earr Efree Hr HR Hdid Hd Ht Hw
    |e h h' r j R d r2 rest R2 Hperm Hnow Earr Efree Hr HR Hdid Hd Ht Hw
       HR2 Hle2 Hperm'
    |e h Hperm Hnow Earr Efree].
  - destruct (v_devices _ _ _ _ Hv d) as [Ht Hrt];
      [by eapply list_elem_of_lookup_2|].
    assert (r ∈ pending s) as Hp.
    { unfold pending. rewrite Hperm. cbn [omap list_omap].
      destruct (refs_arrival (requests_map s) e Earr) as [-> _].
      rewrite Hr. by left. }
    destruct (inv_disjoint s Hinv r Hp) as [Hnr Hnc].
    apply (svc_inv_start ttft rate o s _ h' r R d (timestamp e));
      try done.
    + exact (inv_registered s Hinv r R HR).
    + cbn. intros d' [j' Hd']%list_elem_of_lookup.
      apply lookup_alter_Some in Hd' as (d1 & Hd1 & ->).
      apply lookup_alter_Some in Hd1 as (d0 & Hd0 & ->).
      destruct (v_devices _ _ _ _ Hv d0) as [? ?];
        [by eapply list_elem_of_lookup_2|].
      by destruct (decide (j' = j)).
    + cbn. intros e' He'. rewrite Hperm' in He'.
      apply elem_of_cons in He' as [->|He']; [by left|].
      right. rewrite Hperm. by right.
  - destruct (svc_inv_popped ttft rate o s e h Hv Hperm) as [Vd Vo Vr Vc].
    by constructor.
  - by apply (svc_inv_complete ttft rate o s e h r j R).
  - pose proof (svc_inv_complete ttft rate o s e h r j R Hv Hperm Efree Hr HR)
      as Hv2.
    assert (r2 ∈ pending s) as Hp.
    { unfold pending. rewrite Hw. apply elem_of_app. right. by left. }
    destruct (inv_disjoint s Hinv r2 Hp) as [Hnr Hnc].
    assert (r ∈ running s) as Hrun.
    { eapply elem_of_running; [|done..]. rewrite Hperm. by left. }
    destruct (req_id_alter (set_completion_time (timestamp e)) (objs s) r
                r2 R2 (fun _ => eq_refl) HR2) as (R2' & HR2' & Hid2).
    destruct (v_devices _ _ _ _ Hv d) as [Htt Hrt];
      [by eapply list_elem_of_lookup_2|].
    apply (svc_inv_start ttft rate o (completed_on e h r j s) _ h' r2 R2
             (free_device d) (timestamp e)); try done.
    + intros Hin. apply Hnr. unfold running in *. cbn in Hin.
      rewrite Hperm. cbn [omap list_omap].
      destruct (free_ref (requests_map s) e); [by right|done].
    + cbn. intros [Hin| ->%list_elem_of_singleton]%elem_of_app; done.
    + cbn. rewrite <- Hid2. exact (inv_registered s Hinv r2 R2' HR2').
    + cbn. intros d' [j' Hd']%list_elem_of_lookup.
      apply lookup_alter_Some in Hd' as (d1 & Hd1 & ->).
      apply lookup_alter_Some in Hd1 as (d2 & Hd2 & ->).
      apply lookup_alter_Some in Hd2 as (d0 & Hd0 & ->).
      destruct (v_devices _ _ _ _ Hv d0) as [? ?];
        [by eapply list_elem_of_lookup_2|].
      by destruct (decide (j' = j)).
    + cbn. intros e' He'. rewrite Hperm' in He'.
      apply elem_of_cons in He' as [->|He']; [by left|by right].
  - by apply svc_inv_popped.
Qed.

Lemma loaded_svc (ttft rate : Q) (c : Cluster) (o : list Request)
    (s : Simulator) :
  loaded c o (length o) s →
  (∀ d, d ∈ devices c → ttft_ms d = ttft ∧ output_tokens_per_sec d = rate) →
  svc_inv ttft rate o s.
Proof.
  intros [Hc Ho Ht Hw Hcm Hh He Hm Hr] Hdev. rewrite firstn_all in He.
  constructor.
  - by rewrite Hc.
  - rewrite Ho. intros r R0 HR0. by exists R0.
  - intros e Hin Hf. exfalso. rewrite He in Hin.
    apply list_elem_of_fmap in Hin as (R & -> & _). discriminate Hf.
  - rewrite Hcm. intros r Hin. by apply elem_of_nil in Hin.
Qed.

(** [run] writes only the start and completion times of a request.  For
    token counts in the range of a float (beyond it [calculate_duration]
    raises OverflowError) it returns, the object of every request still has
    the id, arrival time and token counts it was given, and the completion
    time of every completed request is the sum, as [_start_job] computes it,
    of its start time and of the duration that [calculate_duration] returns
    for it on the devices of the cluster. *)
Theorem run_service_time (n : Z) (ttft rate : Q) (c : Cluster)
    (reqs : list Request) :
  Cluster_init n ttft rate = Ok c →
  (0 <= ttft)%Q → (0 < rate)%Q →
  NoDup (req_id <$> reqs) →
  (∀ R, R ∈ reqs → (0 <= arrival_time R)%Q ∧ (0 <= output_tokens R)%Z) →
  (∀ R, R ∈ reqs → binary64.int_fits_float (output_tokens R) = true) →
  ∃ s, run (Simulator_init c reqs) (seq 0 (length reqs)) = Ok s ∧
       (∀ r R0, reqs !! r = Some R0 →
                ∃ R, objs s !! r = Some R ∧
                     req_id R = req_id R0 ∧
                     arrival_time R = arrival_time R0 ∧
                     input_tokens R = input_tokens R0 ∧
                     output_tokens R = output_tokens R0) ∧
       (∀ r, r ∈ completed_requests s →
             ∃ R duration,
               objs s !! r = Some R ∧
               (∀ d, d ∈ devices (cluster s) →
                     calculate_duration d R = Ok duration) ∧
               completion_time R = (start_time R + duration)%Q).
Proof.
  intros Hc Httft Hrate Hnd Hreq _.
  destruct (fresh_cluster n ttft rate c Hc Httft Hrate)
    as (Hlen & Hdev & Hfresh).
  assert (∀ d, d ∈ devices c →
               ttft_ms d = ttft ∧ output_tokens_per_sec d = rate) as Hsame.
  { rewrite Cluster_init_Ok in Hc. injection Hc as <-. cbn.
    intros d (i & -> & _)%list_elem_of_fmap. done. }
  destruct (run_ind (svc_inv ttft rate reqs) c reqs Hnd Hreq Hdev)
    as (s & Hrun & Hinv & Hev & Hv).
  - intros s0 Hl0. by eapply loaded_svc.
  - intros s s' Hinv Hv Hstep. by eapply step_svc.
  - exists s. split; [done|]. split.
    + exact (v_data _ _ _ _ Hv).
    + intros r Hr.
      pose proof (inv_completed s Hinv) as Hall.
      rewrite Forall_forall in Hall. destruct (Hall r Hr) as (R & HR & _).
      exists R, (svc ttft rate R). split; [done|]. split.
      * intros d Hd. destruct (v_devices _ _ _ _ Hv d Hd) as [Ht Hr'].
        rewrite calculate_duration_spec by (rewrite Hr'; done).
        unfold svc. by rewrite Ht, Hr'.
      * pose proof (v_completed _ _ _ _ Hv r Hr) as Heq.
        unfold sta in Heq. by rewrite (deref_lookup s r R HR) in Heq.
Qed.

Lemma run_service_time_witness :
  ∃ s, run (Simulator_init (mkCluster [fresh_device 100 50 0] 0)
              [Request_init 0 0 50 100; Request_init 1 (1 # 10) 50 100])
           (seq 0 2) = Ok s ∧
       (∀ r R0, [Request_init 0 0 50 100; Request_init 1 (1 # 10) 50 100]
                !! r = Some R0 →
                ∃ R, objs s !! r = Some R ∧
                     req_id R = req_id R0 ∧
                     arrival_time R = arrival_time R0 ∧
                     input_tokens R = input_tokens R0 ∧
                     output_tokens R = output_tokens R0) ∧
       (∀ r, r ∈ completed_requests s →
             ∃ R duration,
               objs s !! r = Some R ∧
               (∀ d, d ∈ devices (cluster s) →
                     calculate_duration d R = Ok duration) ∧
               completion_time R = (start_time R + duration)%Q).
Proof.
  apply (run_service_time 1 100 50 (mkCluster [fresh_device 100 50 0] 0)
           [Request_init 0 0 50 100; Request_init 1 (1 # 10) 50 100]).
  - reflexivity.
  - lra.
  - lra.
  - simpl. apply NoDup_cons. split; [|apply NoDup_singleton].
    intros H. apply list_elem_of_singleton in H. discriminate H.
  - intros R HR. apply elem_of_cons in HR as [->|HR].
    + simpl. split; [lra|lia].
    + apply list_elem_of_singleton in HR as ->. simpl. split; [lra|lia].
  - intros R HR. apply elem_of_cons in HR as [->|HR].
    + vm_compute. reflexivity.
    + apply list_elem_of_singleton in HR as ->. vm_compute. reflexivity.
Defined.
